(** * rng_go_cli: random sources, the BitBabbler MPSSE driver and the
    interval collectors, embedded from the Go sources.

    Go's [int] and [uint] are the 64-bit types of the windows/amd64 target;
    a [byte] is a [Z] in [0, 256).  Device I/O is explicit: a simulated
    device answers the i-th control transfer, bulk write and bulk read, and
    the world records how many of each were issued together with a log of
    every operation, so that "no I/O", "not attempted" and "released once"
    are statements about the log. *)

From Stdlib Require Import ZArith List Lia Bool.
From Stdlib Require String.
Import ListNotations.
Import String.StringSyntax.
Delimit Scope string_scope with string.
Open Scope Z_scope.

(** ** Go scalars and slices *)

Module Go.

Definition error := String.string.

(** [len(x)] as a Go [int]. *)
Definition len {A : Type} (l : list A) : Z := Z.of_nat (length l).

(** Wrap-around of the 64-bit signed [int]. *)
Definition int_wrap (z : Z) : Z := (z + 2 ^ 63) mod 2 ^ 64 - 2 ^ 63.

(** Wrap-around of the 64-bit [uint], and the conversions [uint16(x)],
    [byte(x)]. *)
Definition uint_wrap (z : Z) : Z := z mod 2 ^ 64.
Definition uint16 (z : Z) : Z := z mod 2 ^ 16.
Definition to_byte (z : Z) : Z := z mod 256.

(** [make([]byte, n)]: n zero bytes. *)
Definition make (n : Z) : list Z := repeat 0 (Z.to_nat n).

(** [l[lo:hi]] for an in-range pair of indices. *)
Definition slice (l : list Z) (lo hi : Z) : list Z :=
  firstn (Z.to_nat (hi - lo)) (skipn (Z.to_nat lo) l).

(** [copy(buf[at:at+len(src)], src)]. *)
Definition copy_into (buf : list Z) (at_ : Z) (src : list Z) : list Z :=
  firstn (Z.to_nat at_) buf ++ src ++ skipn (Z.to_nat at_ + length src) buf.

(** [buf[len(buf)-1] &= mask]. *)
Definition mask_last (buf : list Z) (mask : Z) : list Z :=
  match rev buf with
  | [] => []
  | x :: r => rev r ++ [Z.land x mask]
  end.

(** The last element of a slice (0 for the empty one). *)
Definition last_byte (buf : list Z) : Z := last buf 0.

(** How a call that may loop for ever, or fault, ends, over a world [W]. *)
Inductive Run (W A : Type) : Type :=
| Done (a : A) (w : W)
| Panic (w : W)      (* run-time panic: bad slice bounds or length *)
| Spin (w : W).      (* still looping when the fuel ran out *)
Arguments Done {W A} a w.
Arguments Panic {W A} w.
Arguments Spin {W A} w.

(** What [ReadBits] returns: the slice ([[]] for nil) and the error. *)
Definition Bits : Type := (list Z * option error)%type.

End Go.

(** ** Context cancellation and the ticker, as seen by a collection loop *)

Module Sched.

Import Go.

(** What the environment does during one cycle of a collection loop.
    Cancellation is monotone: once requested the context stays done.  A
    [select] takes its [ctx.Done()] branch only when the context is done;
    when both branches are ready Go picks either, which [*_takes_done]
    decides. *)
Record Cycle : Type := mkCycle {
  cancel_in_read : bool;    (* cancellation requested while the read runs *)
  cancel_in_send : bool;    (* ... while blocked on the channel send *)
  send_takes_done : bool;   (* the send select takes ctx.Done() *)
  cancel_in_wait : bool;    (* ... during the inter-tick wait *)
  wait_takes_done : bool;   (* the wait select takes ctx.Done() *)
  now : Z                   (* time.Now() at delivery *)
}.

Inductive Phase : Type := InRead | InSend | InWait.

(** What an observer of the loop sees, in order. *)
Inductive Obs (D : Type) : Type :=
| ObsRead                  (* a read is issued *)
| ObsError (e : error)     (* the read returned this error *)
| ObsDeliver (d : D)       (* the sink receives d *)
| ObsCancel (ph : Phase)   (* cancellation is requested *)
| ObsTick.                 (* the wait ends on a tick *)
Arguments ObsRead {D}.
Arguments ObsError {D} e.
Arguments ObsDeliver {D} d.
Arguments ObsCancel {D} ph.
Arguments ObsTick {D}.

Inductive Exit : Type :=
| Returned (err : option error)   (* the loop returned *)
| Running                         (* the environment script ended first *)
| Faulted                         (* a panic escaped the read *)
| Stuck.                          (* the read never returned *)

Definition ctxErr : option error := Some "context canceled"%string.

Definition cancel_obs {D : Type} (fresh : bool) (ph : Phase) : list (Obs D) :=
  if fresh then [ObsCancel ph] else [].

Definition error_obs {D : Type} (err : option error) : list (Obs D) :=
  match err with Some e => [ObsError e] | None => [] end.

Definition is_error {D : Type} (o : Obs D) : bool :=
  match o with ObsError _ => true | _ => false end.

Definition is_wait_cancel {D : Type} (o : Obs D) : bool :=
  match o with ObsCancel InWait => true | _ => false end.

(** No read and no delivery follows the first event that satisfies [p]. *)
Fixpoint quiet_after {D : Type} (p : Obs D -> bool) (t : list (Obs D)) : bool :=
  match t with
  | [] => true
  | o :: t' =>
      if p o
      then negb (existsb (fun o' => match o' with
                                    | ObsRead | ObsDeliver _ => true
                                    | _ => false
                                    end) t')
      else quiet_after p t'
  end.

(** A read or a delivery. *)
Definition is_io {D : Type} (o : Obs D) : bool :=
  match o with
  | ObsRead | ObsDeliver _ => true
  | _ => false
  end.

Section IntervalLoop.

Variable W : Type.
Variable ReadBits : W -> Run W Bits.

(** The [for] loop shared, word for word, by
    [pseudorng.CollectBitsAtInterval] and [truerng.CollectBitsAtInterval]:
    cancellation check, [ReadBits], [onBatch(b)], then the select on
    [ctx.Done()] and [ticker.C]. *)
Fixpoint interval_loop (env : list Cycle) (cancelled : bool) (w : W)
  : list (Obs (list Z)) * Exit * W :=
  if cancelled then ([], Returned ctxErr, w)
  else
    match env with
    | [] => ([], Running, w)
    | c :: env' =>
        match ReadBits w with
        | Done (b, Some err) w1 =>
            (ObsRead :: cancel_obs (cancel_in_read c) InRead ++ [ObsError err],
             Returned (Some err), w1)
        | Done (b, None) w1 =>
            let cancelled1 := cancel_in_read c in
            let cancelled2 := cancelled1 || cancel_in_wait c in
            let t :=
              ObsRead :: cancel_obs cancelled1 InRead ++ [ObsDeliver b]
              ++ cancel_obs (negb cancelled1 && cancel_in_wait c) InWait in
            if cancelled2 && wait_takes_done c
            then (t, Returned ctxErr, w1)
            else
              let '(t', x, w2) := interval_loop env' cancelled2 w1 in
              (t ++ ObsTick :: t', x, w2)
        | Panic w1 => ([ObsRead], Faulted, w1)
        | Spin w1 => ([ObsRead], Stuck, w1)
        end
    end.

(** The argument checks in front of the loop. *)
Definition collect (bitCount interval : Z) (onBatch : bool)
  (env : list Cycle) (cancelled : bool) (w : W)
  : list (Obs (list Z)) * Exit * W :=
  if bitCount <=? 0
  then ([], Returned (Some "bitCount must be positive"%string), w)
  else if interval <=? 0
  then ([], Returned (Some "interval must be positive"%string), w)
  else if negb onBatch
  then ([], Returned (Some "onBatch callback must not be nil"%string), w)
  else interval_loop env cancelled w.

End IntervalLoop.

End Sched.

(** ** Package bbusb: the device session and the MPSSE driver *)

Module bbusb.

Import Go.

Inductive Resource : Type := Interface | Config | DeviceHandle | Context.

(** What one bulk-IN transfer hands back: the bytes placed in the buffer
    and the error, if any. *)
Record Transfer : Type := mkRead { rd_data : list Z; rd_err : option error }.

Inductive Event : Type :=
| EvAcquire (r : Resource)
| EvRelease (r : Resource)
| EvControl (req value index : Z) (res : option error)
| EvBulkOut (data : list Z) (res : option error)
| EvBulkIn (r : Transfer)
| EvSleep (ms : Z).

Inductive OpenResult : Type := OpenErr (e : error) | OpenNil | OpenOk.

Record EndpointDesc : Type := mkEp {
  ep_in : bool;            (* Direction == EndpointDirectionIn *)
  ep_bulk : bool;          (* TransferType == TransferTypeBulk *)
  ep_number : Z;
  ep_maxPacketSize : Z;
  ep_err : option error    (* result of intf.InEndpoint / intf.OutEndpoint *)
}.

(** The simulated device and USB stack: what every call into gousb
    answers. *)
Record Device : Type := mkDevice {
  dev_open : OpenResult;               (* ctx.OpenDeviceWithVIDPID *)
  dev_config : option error;           (* dev.Config(1) *)
  dev_interface : option error;        (* cfg.Interface(0, 0) *)
  dev_endpoints : list EndpointDesc;   (* intf.Setting.Endpoints *)
  dev_ctl : nat -> option error;       (* i-th control transfer *)
  dev_out : nat -> option error;       (* i-th bulk-OUT write *)
  dev_in : nat -> Transfer           (* i-th bulk-IN read *)
}.

Record World : Type := mkWorld {
  n_ctl : nat;
  n_out : nat;
  n_in : nat;
  log : list Event
}.

Definition world0 : World := mkWorld 0 0 0 [].

(** State monad over the world. *)
Definition M (A : Type) : Type := World -> A * World.

Definition ret {A : Type} (a : A) : M A := fun w => (a, w).

Definition bind {A B : Type} (m : M A) (k : A -> M B) : M B :=
  fun w => let (a, w') := m w in k a w'.

Notation "x <- m ;; k" := (bind m (fun x => k))
  (at level 61, m at next level, right associativity).
Notation "m ;;; k" := (bind m (fun _ => k))
  (at level 61, right associativity).

Definition emit (e : Event) : M unit :=
  fun w => (tt, mkWorld (n_ctl w) (n_out w) (n_in w) (log w ++ [e])).

(** DeviceSession: the four gousb handles are pointers, [true] when
    non-nil. *)
Record DeviceSession : Type := mkSession {
  s_ctx : bool;
  s_dev : bool;
  s_cfg : bool;
  s_intf : bool;
  s_inEp : Z;
  s_outEp : Z;
  s_maxPacket : Z
}.

Definition mpsseNoClkDiv5 : Z := 0x8A.
Definition mpsseNoAdaptiveClk : Z := 0x97.
Definition mpsseNo3PhaseClk : Z := 0x8D.
Definition mpsseSetDataLow : Z := 0x80.
Definition mpsseSetDataHigh : Z := 0x82.
Definition mpsseSetClkDivisor : Z := 0x86.
Definition mpsseSendImmediate : Z := 0x87.
Definition mpsseDataByteInPosMSB : Z := 0x20.

Definition ftdiReqReset : Z := 0x00.
Definition ftdiReqSetFlowCtrl : Z := 0x02.
Definition ftdiReqSetEventChar : Z := 0x06.
Definition ftdiReqSetErrorChar : Z := 0x07.
Definition ftdiReqSetLatency : Z := 0x09.
Definition ftdiReqSetBitmode : Z := 0x0B.
Definition ftdiResetSIO : Z := 0.
Definition ftdiFlowRtsCts : Z := 0x0100.
Definition ftdiBitmodeReset : Z := 0x0000.
Definition ftdiBitmodeMpsse : Z := 0x0200.

Section Driver.

Variable d : Device.

(** [s.dev.Control(typ, req, value, index, data)]. *)
Definition control (req value index : Z) : M (option error) :=
  fun w =>
    let r := dev_ctl d (n_ctl w) in
    (r, mkWorld (S (n_ctl w)) (n_out w) (n_in w)
          (log w ++ [EvControl req value index r])).

(** [s.outEp.Write(data)]. *)
Definition outWrite (data : list Z) : M (option error) :=
  fun w =>
    let r := dev_out d (n_out w) in
    (r, mkWorld (n_ctl w) (S (n_out w)) (n_in w)
          (log w ++ [EvBulkOut data r])).

(** [s.inEp.Read(buf)] with [len(buf) = cap]: a transfer never places more
    than [cap] bytes in the buffer. *)
Definition received (cap : Z) (i : nat) : Transfer :=
  mkRead (firstn (Z.to_nat cap) (rd_data (dev_in d i))) (rd_err (dev_in d i)).

Definition inRead (cap : Z) : M Transfer :=
  fun w =>
    let r := received cap (n_in w) in
    (r, mkWorld (n_ctl w) (n_out w) (S (n_in w)) (log w ++ [EvBulkIn r])).

Definition sleep (ms : Z) : M unit := emit (EvSleep ms).

Definition release (r : Resource) : M unit := emit (EvRelease r).
Definition acquire (r : Resource) : M unit := emit (EvAcquire r).

(** [func (s *DeviceSession) Close()]; [None] is the nil session. *)
Definition Close (s : option DeviceSession) : M unit :=
  match s with
  | None => ret tt
  | Some s =>
      (if s_intf s then release Interface else ret tt) ;;;
      (if s_cfg s then release Config else ret tt) ;;;
      (if s_dev s then release DeviceHandle else ret tt) ;;;
      (if s_ctx s then release Context else ret tt)
  end.

Definition ftdiReset : M (option error) :=
  control ftdiReqReset ftdiResetSIO 1.

Definition ftdiSetBitmode (mode mask : Z) : M (option error) :=
  control ftdiReqSetBitmode (Z.lor mode mask) 1.

Definition ftdiSetLatencyTimer (ms : Z) : M (option error) :=
  control ftdiReqSetLatency ms 1.

Definition ftdiSetFlowControl (mode : Z) : M (option error) :=
  control ftdiReqSetFlowCtrl 0 (Z.lor mode 1).

Definition ftdiSetSpecialChars (event : Z) (evtEnable : bool) (errc : Z)
  (errEnable : bool) : M (option error) :=
  let v := if evtEnable then Z.lor event 0x0100 else event in
  e <- control ftdiReqSetEventChar v 1 ;;
  match e with
  | Some err => ret (Some err)
  | None =>
      let v := if errEnable then Z.lor errc 0x0100 else errc in
      control ftdiReqSetErrorChar v 1
  end.

(** The ten-iteration drain loop of [purgeRead]. *)
Fixpoint purgeRead_loop (i : nat) : M unit :=
  match i with
  | O => ret tt
  | S i' =>
      r <- inRead 8192 ;;
      if len (rd_data r) <=? 2 then ret tt else purgeRead_loop i'
  end.

Definition purgeRead : M (option error) :=
  purgeRead_loop 10 ;;; ret None.

(** The ten-iteration reply loop of [checkSync]. *)
Fixpoint checkSync_loop (i : nat) (cmd : Z) : M bool :=
  match i with
  | O => ret false
  | S i' =>
      r <- inRead 512 ;;
      if (len (rd_data r) =? 4) && (nth 2 (rd_data r) 0 =? 0xFA)
         && (nth 3 (rd_data r) 0 =? cmd)
      then ret true
      else checkSync_loop i' cmd
  end.

Definition checkSync (cmd : Z) : M bool :=
  e <- outWrite [cmd; mpsseSendImmediate] ;;
  match e with
  | Some _ => ret false
  | None => checkSync_loop 10 cmd
  end.

(** The endpoint scan of [OpenBitBabbler]: the last bulk IN and the last
    bulk OUT endpoint win; a failing [InEndpoint]/[OutEndpoint] aborts. *)
Fixpoint find_endpoints (eps : list EndpointDesc)
  (inEp outEp : option EndpointDesc)
  : error + (option EndpointDesc * option EndpointDesc) :=
  match eps with
  | [] => inr (inEp, outEp)
  | ep :: eps' =>
      let r1 :=
        if ep_in ep && ep_bulk ep
        then match ep_err ep with Some e => inl e | None => inr (Some ep) end
        else inr inEp in
      match r1 with
      | inl e => inl e
      | inr inEp' =>
          let r2 :=
            if negb (ep_in ep) && ep_bulk ep
            then match ep_err ep with
                 | Some e => inl e
                 | None => inr (Some ep)
                 end
            else inr outEp in
          match r2 with
          | inl e => inl e
          | inr outEp' => find_endpoints eps' inEp' outEp'
          end
      end
  end.

Definition Opened : Type := (option DeviceSession * option error)%type.

(** [s.Close(); return nil, err]. *)
Definition fail (s : DeviceSession) (err : error) : M Opened :=
  Close (Some s) ;;; ret (None, Some err).

(** [if err := step; err != nil { s.Close(); return nil, err }]. *)
Definition guard (s : DeviceSession) (step : M (option error))
  (k : M Opened) : M Opened :=
  e <- step ;;
  match e with
  | Some err => fail s err
  | None => k
  end.

(** [clkDiv := uint16(30000000/bitrate - 1)] on [uint] operands. *)
Definition clkDiv (bitrate : Z) : Z :=
  uint16 (uint_wrap (30000000 / bitrate - 1)).

(** The combined command buffer of the programming step. *)
Definition program_cmd (clk : Z) : list Z :=
  [ mpsseNoClkDiv5; mpsseNoAdaptiveClk; mpsseNo3PhaseClk;
    mpsseSetDataLow; 0x00; 0x0B;
    mpsseSetDataHigh; 0x00; 0x00;
    mpsseSetClkDivisor; to_byte (Z.land clk 0xFF); to_byte (Z.shiftr clk 8);
    0x85 ].

(** [s.checkSync(0xAA) && s.checkSync(0xAB)]. *)
Definition syncPair : M bool :=
  a <- checkSync 0xAA ;;
  if a then checkSync 0xAB else ret false.

(** The vendor InitMPSSE sequence of [OpenBitBabbler], from the reset to
    the final purge, on the session just built. *)
Definition initMPSSE (s : DeviceSession) (bitrate latencyMs : Z) : M Opened :=
  guard s ftdiReset (
  guard s purgeRead (
  guard s (ftdiSetSpecialChars 0 false 0 false) (
  guard s (ftdiSetLatencyTimer latencyMs) (
  guard s (ftdiSetFlowControl ftdiFlowRtsCts) (
  guard s (ftdiSetBitmode ftdiBitmodeReset 0) (
  guard s (ftdiSetBitmode ftdiBitmodeMpsse 0) (
  sleep 50 ;;;
  ok <- syncPair ;;
  ok <- (if negb ok then syncPair else ret ok) ;;
  if negb ok then fail s "MPSSE sync failed"%string
  else
    guard s (outWrite (program_cmd (clkDiv bitrate))) (
    sleep 30 ;;;
    purgeRead ;;;
    ret (Some s, None))))))))).

Definition release_all : M unit :=
  release Interface ;;; release Config ;;; release DeviceHandle ;;;
  release Context.

(** [func OpenBitBabbler(bitrate uint, latencyMs uint8)].  The result of
    [dev.SetAutoDetach(true)] is discarded by the source and has no part
    here. *)
Definition OpenBitBabbler (bitrate latencyMs : Z) : M Opened :=
  let bitrate := if bitrate =? 0 then 2500000 else bitrate in
  let latencyMs := if latencyMs =? 0 then 1 else latencyMs in
  acquire Context ;;;
  match dev_open d with
  | OpenErr e => release Context ;;; ret (None, Some e)
  | OpenNil =>
      release Context ;;;
      ret (None, Some "BitBabbler device not found"%string)
  | OpenOk =>
      acquire DeviceHandle ;;;
      match dev_config d with
      | Some e =>
          release DeviceHandle ;;; release Context ;;; ret (None, Some e)
      | None =>
          acquire Config ;;;
          match dev_interface d with
          | Some e =>
              release Config ;;; release DeviceHandle ;;; release Context ;;;
              ret (None, Some e)
          | None =>
              acquire Interface ;;;
              match find_endpoints (dev_endpoints d) None None with
              | inl e => release_all ;;; ret (None, Some e)
              | inr (Some inEp, Some outEp) =>
                  initMPSSE
                    (mkSession true true true true (ep_number inEp)
                       (ep_number outEp) (ep_maxPacketSize inEp))
                    bitrate latencyMs
              | inr _ =>
                  release_all ;;;
                  ret (None, Some "bulk endpoints not found"%string)
              end
          end
      end
  end.

(** [func roundUpToMaxPacket(n, max int) int]. *)
Definition roundUpToMaxPacket (n max : Z) : Z :=
  if max <=? 0 then n
  else if Z.rem n max =? 0 then n
  else (Z.quot n max + 1) * max.

Definition Run := Go.Run World.

Inductive Walk : Type :=
| WOk (got : Z) (buf : list Z)
| WPanic
| WFuel.

(** The inner loop of [ReadRandom] over one received chunk [data]
    ([tmp[:m]]): strides of [maxPacket] bytes, two status bytes skipped at
    the start of each. *)
Fixpoint walk (fuel : nat) (maxPacket want : Z) (data : list Z)
  (offset got : Z) (buf : list Z) : Walk :=
  match fuel with
  | O => WFuel
  | S fuel' =>
      let m := len data in
      if offset <? m then
        let remain := m - offset in
        if remain <=? 2 then WOk got buf
        else
          let take := if remain >? maxPacket then maxPacket else remain in
          let usable := take - 2 in
          let usable := if usable >? want - got then want - got else usable in
          if usable <? 0 then WPanic
          else
            let buf' :=
              copy_into buf got (slice data (offset + 2) (offset + 2 + usable)) in
            let got' := got + usable in
            let offset' := offset + take in
            if got' =? want then WOk got' buf'
            else walk fuel' maxPacket want data offset' got' buf'
      else WOk got buf
  end.

Definition ReadOut : Type := (Z * option error * list Z)%type.

(** The outer loop of [ReadRandom]: [for got < want]. *)
Fixpoint read_loop (fuel : nat) (maxPacket want cap got : Z) (buf : list Z)
  (w : World) : Run ReadOut :=
  if got <? want then
    match fuel with
    | O => Spin w
    | S fuel' =>
        let (r, w1) := inRead cap w in
        match rd_err r with
        | Some e => Done (got, Some e, buf) w1
        | None =>
            let m := len (rd_data r) in
            if m <=? 2 then read_loop fuel' maxPacket want cap got buf w1
            else
              match walk (S (Z.to_nat m)) maxPacket want (rd_data r) 0 got buf
              with
              | WOk got' buf' =>
                  read_loop fuel' maxPacket want cap got' buf' w1
              | WPanic => Panic w1
              | WFuel => Spin w1
              end
        end
    end
  else Done (got, None, buf) w.

(** [func (s *DeviceSession) ReadRandom(ctx, buf)]; the result carries the
    buffer as the call leaves it.  [ctx] is not used by the body. *)
Definition ReadRandom (fuel : nat) (s : DeviceSession) (buf : list Z)
  (w : World) : Run ReadOut :=
  if len buf =? 0 then Done (0, None, buf) w
  else
    let n := len buf in
    let cmd := [ mpsseDataByteInPosMSB;
                 to_byte (Z.land (n - 1) 0xFF);
                 to_byte (Z.shiftr (n - 1) 8);
                 mpsseSendImmediate ] in
    let (e, w1) := outWrite cmd w in
    match e with
    | Some err => Done (0, Some err, buf) w1
    | None =>
        read_loop fuel (s_maxPacket s) n
          (roundUpToMaxPacket n (s_maxPacket s) + s_maxPacket s) 0 buf w1
    end.

(** The trim shared by [ReadBitsOnce] and [StartBitCollector]:
    [buf[len(buf)-1] &= 0xFF >> excess]. *)
Definition trim_bits (bits : Z) (buf : list Z) : list Z :=
  if negb (Z.rem bits 8 =? 0) && (len buf >? 0)
  then let excess := 8 - Z.rem bits 8 in
       mask_last buf (Z.shiftr 0xFF excess)
  else buf.

(** [func ReadBitsOnce(ctx, bits, bitrate, latencyMs)]. *)
Definition ReadBitsOnce (fuel : nat) (bits bitrate latencyMs : Z)
  (w : World) : Run Bits :=
  if bits <=? 0 then Done ([], Some "bits must be > 0"%string) w
  else
    match OpenBitBabbler bitrate latencyMs w with
    | (Some sess, None, w1) =>
        let closing w := snd (Close (Some sess) w) in   (* defer sess.Close() *)
        let numBytes := Z.quot (int_wrap (bits + 7)) 8 in
        if numBytes <? 0 then Panic (closing w1)
        else
          let buf := make numBytes in
          match ReadRandom fuel sess buf w1 with
          | Done (got, Some err, _) w2 => Done ([], Some err) (closing w2)
          | Done (got, None, buf) w2 =>
              let buf := if got <? numBytes then slice buf 0 got else buf in
              Done (trim_bits bits buf, None) (closing w2)
          | Panic w2 => Panic (closing w2)
          | Spin w2 => Spin w2
          end
    | (_, Some err, w1) => Done ([], Some err) w1
    | (None, None, w1) => Panic w1   (* nil session dereferenced *)
    end.

(** [type ReadResult struct]. *)
Record ReadResult : Type := mkResult {
  Timestamp : Z;
  BitsRequested : Z;
  Data : list Z;
  Err : option error
}.

Import Sched.

(** The goroutine of [StartBitCollector]; returning runs the deferred
    [sess.Close()] and closes the channel. *)
Fixpoint collector_loop (fuel : nat) (sess : DeviceSession)
  (bits numBytes : Z) (env : list Cycle) (cancelled : bool) (w : World)
  : list (Obs ReadResult) * Exit * World :=
  let closing w := snd (Close (Some sess) w) in
  if cancelled then ([], Returned None, closing w)
  else
    match env with
    | [] => ([], Running, w)
    | c :: env' =>
        if numBytes <? 0 then ([], Faulted, closing w)   (* make panics *)
        else
        match ReadRandom fuel sess (make numBytes) w with
        | Done (n, err, buf) w1 =>
            let ok := match err with None => true | Some _ => false end in
            let buf := if ok && (n <? numBytes) then slice buf 0 n else buf in
            let buf := if ok then trim_bits bits buf else buf in
            let cancelled1 := cancel_in_read c in
            let cancelled2 := cancelled1 || cancel_in_send c in
            let t1 :=
              ObsRead :: cancel_obs cancelled1 InRead ++ error_obs err
              ++ cancel_obs (negb cancelled1 && cancel_in_send c) InSend in
            if cancelled2 && send_takes_done c
            then (t1, Returned None, closing w1)
            else
              let cancelled3 := cancelled2 || cancel_in_wait c in
              let t2 :=
                t1 ++ [ObsDeliver (mkResult (now c) bits buf err)]
                ++ cancel_obs (negb cancelled2 && cancel_in_wait c) InWait in
              if cancelled3 && wait_takes_done c
              then (t2, Returned None, closing w1)
              else
                let '(t', x, w2) :=
                  collector_loop fuel sess bits numBytes env' cancelled3 w1 in
                (t2 ++ ObsTick :: t', x, w2)
        | Panic w1 => ([ObsRead], Faulted, closing w1)
        | Spin w1 => ([ObsRead], Stuck, w1)
        end
    end.

(** [func StartBitCollector(ctx, bits, interval, bitrate, latencyMs)]: the
    error returned to the caller, and what the goroutine then does. *)
Definition StartBitCollector (fuel : nat) (bits interval bitrate latencyMs : Z)
  (env : list Cycle) (cancelled : bool) (w : World)
  : option error * (list (Obs ReadResult) * Exit * World) :=
  if bits <=? 0 then (Some "bits must be > 0"%string, ([], Returned None, w))
  else if interval <=? 0
  then (Some "interval must be > 0"%string, ([], Returned None, w))
  else
    match OpenBitBabbler bitrate latencyMs w with
    | (Some sess, None, w1) =>
        let numBytes := Z.quot (int_wrap (bits + 7)) 8 in
        (None, collector_loop fuel sess bits numBytes env cancelled w1)
    | (_, Some err, w1) => (Some err, ([], Returned None, w1))
    | (None, None, w1) => (None, ([], Faulted, w1))
    end.

End Driver.

End bbusb.

(** ** Package pseudorng: the software source *)

Module pseudorng.

Import Go.

(** The system entropy source behind [crypto/rand]: the bytes and the error
    of the i-th [crand.Read]. *)
Record Entropy : Type := mkEntropy {
  crand_bytes : nat -> nat -> Z;
  crand_err : nat -> option error
}.

(** The world is the number of [crand.Read] calls issued so far. *)
Definition World : Type := nat.

Section Source.

Variable E : Entropy.

(** [crand.Read(buf)] fills the whole buffer. *)
Definition crandRead (i : nat) (n : Z) : list Z :=
  map (fun j => to_byte (crand_bytes E i j)) (seq 0 (Z.to_nat n)).

(** [func ReadBits(bitCount int) ([]byte, error)]. *)
Definition ReadBits (bitCount : Z) (w : World) : Run World Bits :=
  if bitCount <=? 0
  then Done ([], Some "bitCount must be positive"%string) w
  else
    let byteCount := Z.quot (int_wrap (bitCount + 7)) 8 in
    if byteCount <? 0 then Panic w   (* make: len out of range *)
    else
      match crand_err E w with
      | Some err => Done ([], Some err) (S w)
      | None =>
          let buf := crandRead w byteCount in
          let extraBits := Z.rem (8 - Z.rem bitCount 8) 8 in
          let buf :=
            if negb (extraBits =? 0)
            then mask_last buf (to_byte (Z.shiftl 0xFF extraBits))
            else buf in
          Done (buf, None) (S w)
      end.

(** [func CollectBitsAtInterval(ctx, bitCount, interval, onBatch)];
    [onBatch] is [true] for a non-nil callback. *)
Definition CollectBitsAtInterval (bitCount interval : Z) (onBatch : bool)
  (env : list Sched.Cycle) (cancelled : bool) (w : World)
  : list (Sched.Obs (list Z)) * Sched.Exit * World :=
  Sched.collect World (ReadBits bitCount) bitCount interval onBatch
    env cancelled w.

End Source.

End pseudorng.

(** ** Package truerng: the serial source *)

Module truerng.

Import Go.

(** The serial side: what [FindPort] and [serial.Open] answer, whether the
    i-th deadline check finds the deadline passed, and what the i-th
    [port.Read] returns. *)
Record Serial : Type := mkSerial {
  find_port : option error;
  open_port : option error;
  ser_late : nat -> bool;
  ser_data : nat -> list Z;
  ser_err : nat -> option error
}.

Record World : Type := mkWorld {
  n_enum : nat;     (* port enumerations *)
  n_open : nat;     (* serial.Open calls *)
  n_close : nat;    (* port.Close calls *)
  n_clock : nat;    (* deadline checks *)
  n_read : nat      (* port.Read calls *)
}.

Definition world0 : World := mkWorld 0 0 0 0 0.

Section Source.

Variable P : Serial.

(** The read loop of [ReadBytes]: [for total < blockSize]. *)
Fixpoint readBytes_loop (fuel : nat) (blockSize total : Z) (buf : list Z)
  (w : World) : Run World Bits :=
  if total <? blockSize then
    match fuel with
    | O => Spin w
    | S fuel' =>
        let w1 := mkWorld (n_enum w) (n_open w) (n_close w) (S (n_clock w))
                    (n_read w) in
        if ser_late P (n_clock w)
        then Done ([], Some "read timeout after 10s"%string) w1
        else
          let w2 := mkWorld (n_enum w) (n_open w) (n_close w) (S (n_clock w))
                      (S (n_read w)) in
          (* port.Read(buf[total:]) places at most blockSize-total bytes *)
          let data := firstn (Z.to_nat (blockSize - total))
                        (ser_data P (n_read w)) in
          match ser_err P (n_read w) with
          | Some err => Done ([], Some err) w2
          | None =>
              readBytes_loop fuel' blockSize (total + len data)
                (copy_into buf total data) w2
          end
    end
  else Done (buf, None) w.

Definition closing (w : World) : World :=
  mkWorld (n_enum w) (n_open w) (S (n_close w)) (n_clock w) (n_read w).

(** [func ReadBytes(blockSize int) ([]byte, error)]. *)
Definition ReadBytes (fuel : nat) (blockSize : Z) (w : World)
  : Run World Bits :=
  if blockSize <=? 0
  then Done ([], Some "blockSize must be positive"%string) w
  else
    let w1 := mkWorld (S (n_enum w)) (n_open w) (n_close w) (n_clock w)
                (n_read w) in
    match find_port P with
    | Some err => Done ([], Some err) w1
    | None =>
        let w2 := mkWorld (n_enum w1) (S (n_open w1)) (n_close w1)
                    (n_clock w1) (n_read w1) in
        match open_port P with
        | Some err => Done ([], Some err) w2
        | None =>
            match readBytes_loop fuel blockSize 0 (make blockSize) w2 with
            | Done r w3 => Done r (closing w3)    (* deferred port.Close() *)
            | Panic w3 => Panic (closing w3)
            | Spin w3 => Spin w3
            end
        end
    end.

(** [func ReadBits(bitCount int) ([]byte, error)]. *)
Definition ReadBits (fuel : nat) (bitCount : Z) (w : World)
  : Run World Bits :=
  if bitCount <=? 0
  then Done ([], Some "bitCount must be positive"%string) w
  else
    let byteCount := Z.quot (int_wrap (bitCount + 7)) 8 in
    match ReadBytes fuel byteCount w with
    | Done (data, Some err) w1 => Done ([], Some err) w1
    | Done (data, None) w1 =>
        let extraBits := Z.rem (8 - Z.rem bitCount 8) 8 in
        let data :=
          if negb (extraBits =? 0)
          then mask_last data (to_byte (Z.shiftl 0xFF extraBits))
          else data in
        Done (data, None) w1
    | Panic w1 => Panic w1
    | Spin w1 => Spin w1
    end.

(** [func CollectBitsAtInterval(ctx, bitCount, interval, onBatch)]. *)
Definition CollectBitsAtInterval (fuel : nat) (bitCount interval : Z)
  (onBatch : bool) (env : list Sched.Cycle) (cancelled : bool) (w : World)
  : list (Sched.Obs (list Z)) * Sched.Exit * World :=
  Sched.collect World (ReadBits fuel bitCount) bitCount interval onBatch
    env cancelled w.

End Source.

End truerng.

(** ** The specification's side: packet extraction in its own words *)

Module Spec.

Import Go.

(** A chunk cut into strides of [maxPacket] bytes. *)
Fixpoint strides (fuel maxPacket : nat) (data : list Z) : list (list Z) :=
  match fuel with
  | O => []
  | S fuel' =>
      match data with
      | [] => []
      | _ => firstn maxPacket data :: strides fuel' maxPacket (skipn maxPacket data)
      end
  end.

(** Every stride of a chunk without its first two bytes; the non-header
    bytes of one received chunk: nothing for a chunk of at most two bytes,
    else its stripped strides. *)
Definition stripped (maxPacket : Z) (data : list Z) : list Z :=
  concat (map (skipn 2) (strides (length data) (Z.to_nat maxPacket) data)).

Definition chunk_payload (maxPacket : Z) (data : list Z) : list Z :=
  if len data <=? 2 then [] else stripped maxPacket data.

(** The non-header bytes of a sequence of received chunks. *)
Definition payload (maxPacket : Z) (chunks : list (list Z)) : list Z :=
  concat (map (chunk_payload maxPacket) chunks).

(** The chunks handed back by [k] successive bulk-IN reads into a buffer of
    [cap] bytes, starting with read [i], and whether none of them failed. *)
Definition chunks (d : bbusb.Device) (cap : Z) (i k : nat) : list (list Z) :=
  map (fun j => bbusb.rd_data (bbusb.received d cap j)) (seq i k).

Definition clean (d : bbusb.Device) (i k : nat) : bool :=
  forallb (fun j => match bbusb.rd_err (bbusb.dev_in d j) with
                    | None => true
                    | Some _ => false
                    end) (seq i k).

(** The initialization sequence as the specification lists it, one action
    per position, each returning the error that aborts it. *)
Section InitSequence.

Import bbusb.

Variable d : Device.

(** Position 6: bit mode to reset, then to MPSSE, then the 50 ms settle. *)
Definition set_mpsse_mode : M (option error) :=
  e <- ftdiSetBitmode d ftdiBitmodeReset 0 ;;
  match e with
  | Some err => ret (Some err)
  | None =>
      e <- ftdiSetBitmode d ftdiBitmodeMpsse 0 ;;
      match e with
      | Some err => ret (Some err)
      | None => sleep 50 ;;; ret None
      end
  end.

(** One two-byte sync attempt: 0xAA, then 0xAB. *)
Definition sync_attempt : M bool :=
  a <- checkSync d 0xAA ;;
  if a then checkSync d 0xAB else ret false.

(** Position 7: the two-byte sync sequence, run again once if it fails. *)
Definition sync_check : M (option error) :=
  ok <- sync_attempt ;;
  if ok then ret None
  else
    ok <- sync_attempt ;;
    if ok then ret None else ret (Some "MPSSE sync failed"%string).

(** Position 8: the combined command buffer, the 30 ms settle, the purge. *)
Definition program (bitrate : Z) : M (option error) :=
  e <- outWrite d (program_cmd (clkDiv bitrate)) ;;
  match e with
  | Some err => ret (Some err)
  | None => sleep 30 ;;; purgeRead d ;;; ret None
  end.

Definition init_sequence (bitrate latencyMs : Z) : list (M (option error)) :=
  [ ftdiReset d;
    purgeRead d;
    ftdiSetSpecialChars d 0 false 0 false;
    ftdiSetLatencyTimer d latencyMs;
    ftdiSetFlowControl d ftdiFlowRtsCts;
    set_mpsse_mode;
    sync_check;
    program bitrate ].

(** Run the positions in order; the first failure releases the session and
    returns its error with no session. *)
Fixpoint run_sequence (s : DeviceSession) (steps : list (M (option error)))
  : M Opened :=
  match steps with
  | [] => ret (Some s, None)
  | st :: rest =>
      e <- st ;;
      match e with
      | Some err => Close (Some s) ;;; ret (None, Some err)
      | None => run_sequence s rest
      end
  end.

(** The world reached when the first [k] positions have all succeeded. *)
Fixpoint run_prefix (steps : list (M (option error))) (k : nat) (w : World)
  : option World :=
  match k, steps with
  | O, _ => Some w
  | S k', st :: rest =>
      match st w with
      | (None, w') => run_prefix rest k' w'
      | (Some _, _) => None
      end
  | S _, [] => None
  end.

End InitSequence.

(** The resources released, and acquired, in a log, in order. *)
Definition releases (l : list bbusb.Event) : list bbusb.Resource :=
  flat_map (fun e => match e with bbusb.EvRelease r => [r] | _ => [] end) l.

Definition acquires (l : list bbusb.Event) : list bbusb.Resource :=
  flat_map (fun e => match e with bbusb.EvAcquire r => [r] | _ => [] end) l.

(** An action that neither acquires nor releases a resource. *)
Definition quiet {A : Type} (m : bbusb.M A) : Prop :=
  forall w,
    releases (bbusb.log (snd (m w))) = releases (bbusb.log w) /\
    acquires (bbusb.log (snd (m w))) = acquires (bbusb.log w).

(** The world in which [OpenBitBabbler] builds the session: context, device
    handle, configuration and interface acquired, in this order. *)
Definition acquired (w : bbusb.World) : bbusb.World :=
  bbusb.mkWorld (bbusb.n_ctl w) (bbusb.n_out w) (bbusb.n_in w)
    (bbusb.log w ++ [bbusb.EvAcquire bbusb.Context;
                     bbusb.EvAcquire bbusb.DeviceHandle;
                     bbusb.EvAcquire bbusb.Config;
                     bbusb.EvAcquire bbusb.Interface]).

(** The session [OpenBitBabbler] builds from the endpoints it found. *)
Definition built (inEp outEp : bbusb.EndpointDesc) : bbusb.DeviceSession :=
  bbusb.mkSession true true true true (bbusb.ep_number inEp)
    (bbusb.ep_number outEp) (bbusb.ep_maxPacketSize inEp).

(** A reply that passes the sync check for [cmd]. *)
Definition sync_reply (cmd : Z) (r : bbusb.Transfer) : bool :=
  (len (bbusb.rd_data r) =? 4) && (nth 2 (bbusb.rd_data r) 0 =? 0xFA)
  && (nth 3 (bbusb.rd_data r) 0 =? cmd).

(** Rounding a quotient of positive integers to the nearest integer
    (halves up). *)
Definition round_div (a b : Z) : Z := (2 * a + b) / (2 * b).

End Spec.

(** ** Simulated devices used to exercise the model *)

Module Mock.

Import Go bbusb.

(** The two status bytes that open every packet. *)
Definition status : list Z := [0x32; 0x60].

Definition endpoints (mp : Z) : list EndpointDesc :=
  [ mkEp true true 1 mp None; mkEp false true 2 mp None ].

Definition ok : nat -> option error := fun _ => None.

Definition fail_at (k : nat) (e : error) : nat -> option error :=
  fun i => if Nat.eqb i k then Some e else None.

(** A device with one bulk pair of packet size [mp]; its bulk-IN reads
    return [reads] in order, then bare status packets. *)
Definition device (mp : Z) (ctl out : nat -> option error)
  (reads : list Transfer) : Device :=
  mkDevice OpenOk None None (endpoints mp) ctl out
    (fun i => nth i reads (mkRead status None)).

Definition session (mp : Z) : DeviceSession :=
  mkSession true true true true 1 2 mp.

(** A sync reply: two status bytes, 0xFA, the echoed command. *)
Definition reply (cmd : Z) : Transfer := mkRead (status ++ [0xFA; cmd]) None.
Definition idle : Transfer := mkRead status None.

(** The reads a healthy device gives during [OpenBitBabbler]: the purge, the
    two sync replies, the final purge. *)
Definition boot : list Transfer := [idle; reply 0xAA; reply 0xAB; idle].

(** Packet size 8; a 16-byte chunk (two packets), a status-only chunk and
    a 6-byte chunk. *)
Definition chunked : list Transfer :=
  [ mkRead (status ++ [1; 2; 3; 4; 5; 6] ++ status ++ [7; 8; 9; 10; 11; 12]) None;
    idle;
    mkRead (status ++ [13; 14; 15; 16]) None ].

(** A device whose payload byte is all ones. *)
Definition ones_device : Device :=
  device 8 ok ok (boot ++ [mkRead (status ++ [0xFF]) None]).

(** A device that stays silent through the first sync attempt and answers
    the second. *)
Definition late_sync : Device :=
  device 8 ok ok ([idle] ++ repeat idle 10 ++ [reply 0xAA; reply 0xAB; idle]).

(** An entropy source and a serial port that return all-ones bytes. *)
Definition entropy : pseudorng.Entropy :=
  pseudorng.mkEntropy (fun _ _ => 0xFF) (fun _ => None).

Definition serial : truerng.Serial :=
  truerng.mkSerial None None (fun _ => false) (fun _ => [0xFF; 0xFF; 0xFF])
    (fun _ => None).

(** A device whose fourth bulk write, the first read command after the
    three writes of the open, fails; later ones succeed. *)
Definition flaky : Device :=
  device 8 ok (fail_at 3 "pipe"%string) (boot ++ [mkRead (status ++ [0xFF]) None]).

(** An entropy source whose second read fails. *)
Definition entropy_fails : pseudorng.Entropy :=
  pseudorng.mkEntropy (fun _ _ => 0xFF) (fail_at 1 "entropy"%string).

(** Cycles of a collection loop: undisturbed, and cancelled while waiting
    with the select taking either branch. *)
Definition calm : Sched.Cycle := Sched.mkCycle false false false false false 0.
Definition cancel_waiting (done : bool) : Sched.Cycle :=
  Sched.mkCycle false false false true done 0.
Definition cancel_reading : Sched.Cycle :=
  Sched.mkCycle true false false false true 0.

(** A device whose fourth control transfer, the latency timer, stalls. *)
Definition stalled : Device :=
  device 8 (fail_at 3 "stall"%string) ok boot.

End Mock.

(** ** Projections of logs, outcomes and traces *)

Module View.

Import Go.

(** The world a call leaves behind, however it ends. *)
Definition world_of {W A : Type} (r : Run W A) : W :=
  match r with
  | Done _ w => w
  | Panic w => w
  | Spin w => w
  end.

(** The control transfers of a log, in order: request, value, index. *)
Definition controls (l : list bbusb.Event) : list (Z * Z * Z) :=
  flat_map (fun e => match e with
                     | bbusb.EvControl r v i _ => [(r, v, i)]
                     | _ => []
                     end) l.

(** An action that issues no control transfer. *)
Definition ctl_free {A : Type} (m : bbusb.M A) : Prop :=
  forall w,
    controls (bbusb.log (snd (m w))) = controls (bbusb.log w) /\
    bbusb.n_ctl (snd (m w)) = bbusb.n_ctl w.

(** An opening action whose control transfers are a prefix of [hs], and all
    of [hs] when it returns a session. *)
Definition ctl_within (hs : list (Z * Z * Z)) (m : bbusb.M bbusb.Opened)
  : Prop :=
  forall w, exists k,
    (k <= length hs)%nat /\
    controls (bbusb.log (snd (m w))) = controls (bbusb.log w) ++ firstn k hs /\
    bbusb.n_ctl (snd (m w)) = (bbusb.n_ctl w + k)%nat /\
    (fst (fst (m w)) <> None -> k = length hs).

(** The bulk reads [i], [i+1], ..., [i+k-1] with a buffer of [cap] bytes, as
    they appear in the log. *)
Definition bulk_reads (d : bbusb.Device) (cap : Z) (i k : nat)
  : list bbusb.Event :=
  map (fun j => bbusb.EvBulkIn (bbusb.received d cap j)) (seq i k).

(** The padding contract of a batch of [bits] bits: ceil(bits/8) bytes, the
    unused low bits of the last byte zero. *)
Definition padded (bits : Z) (b : list Z) : Prop :=
  8 * (Go.len b - 1) < bits <= 8 * Go.len b /\
  (bits mod 8 <> 0 -> Go.last_byte b mod 2 ^ (8 - bits mod 8) = 0).


(** What the sink received, in order. *)
Definition deliveries {D : Type} (t : list (Sched.Obs D)) : list D :=
  flat_map (fun o => match o with Sched.ObsDeliver x => [x] | _ => [] end) t.

(** The reads a trace issued. *)
Definition reads_issued {D : Type} (t : list (Sched.Obs D)) : nat :=
  length (filter (fun o => match o with Sched.ObsRead => true | _ => false end) t).

End View.

(** ** Package pseudorng: the seeded generator *)

Module prng.

Import Go.

(** The [math/rand] source behind a generator: the result of the i-th
    [g.r.Intn(256)] since it was seeded. *)
Record Source : Type := mkSource {
  Intn256 : nat -> Z
}.

(** [*Generator]: [None] is the nil pointer, [Some None] a generator whose
    [r] is nil. *)
Definition Generator : Type := option (option Source).

(** The world is the number of draws taken from the source so far. *)
Definition World : Type := nat.

(** [for i := 0; i < byteCount; i++ { buf[i] = byte(g.r.Intn(256)) }], with
    [k] iterations left. *)
Fixpoint fill_loop (src : Source) (k : nat) (i : Z) (buf : list Z) (w : World)
  : list Z * World :=
  match k with
  | O => (buf, w)
  | S k' =>
      fill_loop src k' (i + 1)
        (copy_into buf i [to_byte (Intn256 src w)]) (S w)
  end.

(** [func (g *Generator) ReadBits(bitCount int) ([]byte, error)]. *)
Definition ReadBits (g : Generator) (bitCount : Z) (w : World)
  : Run World Bits :=
  match g with
  | None | Some None => Done ([], Some "generator is nil"%string) w
  | Some (Some src) =>
      if bitCount <=? 0
      then Done ([], Some "bitCount must be positive"%string) w
      else
        let byteCount := Z.quot (int_wrap (bitCount + 7)) 8 in
        if byteCount <? 0 then Panic w   (* make: len out of range *)
        else
          let (buf, w1) :=
            fill_loop src (Z.to_nat byteCount) 0 (make byteCount) w in
          let extraBits := Z.rem (8 - Z.rem bitCount 8) 8 in
          let buf :=
            if negb (extraBits =? 0)
            then mask_last buf (to_byte (Z.shiftl 0xFF extraBits))
            else buf in
          Done (buf, None) w1
  end.

(** [func (g *Generator) CollectBitsAtInterval(ctx, bitCount, interval,
    onBatch)]: the nil check, then the checks and the loop of the package
    level function. *)
Definition CollectBitsAtInterval (g : Generator) (bitCount interval : Z)
  (onBatch : bool) (env : list Sched.Cycle) (cancelled : bool) (w : World)
  : list (Sched.Obs (list Z)) * Sched.Exit * World :=
  match g with
  | None | Some None => ([], Sched.Returned (Some "generator is nil"%string), w)
  | Some (Some _) =>
      Sched.collect World (ReadBits g bitCount) bitCount interval onBatch
        env cancelled w
  end.

(** [binary.LittleEndian.Uint64(s)]. *)
Definition le_uint64 (s : list Z) : Z :=
  fold_right (fun b acc => b + 256 * acc) 0 (firstn 8 s).

(** [func NewGenerator(seed uint64)]: [mrand] maps the
    [int64] seed to the source it starts; the world is the number of
    [crand.Read] calls. *)
Definition NewGenerator (E : pseudorng.Entropy) (mrand : Z -> Source)
  (seed : Z) (w : pseudorng.World)
  : Generator * option error * pseudorng.World :=
  if seed =? 0 then
    match pseudorng.crand_err E w with
    | Some err => (None, Some err, S w)
    | None =>
        let seed := le_uint64 (pseudorng.crandRead E w 8) in
        (Some (Some (mrand (int_wrap seed))), None, S w)
    end
  else (Some (Some (mrand (int_wrap seed))), None, w).

(** The window of [n] draws that starts at draw [w], as bytes. *)
Definition window (src : Source) (w n : nat) : list Z :=
  map (fun j => to_byte (Intn256 src (w + j))) (seq 0 n).

End prng.

(** ** Package truerng: finding the serial port *)

Module ports.

Import Go.
Import String.

(** [enumerator.PortDetails]. *)
Record PortDetails : Type := mkPort {
  Name : string;
  IsUSB : bool;
  VID : string;
  PID : string;
  SerialNumber : string;
  Product : string
}.

Definition DeviceNamePrefix : string := "TrueRNG".

(** [s != "" && len(s) >= len(DeviceNamePrefix) &&
    s[:len(DeviceNamePrefix)] == DeviceNamePrefix]. *)
Definition has_prefix (s : string) : bool :=
  negb (s =? "")%string
  && (length DeviceNamePrefix <=? length s)%nat
  && (substring 0 (length DeviceNamePrefix) s =? DeviceNamePrefix)%string.

(** [func hasTrueRNGPrefix(p *enumerator.PortDetails) bool]. *)
Definition hasTrueRNGPrefix (p : option PortDetails) : bool :=
  match p with
  | None => false
  | Some p =>
      if IsUSB p && has_prefix (Product p) then true
      else if IsUSB p && has_prefix (SerialNumber p) then true
      else if has_prefix (Name p) then true
      else if (VID p =? "16D0")%string
              && ((PID p =? "0AA0")%string || (PID p =? "0AA2")%string
                  || (PID p =? "0AA4")%string)
      then true
      else false
  end.

(** What [enumerator.GetDetailedPortsList] answers: an error, or the ports,
    a nil entry being [None]. *)
Definition Listing : Type := (error + list (option PortDetails))%type.

Fixpoint detect_loop (ps : list (option PortDetails)) : bool :=
  match ps with
  | [] => false
  | None :: ps' => detect_loop ps'
  | Some p :: ps' =>
      if hasTrueRNGPrefix (Some p) then true else detect_loop ps'
  end.

(** [func Detect() (bool, error)]. *)
Definition Detect (l : Listing) : bool * option error :=
  match l with
  | inl err => (false, Some ("enumerating ports: " ++ err)%string)
  | inr ps => (detect_loop ps, None)
  end.

Fixpoint find_loop (ps : list (option PortDetails)) : option string :=
  match ps with
  | [] => None
  | None :: ps' => find_loop ps'
  | Some p :: ps' =>
      if hasTrueRNGPrefix (Some p)
      then if negb (Name p =? "")%string then Some (Name p) else find_loop ps'
      else find_loop ps'
  end.

(** [func FindPort() (string, error)]. *)
Definition FindPort (l : Listing) : string * option error :=
  match l with
  | inl err => (""%string, Some ("enumerating ports: " ++ err)%string)
  | inr ps =>
      match find_loop ps with
      | Some name => (name, None)
      | None => (""%string, Some "TrueRNG device not found"%string)
      end
  end.

End ports.

(** ** Command collect: counting the ones of a batch *)

Module collect.

Import Go.

(** [bits.OnesCount8(b)]. *)
Definition OnesCount8 (b : Z) : Z :=
  fold_right (fun i acc => (if Z.testbit b (Z.of_nat i) then 1 else 0) + acc)
    0 (seq 0 8).

(** [for i := 0; i < bytesUsed-1; i++ { total += bits.OnesCount8(buf[i]) }],
    with [k] iterations left. *)
Fixpoint count_loop (buf : list Z) (k : nat) (i total : Z) : Z :=
  match k with
  | O => total
  | S k' =>
      count_loop buf k' (i + 1)
        (int_wrap (total + OnesCount8 (nth (Z.to_nat i) buf 0)))
  end.

(** [func countOnes(buf []byte, bitCount int) int]; [None] is the run-time
    panic of a negative shift count. *)
Definition countOnes (buf : list Z) (bitCount : Z) : option Z :=
  if (bitCount <=? 0) || (len buf =? 0) then Some 0
  else
    let bytesUsed := Z.quot (int_wrap (bitCount + 7)) 8 in
    let bytesUsed := if bytesUsed >? len buf then len buf else bytesUsed in
    let total := count_loop buf (Z.to_nat (bytesUsed - 1)) 0 0 in
    if bytesUsed >? 0 then
      let usedBitsInLast := int_wrap (bitCount - int_wrap ((bytesUsed - 1) * 8)) in
      let usedBitsInLast :=
        if usedBitsInLast <=? 0 then 8 else usedBitsInLast in
      if 8 - usedBitsInLast <? 0 then None
      else
        let mask := to_byte (Z.shiftl 0xFF (8 - usedBitsInLast)) in
        let last := Z.land (nth (Z.to_nat (bytesUsed - 1)) buf 0) mask in
        Some (int_wrap (total + OnesCount8 last))
    else Some total.

(** The BitBabbler reader of [main]: one [ReadRandom] into a fresh buffer of
    [byteCount] bytes on the open session, then the trim of the last
    byte. *)
Definition bitbRead (d : bbusb.Device) (fuel : nat) (sess : bbusb.DeviceSession)
  (bitCount : Z) (w : bbusb.World) : Run bbusb.World Bits :=
  let byteCount := Z.quot (int_wrap (bitCount + 7)) 8 in
  if byteCount <? 0 then Panic w
  else
    match bbusb.ReadRandom d fuel sess (make byteCount) w with
    | Done (n, Some rerr, _) w1 => Done ([], Some rerr) w1
    | Done (n, None, buf) w1 =>
        let buf := if n <? len buf then slice buf 0 n else buf in
        let extra := Z.rem (8 - Z.rem bitCount 8) 8 in
        let buf :=
          if negb (extra =? 0) && (len buf >? 0)
          then mask_last buf (Z.shiftr 0xFF extra)
          else buf in
        Done (buf, None) w1
    | Panic w1 => Panic w1
    | Spin w1 => Spin w1
    end.

(** The bits of a byte, most significant first, and of a buffer. *)
Definition bits_msb (b : Z) : list bool :=
  map (fun i => Z.testbit b (7 - Z.of_nat i)) (seq 0 8).

Definition bitstring (buf : list Z) : list bool := flat_map bits_msb buf.

Definition count_true (l : list bool) : Z :=
  Z.of_nat (length (filter (fun b : bool => b) l)).

(** The number of set bits among the first [k] bits of a buffer, and in all
    the bytes of a buffer. *)
Definition ones_in_first (k : nat) (buf : list Z) : Z :=
  count_true (firstn k (bitstring buf)).

Definition sum_ones (l : list Z) : Z :=
  fold_right (fun b acc => OnesCount8 b + acc) 0 l.

End collect.

(** ** Package naming: the file name convention *)

Module naming.

Import Go.
Import String Ascii.

Definition Device : Type := string.

Definition DeviceTrueRNG : Device := "trng"%string.
Definition DeviceBitBabbler : Device := "bitb"%string.
Definition DevicePseudo : Device := "pseudo"%string.

(** The decimal digit [d] as a character. *)
Definition digit_char (d : Z) : ascii := ascii_of_nat (48 + Z.to_nat d).

(** The digits of a non-negative integer, most significant first, in front
    of [acc]; 20 rounds cover every 64-bit value. *)
Fixpoint utoa_loop (fuel : nat) (n : Z) (acc : string) : string :=
  match fuel with
  | O => acc
  | S fuel' =>
      let acc' := String (digit_char (n mod 10)) acc in
      if n / 10 =? 0 then acc' else utoa_loop fuel' (n / 10) acc'
  end.

(** [strconv.Itoa(n)], the [%d] of [fmt]. *)
Definition itoa (n : Z) : string :=
  if n <? 0 then String "-"%char (utoa_loop 20 (- n) ""%string)
  else utoa_loop 20 n ""%string.

Section Naming.

(** [strconv.Quote], the [%q] of [fmt], and [filepath.Join]. *)
Variable quote : string -> string.
Variable join : string -> string -> string.

(** [func (d Device) Validate() error]. *)
Definition Validate (d : Device) : option error :=
  if (d =? DeviceTrueRNG)%string || (d =? DeviceBitBabbler)%string
     || (d =? DevicePseudo)%string
  then None
  else Some ("invalid device: " ++ quote d
             ++ " (allowed: trng, bitb, pseudo)")%string.

(** [func BuildBaseName(now, device, bits, intervalSeconds)]; [stamp] is
    [now.Format("20060102T150405")]. *)
Definition BuildBaseName (stamp : string) (device : Device)
  (bits intervalSeconds : Z) : string * option error :=
  match Validate device with
  | Some err => (""%string, Some err)
  | None =>
      if bits <=? 0 then (""%string, Some "bits must be > 0"%string)
      else if intervalSeconds <=? 0
      then (""%string, Some "intervalSeconds must be > 0"%string)
      else ((stamp ++ "_" ++ device ++ "_s" ++ itoa bits ++ "_i"
             ++ itoa intervalSeconds)%string, None)
  end.

(** [func WithExt(base string, ext string) string]. *)
Definition WithExt (base ext : string) : string :=
  if (ext =? "")%string then base
  else
    let extClean :=
      match ext with
      | String "."%char rest => rest     (* strings.TrimPrefix(ext, ".") *)
      | _ => ext
      end in
    (base ++ "." ++ extClean)%string.

(** [func JoinDir(dir string, name string) string]. *)
Definition JoinDir (dir name : string) : string :=
  if (dir =? "")%string then name else join dir name.

(** [func BuildBinCSVNames(now, device, bits, intervalSeconds)]. *)
Definition BuildBinCSVNames (stamp : string) (device : Device)
  (bits intervalSeconds : Z) : string * string * option error :=
  match BuildBaseName stamp device bits intervalSeconds with
  | (_, Some err) => (""%string, ""%string, Some err)
  | (base, None) => (WithExt base ".bin"%string, WithExt base ".csv"%string, None)
  end.

(** [func BuildBinCSVPaths(dir, now, device, bits, intervalSeconds)]. *)
Definition BuildBinCSVPaths (dir stamp : string) (device : Device)
  (bits intervalSeconds : Z) : string * string * option error :=
  match BuildBinCSVNames stamp device bits intervalSeconds with
  | (_, _, Some err) => (""%string, ""%string, Some err)
  | (binName, csvName, None) =>
      (JoinDir dir binName, JoinDir dir csvName, None)
  end.

End Naming.

End naming.

(** ** Command filetoexcel: reading the collected files back *)

Module filetoexcel.

Import Go.
Import String Ascii.

(** [\d] of the regular expressions: an ASCII digit. *)
Definition is_digit (c : ascii) : bool :=
  (48 <=? nat_of_ascii c)%nat && (nat_of_ascii c <=? 57)%nat.

(** The longest run of digits at the front of a string: what a greedy
    [\d+] takes. *)
Fixpoint take_digits (s : string) : string :=
  match s with
  | String c rest =>
      if is_digit c then String c (take_digits rest) else EmptyString
  | EmptyString => EmptyString
  end.

Fixpoint drop_digits (s : string) : string :=
  match s with
  | String c rest => if is_digit c then drop_digits rest else s
  | EmptyString => EmptyString
  end.

(** The first submatch of the leftmost match of [_i(\d+)]. *)
Fixpoint match_i (s : string) : option string :=
  match s with
  | EmptyString => None
  | String c rest =>
      if (c =? "_")%char then
        match rest with
        | String "i"%char rest2 =>
            match take_digits rest2 with
            | EmptyString => match_i rest
            | ds => Some ds
            end
        | _ => match_i rest
        end
      else match_i rest
  end.

(** The first submatch of the leftmost match of [_s(\d+)_i]. *)
Fixpoint match_s (s : string) : option string :=
  match s with
  | EmptyString => None
  | String c rest =>
      if (c =? "_")%char then
        match rest with
        | String "s"%char rest2 =>
            match take_digits rest2, drop_digits rest2 with
            | String _ _ as ds, String "_"%char (String "i"%char _) => Some ds
            | _, _ => match_s rest
            end
        | _ => match_s rest
        end
      else match_s rest
  end.

(** Strings of digits, and strings without an underscore. *)
Fixpoint all_digits (s : string) : bool :=
  match s with
  | EmptyString => true
  | String c rest => is_digit c && all_digits rest
  end.

Fixpoint no_underscore (s : string) : bool :=
  match s with
  | EmptyString => true
  | String c rest => negb (c =? "_")%char && no_underscore rest
  end.

(** The value of a string of digits. *)
Fixpoint digits_value (s : string) (acc : Z) : Z :=
  match s with
  | EmptyString => acc
  | String c rest =>
      digits_value rest (10 * acc + (Z.of_nat (nat_of_ascii c) - 48))
  end.

Section Files.

(** [strconv.Quote] and [filepath.Base]. *)
Variable quote : string -> string.
Variable base : string -> string.

(** [strconv.Atoi] on a non-empty string of digits: the value, or the
    range error. *)
Definition Atoi (ds : string) : Z * option error :=
  let v := digits_value ds 0 in
  if v <? 2 ^ 63 then (v, None)
  else (2 ^ 63 - 1,
        Some ("strconv.Atoi: parsing " ++ quote ds
              ++ ": value out of range")%string).

(** [func findInterval(filePath string) (int, error)]. *)
Definition findInterval (filePath : string) : Z * option error :=
  match match_i filePath with
  | None =>
      (0, Some ("interval not found in file name: " ++ base filePath)%string)
  | Some ds =>
      match Atoi ds with
      | (_, Some err) => (0, Some err)
      | (val, None) => (val, None)
      end
  end.

(** [func findBitCount(filePath string) (int, error)]. *)
Definition findBitCount (filePath : string) : Z * option error :=
  match match_s filePath with
  | None =>
      (0, Some ("bit count not found in file name: " ++ base filePath)%string)
  | Some ds =>
      match Atoi ds with
      | (_, Some err) => (0, Some err)
      | (val, None) => (val, None)
      end
  end.

End Files.

(** [type DataRow struct]: the label and the ones count; the two computed
    fields are filled in later and are no part of the readers. *)
Record DataRow : Type := mkRow {
  Category : string;
  Ones : Z
}.

(** A file as [readBinFile] meets it: whether [os.Open] fails, and the
    bytes and the error of the i-th [reader.Read]. *)
Record File : Type := mkFile {
  open_err : option error;
  read_at : nat -> list Z * option error
}.

Definition EOF : error := "EOF"%string.

(** Reads issued and [f.Close()] calls. *)
Record World : Type := mkWorld {
  n_reads : nat;
  n_closed : nat
}.

(** The block loop of [readBinFile]. *)
Fixpoint read_blocks (F : File) (fuel : nat) (bytesPerBlock block : Z)
  (rows : list DataRow) (w : World) : Run World (list DataRow * option error) :=
  match fuel with
  | O => Spin w
  | S fuel' =>
      (* reader.Read(buf) places at most len(buf) bytes *)
      let buf := firstn (Z.to_nat bytesPerBlock) (fst (read_at F (n_reads w))) in
      let err := snd (read_at F (n_reads w)) in
      let n := len buf in
      let w1 := mkWorld (S (n_reads w)) (n_closed w) in
      if n =? 0 then Done (rows, None) w1
      else
        match err with
        | Some e =>
            if negb (e =? EOF)%string then Done ([], Some e) w1
            else
              let count := collect.count_loop buf (Z.to_nat n) 0 0 in
              let rows := rows ++ [mkRow (naming.itoa block) count] in
              if n <? bytesPerBlock then Done (rows, None) w1
              else read_blocks F fuel' bytesPerBlock (int_wrap (block + 1))
                     rows w1
        | None =>
            let count := collect.count_loop buf (Z.to_nat n) 0 0 in
            let rows := rows ++ [mkRow (naming.itoa block) count] in
            if n <? bytesPerBlock then Done (rows, None) w1
            else read_blocks F fuel' bytesPerBlock (int_wrap (block + 1))
                   rows w1
        end
  end.

(** [func readBinFile(filePath string, blockSize int) ([]DataRow, error)]. *)
Definition readBinFile (F : File) (fuel : nat) (blockSize : Z) (w : World)
  : Run World (list DataRow * option error) :=
  if negb (Z.rem blockSize 8 =? 0)
  then Done ([], Some "block size must be a multiple of 8 bits for .bin files"%string) w
  else
    let bytesPerBlock := Z.quot blockSize 8 in
    if bytesPerBlock <=? 0 then Done ([], Some "invalid block size"%string) w
    else
      match open_err F with
      | Some err => Done ([], Some err) w
      | None =>
          let closing w := mkWorld (n_reads w) (S (n_closed w)) in
          match read_blocks F fuel bytesPerBlock 1 [] w with
          | Done r w1 => Done r (closing w1)     (* defer f.Close() *)
          | Panic w1 => Panic (closing w1)
          | Spin w1 => Spin w1
          end
      end.

End filetoexcel.

(** ** Package bbusb: the MULTI_SZ registry value *)

Module multisz.

Import Go.

Section Parse.

(** [windows.UTF16ToString] on a slice without NUL. *)
Variable UTF16ToString : list Z -> String.string.

(** [for i, v := range buf] of [setupDiGetDeviceRegistryMultiSz]: [rest] is
    what is left of [buf] from index [i] on. *)
Fixpoint parse_loop (buf rest : list Z) (i start : Z)
  (out : list String.string) : list String.string :=
  match rest with
  | [] => out
  | v :: rest' =>
      if v =? 0 then
        if i =? start then out
        else parse_loop buf rest' (i + 1) (i + 1)
               (out ++ [UTF16ToString (slice buf start i)])
      else parse_loop buf rest' (i + 1) start out
  end.

(** The parse of the value read into [buf]. *)
Definition parse (buf : list Z) : list String.string :=
  parse_loop buf buf 0 0 [].

(** A list of strings as a MULTI_SZ value: each followed by a NUL, and a
    NUL at the end. *)
Definition encode (segs : list (list Z)) : list Z :=
  flat_map (fun s => s ++ [0]) segs ++ [0].

End Parse.

End multisz.

(** ** More simulated devices *)

Module Cases.

Import Go bbusb.

(** No BitBabbler on the bus. *)
Definition absent : Device :=
  mkDevice OpenNil None None [] Mock.ok Mock.ok (fun _ => Mock.idle).

(** An interface with a bulk IN endpoint but no bulk OUT endpoint. *)
Definition no_out : Device :=
  mkDevice OpenOk None None [mkEp true true 1 8 None] Mock.ok Mock.ok
    (fun _ => Mock.idle).

(** A source whose i-th draw is [i + 250] (so the seventh draw, 256,
    shows the conversion to a byte). *)
Definition counting : prng.Source :=
  prng.mkSource (fun i => Z.of_nat i + 250).

(** A file of two reads: a full block of two bytes, then one byte at the
    end of the file. *)
Definition two_blocks : filetoexcel.File :=
  filetoexcel.mkFile None
    (fun i => nth i [([0xFF; 0x0F], None); ([0x01], Some filetoexcel.EOF)]
                ([], Some filetoexcel.EOF)).

End Cases.

(** * Proofs *)

Section SliceFacts.

Import Go.

Lemma len_nonneg {A : Type} (l : list A) : 0 <= len l.
Proof. unfold len. lia. Qed.

Lemma len_app {A : Type} (l1 l2 : list A) : len (l1 ++ l2) = len l1 + len l2.
Proof. unfold len. rewrite length_app. lia. Qed.

Lemma length_copy_into (buf src : list Z) (at_ : Z) :
  0 <= at_ -> at_ + len src <= len buf ->
  length (copy_into buf at_ src) = length buf.
Proof.
  unfold copy_into, len. intros H0 H1.
  rewrite !length_app, length_firstn, length_skipn. lia.
Qed.

Lemma firstn_copy_into (buf src : list Z) (at_ : Z) :
  0 <= at_ -> at_ + len src <= len buf ->
  firstn (Z.to_nat (at_ + len src)) (copy_into buf at_ src)
  = firstn (Z.to_nat at_) buf ++ src.
Proof.
  unfold copy_into, len. intros H0 H1.
  rewrite app_assoc.
  rewrite firstn_app.
  assert (E : length (firstn (Z.to_nat at_) buf ++ src) = Z.to_nat (at_ + Z.of_nat (length src))).
  { rewrite length_app, length_firstn. lia. }
  rewrite <- E at 1. rewrite firstn_all.
  rewrite E, Nat.sub_diag. simpl. now rewrite app_nil_r.
Qed.

Lemma slice_skipn (data : list Z) (lo k : Z) :
  0 <= lo -> 0 <= k ->
  slice data lo (lo + k) = firstn (Z.to_nat k) (skipn (Z.to_nat lo) data).
Proof. intros. unfold slice. f_equal. lia. Qed.

End SliceFacts.

Section Strides.

Import Go.

Lemma strides_nil (f mp : nat) : Spec.strides f mp [] = [].
Proof. destruct f; reflexivity. Qed.

Lemma strides_fuel (mp : nat) :
  (0 < mp)%nat ->
  forall f l, (length l <= f)%nat ->
  Spec.strides f mp l = Spec.strides (length l) mp l.
Proof.
  intros Hmp f. induction f as [f IH] using lt_wf_ind. intros l Hl.
  destruct l as [|x l]; [apply strides_nil|].
  destruct f as [|f]; [simpl in Hl; lia|].
  cbn [Spec.strides length]. f_equal.
  assert (Hs : (length (skipn mp (x :: l)) <= length l)%nat).
  { rewrite length_skipn. cbn [length]. lia. }
  cbn [length] in Hl.
  rewrite (IH f) by lia.
  symmetry. apply IH; [lia | exact Hs].
Qed.

Lemma strides_step (mp : nat) (l : list Z) :
  (0 < mp)%nat -> l <> [] ->
  Spec.strides (length l) mp l
  = firstn mp l :: Spec.strides (length (skipn mp l)) mp (skipn mp l).
Proof.
  intros Hmp Hl. destruct l as [|x l]; [congruence|].
  cbn [Spec.strides length]. f_equal.
  apply strides_fuel; [exact Hmp|].
  rewrite length_skipn. cbn [length]. lia.
Qed.

End Strides.

Section Walk.

Import Go bbusb.

Variables (mp want : Z) (data : list Z).
Hypothesis Hmp : 2 < mp.

Lemma stripped_short (rest : list Z) :
  (length rest <= 2)%nat -> Spec.stripped mp rest = [].
Proof.
  intros H. unfold Spec.stripped.
  destruct rest as [|x rest]; [reflexivity|].
  rewrite strides_step by (try discriminate; lia).
  rewrite (skipn_all2 (n := Z.to_nat mp)) by lia.
  cbn [length Spec.strides map concat]. rewrite app_nil_r.
  apply skipn_all2. rewrite length_firstn. lia.
Qed.

Lemma stripped_step (rest : list Z) :
  rest <> [] ->
  Spec.stripped mp rest
  = skipn 2 (firstn (Z.to_nat mp) rest)
    ++ Spec.stripped mp (skipn (Z.to_nat mp) rest).
Proof.
  intros H. unfold Spec.stripped.
  rewrite strides_step by (try assumption; lia). reflexivity.
Qed.

Lemma walk_spec : forall fuel offset got buf,
  0 <= offset <= len data -> 0 <= got < want -> len buf = want ->
  len data - offset < Z.of_nat fuel ->
  exists got' buf',
    walk fuel mp want data offset got buf = WOk got' buf' /\
    len buf' = want /\
    got' = Z.min want
             (got + len (Spec.stripped mp (skipn (Z.to_nat offset) data))) /\
    firstn (Z.to_nat got') buf'
    = firstn (Z.to_nat got) buf
      ++ firstn (Z.to_nat (want - got))
           (Spec.stripped mp (skipn (Z.to_nat offset) data)).
Proof.
  induction fuel as [|fuel IH]; intros offset got buf Ho Hg Hb Hf; [lia|].
  cbn [walk].
  set (rest := skipn (Z.to_nat offset) data).
  assert (Hrest : len rest = len data - offset).
  { unfold rest, len. rewrite length_skipn. unfold len in *. lia. }
  destruct (offset <? len data) eqn:E1.
  2:{ apply Z.ltb_ge in E1.
      rewrite stripped_short by (unfold len in *; lia).
      exists got, buf. cbn. rewrite firstn_nil, app_nil_r.
      repeat split; trivial. unfold len; cbn. lia. }
  apply Z.ltb_lt in E1.
  destruct (len data - offset <=? 2) eqn:E2.
  { apply Z.leb_le in E2.
    rewrite stripped_short by (unfold len in *; lia).
    exists got, buf. cbn. rewrite firstn_nil, app_nil_r.
    repeat split; trivial. unfold len; cbn. lia. }
  apply Z.leb_gt in E2.
  set (take := if len data - offset >? mp then mp else len data - offset).
  assert (Htake : take = Z.min mp (len data - offset)).
  { unfold take. destruct (Z.gtb_spec (len data - offset) mp); lia. }
  set (usable := if take - 2 >? want - got then want - got else take - 2).
  assert (Husable : usable = Z.min (take - 2) (want - got)).
  { unfold usable. destruct (Z.gtb_spec (take - 2) (want - got)); lia. }
  assert (E3 : (usable <? 0) = false) by (apply Z.ltb_ge; lia).
  rewrite E3.
  set (body := skipn 2 (firstn (Z.to_nat mp) rest)).
  assert (Hbody : len body = take - 2).
  { unfold body, len. rewrite length_skipn, length_firstn.
    unfold len in *. lia. }
  assert (Hnext : skipn (Z.to_nat mp) rest = skipn (Z.to_nat (offset + take)) data).
  { unfold rest. rewrite skipn_skipn.
    destruct (Z.le_gt_cases mp (len data - offset)).
    - f_equal. lia.
    - rewrite !skipn_all2; trivial; unfold len in *; lia. }
  assert (Hstrip : Spec.stripped mp rest
                   = body ++ Spec.stripped mp (skipn (Z.to_nat (offset + take)) data)).
  { rewrite stripped_step, Hnext; [reflexivity|].
    intros C. rewrite C in Hrest. unfold len in *. cbn in Hrest. lia. }
  assert (Hsrc : slice data (offset + 2) (offset + 2 + usable)
                 = firstn (Z.to_nat usable) body).
  { rewrite slice_skipn by lia. unfold body, rest.
    rewrite skipn_firstn_comm, firstn_firstn, skipn_skipn.
    f_equal; [lia | f_equal; lia]. }
  assert (Hsrclen : len (firstn (Z.to_nat usable) body) = usable).
  { unfold len. rewrite length_firstn. unfold len in *. lia. }
  rewrite Hsrc.
  set (src := firstn (Z.to_nat usable) body) in *.
  assert (Hlen1 : len (copy_into buf got src) = want).
  { unfold len. rewrite length_copy_into; [exact Hb| lia | lia]. }
  assert (Hpre1 : firstn (Z.to_nat (got + usable)) (copy_into buf got src)
                  = firstn (Z.to_nat got) buf ++ src).
  { rewrite <- Hsrclen at 1. apply firstn_copy_into; lia. }
  fold rest. rewrite Hstrip.
  destruct (got + usable =? want) eqn:E4.
  - apply Z.eqb_eq in E4.
    exists (got + usable), (copy_into buf got src).
    repeat split; trivial.
    + rewrite len_app. pose proof (len_nonneg (Spec.stripped mp (skipn (Z.to_nat (offset + take)) data))). lia.
    + rewrite Hpre1. f_equal. rewrite firstn_app.
      replace (Z.to_nat (want - got) - length body)%nat with 0%nat
        by (unfold len in *; lia).
      cbn. rewrite app_nil_r. unfold src. f_equal. lia.
  - apply Z.eqb_neq in E4.
    assert (Hu : usable = take - 2) by lia.
    assert (Hsrcb : src = body).
    { unfold src. apply firstn_all2. unfold len in *. lia. }
    destruct (IH (offset + take) (got + usable) (copy_into buf got src))
      as (got' & buf' & Hw & Hl' & Hg' & Hp'); try lia.
    exists got', buf'. repeat split; trivial.
    + rewrite Hg', len_app. lia.
    + rewrite Hp', Hpre1, <- app_assoc. f_equal.
      rewrite firstn_app, Hsrcb.
      rewrite (firstn_all2 (n := Z.to_nat (want - got)))
        by (unfold len in *; lia).
      f_equal. f_equal. unfold len in *. lia.
Qed.

End Walk.

Section ReadLoop.

Import Go bbusb.

Variable d : Device.
Variables (mp want cap : Z).
Hypothesis Hmp : 2 < mp.

Lemma firstn_payload_app (got got1 : Z) (S P : list Z) :
  0 <= got <= want -> got1 = Z.min want (got + len S) ->
  firstn (Z.to_nat (want - got)) (S ++ P)
  = firstn (Z.to_nat (want - got)) S ++ firstn (Z.to_nat (want - got1)) P.
Proof.
  intros Hg H1. rewrite firstn_app. f_equal. f_equal. unfold len in *. lia.
Qed.

Lemma chunks_S (i k : nat) :
  Spec.chunks d cap i (S k)
  = rd_data (received d cap i) :: Spec.chunks d cap (S i) k.
Proof. reflexivity. Qed.

Lemma clean_S (i k : nat) :
  Spec.clean d i (S k)
  = match rd_err (dev_in d i) with None => true | Some _ => false end
    && Spec.clean d (S i) k.
Proof. reflexivity. Qed.

Lemma payload_cons (c : list Z) (cs : list (list Z)) :
  Spec.payload mp (c :: cs) = Spec.chunk_payload mp c ++ Spec.payload mp cs.
Proof. reflexivity. Qed.

(** One iteration of the outer loop on a chunk received without error. *)
Lemma read_step (f : nat) (got : Z) (buf data : list Z) (w1 : World) :
  0 <= got < want -> len buf = want ->
  exists got1 buf1,
    (if len data <=? 2 then read_loop d f mp want cap got buf w1
     else match walk (S (Z.to_nat (len data))) mp want data 0 got buf with
          | WOk got' buf' => read_loop d f mp want cap got' buf' w1
          | WPanic => Panic w1
          | WFuel => Spin w1
          end)
    = read_loop d f mp want cap got1 buf1 w1 /\
    len buf1 = want /\
    got1 = Z.min want (got + len (Spec.chunk_payload mp data)) /\
    firstn (Z.to_nat got1) buf1
    = firstn (Z.to_nat got) buf
      ++ firstn (Z.to_nat (want - got)) (Spec.chunk_payload mp data).
Proof.
  intros Hg Hb. unfold Spec.chunk_payload.
  destruct (len data <=? 2) eqn:E.
  - exists got, buf. rewrite firstn_nil, app_nil_r.
    repeat split; trivial. unfold len; cbn. lia.
  - destruct (walk_spec mp want data Hmp (S (Z.to_nat (len data))) 0 got buf)
      as (got1 & buf1 & Hw & Hl & Hg1 & Hp);
      try lia; try (pose proof (len_nonneg data); lia).
    exists got1, buf1. rewrite Hw. cbn [Z.to_nat skipn] in *.
    repeat split; trivial.
Qed.

Lemma read_loop_spec : forall fuel got buf w,
  0 <= got <= want -> len buf = want ->
  match read_loop d fuel mp want cap got buf w with
  | Done (got', None, buf') w' =>
      exists k, (k <= fuel)%nat /\ n_in w' = (n_in w + k)%nat /\
        Spec.clean d (n_in w) k = true /\
        got' = want /\ len buf' = want /\
        firstn (Z.to_nat want) buf'
        = firstn (Z.to_nat got) buf
          ++ firstn (Z.to_nat (want - got))
               (Spec.payload mp (Spec.chunks d cap (n_in w) k))
  | Done (got', Some e, buf') w' =>
      exists k, (k < fuel)%nat /\ n_in w' = S (n_in w + k) /\
        Spec.clean d (n_in w) k = true /\
        rd_err (dev_in d (n_in w + k)) = Some e /\
        got' = got + len (Spec.payload mp (Spec.chunks d cap (n_in w) k)) /\
        got' < want /\ len buf' = want /\
        firstn (Z.to_nat got') buf'
        = firstn (Z.to_nat got) buf
          ++ Spec.payload mp (Spec.chunks d cap (n_in w) k)
  | Panic _ => False
  | Spin w' =>
      n_in w' = (n_in w + fuel)%nat /\
      Spec.clean d (n_in w) fuel = true /\
      got + len (Spec.payload mp (Spec.chunks d cap (n_in w) fuel)) < want
  end.
Proof.
  induction fuel as [|f IH]; intros got buf w Hg Hb.
  - cbn [read_loop]. destruct (got <? want) eqn:E.
    + apply Z.ltb_lt in E. cbn. repeat split; trivial; lia.
    + apply Z.ltb_ge in E. exists 0%nat. cbn.
      rewrite firstn_nil, app_nil_r. replace want with got by lia.
      repeat split; trivial; lia.
  - cbn [read_loop]. destruct (got <? want) eqn:E.
    2:{ apply Z.ltb_ge in E. exists 0%nat. cbn.
        rewrite firstn_nil, app_nil_r. replace want with got by lia.
        repeat split; trivial; lia. }
    apply Z.ltb_lt in E.
    unfold inRead. cbn [rd_err rd_data received].
    set (w1 := mkWorld _ _ _ _).
    destruct (rd_err (dev_in d (n_in w))) as [e|] eqn:Ee.
    { exists 0%nat. cbn. rewrite Nat.add_0_r, app_nil_r.
      repeat split; trivial; lia. }
    set (data := firstn (Z.to_nat cap) (rd_data (dev_in d (n_in w)))).
    destruct (read_step f got buf data w1) as (got1 & buf1 & Hr & Hl & Hg1 & Hp);
      [lia | exact Hb |].
    rewrite Hr. clear Hr.
    pose proof (len_nonneg (Spec.chunk_payload mp data)) as Hnn.
    specialize (IH got1 buf1 w1). 
    assert (Hin : n_in w1 = S (n_in w)) by reflexivity.
    destruct (read_loop d f mp want cap got1 buf1 w1) as [[[got' [e|]] buf'] w'|w'|w'].
    + destruct IH as (k & Hk & Hn & Hc & He & Hg' & Hlt & Hl' & Hp'); [lia|exact Hl|].
      rewrite Hin in *.
      assert (Hg1' : got1 = got + len (Spec.chunk_payload mp data)).
      { pose proof (len_nonneg (Spec.payload mp (Spec.chunks d cap (S (n_in w)) k))). lia. }
      exists (S k). rewrite chunks_S, clean_S, Ee, payload_cons.
      cbn [received rd_data andb]. fold data.
      repeat split; trivial; try lia.
      * replace (n_in w + S k)%nat with (S (n_in w) + k)%nat by lia. exact He.
      * rewrite len_app. lia.
      * rewrite Hp', Hp, <- app_assoc. f_equal. f_equal.
        apply firstn_all2. unfold len in *. lia.
    + destruct IH as (k & Hk & Hn & Hc & Hg' & Hl' & Hp'); [lia|exact Hl|].
      rewrite Hin in *.
      exists (S k). rewrite chunks_S, clean_S, Ee, payload_cons.
      cbn [received rd_data andb]. fold data.
      repeat split; trivial; try lia.
      rewrite Hp'.
      rewrite (firstn_payload_app got got1) by (trivial; lia).
      rewrite app_assoc. f_equal. exact Hp.
    + apply IH; [lia | exact Hl].
    + destruct IH as (Hn & Hc & Hlt); [lia|exact Hl|].
      rewrite Hin in *.
      rewrite chunks_S, clean_S, Ee, payload_cons.
      cbn [received rd_data andb]. fold data.
      pose proof (len_nonneg (Spec.payload mp (Spec.chunks d cap (S (n_in w)) f))).
      repeat split; trivial; try lia.
      rewrite len_app. lia.
Qed.

End ReadLoop.

Section Extraction.

Import Go bbusb.

Variable d : Device.

Lemma chunks_app (cap : Z) (i a b : nat) :
  Spec.chunks d cap i (a + b)
  = Spec.chunks d cap i a ++ Spec.chunks d cap (i + a) b.
Proof. unfold Spec.chunks. now rewrite seq_app, map_app. Qed.

Lemma payload_app (mp : Z) (c1 c2 : list (list Z)) :
  Spec.payload mp (c1 ++ c2) = Spec.payload mp c1 ++ Spec.payload mp c2.
Proof. unfold Spec.payload. now rewrite map_app, concat_app. Qed.

Lemma payload_mono (mp cap : Z) (i k k' : nat) :
  (k <= k')%nat ->
  exists tl, Spec.payload mp (Spec.chunks d cap i k')
             = Spec.payload mp (Spec.chunks d cap i k) ++ tl.
Proof.
  intros H. replace k' with (k + (k' - k))%nat by lia.
  rewrite chunks_app, payload_app. eauto.
Qed.

Lemma clean_app (i a b : nat) :
  Spec.clean d i (a + b) = Spec.clean d i a && Spec.clean d (i + a) b.
Proof. unfold Spec.clean. now rewrite seq_app, forallb_app. Qed.

Lemma clean_before_error (i k k' : nat) (e : error) :
  Spec.clean d i k = true -> rd_err (dev_in d (i + k')) = Some e ->
  (k <= k')%nat.
Proof.
  intros Hc He. destruct (Nat.le_gt_cases k k') as [|Hlt]; trivial.
  replace k with (k' + (1 + (k - k' - 1)))%nat in Hc by lia.
  rewrite clean_app, (clean_app _ 1) in Hc. cbn in Hc.
  rewrite He in Hc. cbn in Hc. now rewrite andb_false_r in Hc.
Qed.

Lemma firstn_common_prefix (n : nat) (l1 l2 : list Z) (k k' : nat) mp cap i :
  l1 = Spec.payload mp (Spec.chunks d cap i k) ->
  l2 = Spec.payload mp (Spec.chunks d cap i k') ->
  (n <= length l1)%nat -> (n <= length l2)%nat ->
  firstn n l1 = firstn n l2.
Proof.
  intros -> -> H1 H2.
  destruct (Nat.le_ge_cases k k') as [H|H];
    destruct (payload_mono mp cap i _ _ H) as [tl Htl]; rewrite Htl.
  - rewrite firstn_app. replace (n - _)%nat with 0%nat by lia.
    cbn. now rewrite app_nil_r.
  - rewrite firstn_app. replace (n - _)%nat with 0%nat by lia.
    cbn. now rewrite app_nil_r.
Qed.

(** C2: [ReadRandom] on a buffer of n >= 1 bytes, whatever chunks the
    transport hands back.  With no error it returns exactly n bytes, the
    first n non-header bytes of the chunks it consumed, where the non-header
    bytes of a chunk are those left when it is walked in strides of the
    packet size and two bytes are dropped from each stride (none for a chunk
    of at most two bytes).  It returns fewer than n bytes only together with
    the error of a bulk transfer (the command write or a read).  It is still
    reading only while the error-free chunks received so far carry fewer
    than n non-header bytes; so as soon as k error-free reads carry n of
    them, the call returns exactly the first n. *)
Theorem ReadRandom_extracts_payload (s : DeviceSession) (fuel : nat)
  (buf : list Z) (w : World) :
  2 < s_maxPacket s -> 1 <= len buf ->
  let n := len buf in
  let mp := s_maxPacket s in
  let cap := roundUpToMaxPacket n mp + mp in
  let payload k := Spec.payload mp (Spec.chunks d cap (n_in w) k) in
  match ReadRandom d fuel s buf w with
  | Done (got, None, out) w' =>
      got = n /\ len out = n /\
      exists k, n_in w' = (n_in w + k)%nat /\
        Spec.clean d (n_in w) k = true /\
        out = firstn (Z.to_nat n) (payload k)
  | Done (got, Some e, out) w' =>
      got < n /\
      ((dev_out d (n_out w) = Some e /\ got = 0 /\ n_in w' = n_in w) \/
       exists k, Spec.clean d (n_in w) k = true /\
         rd_err (dev_in d (n_in w + k)%nat) = Some e /\
         got = len (payload k) /\
         firstn (Z.to_nat got) out = payload k)
  | Panic _ => False
  | Spin _ =>
      Spec.clean d (n_in w) fuel = true /\ len (payload fuel) < n
  end
  /\
  (forall k, (k <= fuel)%nat -> dev_out d (n_out w) = None ->
     Spec.clean d (n_in w) k = true -> n <= len (payload k) ->
     exists w', ReadRandom d fuel s buf w
                = Done (n, None, firstn (Z.to_nat n) (payload k)) w').
Proof.
  intros Hmp Hn n mp cap payload.
  match goal with |- ?A /\ _ => assert (Main : A) end.
  { unfold ReadRandom, payload. fold n.
    replace (n =? 0) with false by (symmetry; apply Z.eqb_neq; lia).
    unfold outWrite. fold mp. fold cap.
    destruct (dev_out d (n_out w)) as [e|] eqn:Ew.
    { split; [lia|]. left. repeat split; trivial. }
    set (w1 := mkWorld _ _ _ _).
    pose proof (read_loop_spec d mp n cap Hmp fuel 0 buf w1) as H.
    change (n_in w1) with (n_in w) in H.
    destruct (read_loop d fuel mp n cap 0 buf w1) as [[[got [e|]] out] w'|w'|w'].
    - destruct H as (k & Hk & Hin & Hc & He & Hg & Hlt & Hl & Hp); [lia|reflexivity|].
      split; [lia|]. right. exists k. cbn in Hp. repeat split; trivial.
    - destruct H as (k & Hk & Hin & Hc & Hg & Hl & Hp); [lia|reflexivity|].
      repeat split; trivial. exists k. repeat split; trivial.
      cbn in Hp. rewrite Z.sub_0_r in Hp. rewrite <- Hp.
      symmetry. apply firstn_all2. unfold len in *. lia.
    - apply H; [lia|reflexivity].
    - destruct H as (Hin & Hc & Hlt); [lia|reflexivity|]. split; trivial. }
  split; [exact Main|].
  intros k Hk Hw Hc Hlen. unfold payload in *.
  destruct (ReadRandom d fuel s buf w) as [[[got [e|]] out] w'|w'|w'].
  - destruct Main as (Hlt & [(Hw' & _)|(k' & Hc' & He & Hg & Hp)]); [congruence|].
    pose proof (clean_before_error _ _ _ _ Hc He) as Hle.
    destruct (payload_mono mp cap (n_in w) _ _ Hle) as [tl Htl].
    rewrite Htl, len_app in Hg. pose proof (len_nonneg tl). lia.
  - destruct Main as (-> & Hlo & k' & Hin & Hc' & ->). exists w'.
    do 2 f_equal.
    apply (firstn_common_prefix (Z.to_nat n) _ _ k' k mp cap (n_in w));
      trivial.
    + unfold n, len in *. rewrite length_firstn in Hlo.
      clear - Hlo. rewrite Nat2Z.id in *. lia.
    + unfold n, len in *. lia.
  - contradiction.
  - destruct Main as (Hc' & Hlt).
    destruct (payload_mono mp cap (n_in w) _ _ Hk) as [tl Htl].
    rewrite Htl, len_app in Hlt. pose proof (len_nonneg tl). lia.
Qed.

(** C10: on an empty buffer [ReadRandom] returns (0, nil) at once; no
    command is written, no transfer is made, and the world (counters and
    log) is the one it was called in. *)
Theorem ReadRandom_empty_buffer (s : DeviceSession) (fuel : nat) (w : World) :
  ReadRandom d fuel s [] w = Done (0, None, []) w.
Proof. reflexivity. Qed.

End Extraction.

(** A worked instance: packet size 8, a 10-byte read, chunks of 16, 2 and
    6 bytes. *)
Lemma ReadRandom_extracts_payload_witness :
  2 < bbusb.s_maxPacket (Mock.session 8) /\
  1 <= Go.len (Go.make 10) /\
  bbusb.ReadRandom (Mock.device 8 Mock.ok Mock.ok Mock.chunked) 5
    (Mock.session 8) (Go.make 10) bbusb.world0
  = Go.Done (10, None, [1; 2; 3; 4; 5; 6; 7; 8; 9; 10])
      (bbusb.mkWorld 0 1 1
         [bbusb.EvBulkOut [0x20; 9; 0; 0x87] None;
          bbusb.EvBulkIn (nth 0 Mock.chunked Mock.idle)]).
Proof.
  set (d := Mock.device 8 Mock.ok Mock.ok Mock.chunked).
  set (s := Mock.session 8). set (buf := Go.make 10). set (w := bbusb.world0).
  assert (H1 : 2 < bbusb.s_maxPacket s) by (cbn; lia).
  assert (H2 : 1 <= Go.len buf) by (vm_compute; discriminate).
  split; [exact H1|]. split; [exact H2|].
  destruct (ReadRandom_extracts_payload d s 5 buf w H1 H2) as [_ H].
  assert (K1 : (1 <= 5)%nat) by (repeat constructor).
  assert (K2 : bbusb.dev_out d (bbusb.n_out w) = None) by reflexivity.
  assert (K3 : Spec.clean d (bbusb.n_in w) 1 = true) by reflexivity.
  assert (K4 : Go.len buf
               <= Go.len (Spec.payload (bbusb.s_maxPacket s)
                    (Spec.chunks d
                       (bbusb.roundUpToMaxPacket (Go.len buf) (bbusb.s_maxPacket s)
                        + bbusb.s_maxPacket s) (bbusb.n_in w) 1)))
    by (vm_compute; discriminate).
  destruct (H 1%nat K1 K2 K3 K4) as [w' Hw'].
  rewrite Hw'. vm_compute in Hw'. vm_compute.
  congruence.
Defined.

Section BitTrim.

Import Go.

Lemma length_mask_last (buf : list Z) (m : Z) :
  length (mask_last buf m) = length buf.
Proof.
  unfold mask_last. rewrite <- (length_rev buf).
  destruct (rev buf) as [|x r]; [reflexivity|].
  rewrite length_app, length_rev. cbn. lia.
Qed.

Lemma last_mask_last (buf : list Z) (m : Z) :
  buf <> [] -> last_byte (mask_last buf m) = Z.land (last_byte buf) m.
Proof.
  intros H. unfold mask_last, last_byte.
  rewrite <- (rev_involutive buf) at 2.
  destruct (rev buf) as [|x r] eqn:E.
  - apply (f_equal (@rev Z)) in E. rewrite rev_involutive in E. contradiction.
  - cbn [rev]. now rewrite !last_last.
Qed.

(** ceil(bits/8), the way all three sources compute it. *)
Lemma byteCount_ceil (bits : Z) :
  0 < bits <= 2 ^ 63 - 8 ->
  let k := Z.quot (int_wrap (bits + 7)) 8 in
  8 * (k - 1) < bits <= 8 * k.
Proof.
  intros H k. unfold k, int_wrap.
  replace ((bits + 7 + 2 ^ 63) mod 2 ^ 64 - 2 ^ 63) with (bits + 7).
  - rewrite Z.quot_div_nonneg by lia.
    pose proof (Z.div_mod (bits + 7) 8 ltac:(lia)).
    pose proof (Z.mod_pos_bound (bits + 7) 8 ltac:(lia)). lia.
  - rewrite Z.mod_small; lia.
Qed.

(** [buf &= byte(0xFF << extraBits)] clears the low [extraBits] bits. *)
Lemma high_mask_clears_low (x e : Z) :
  0 < e < 8 ->
  (Z.land x (to_byte (Z.shiftl 0xFF e))) mod 2 ^ e = 0.
Proof.
  intros H. rewrite <- Z.land_ones by lia. rewrite <- Z.land_assoc.
  replace (Z.land (to_byte (Z.shiftl 255 e)) (Z.ones e)) with 0.
  - apply Z.land_0_r.
  - assert (C : e = 1 \/ e = 2 \/ e = 3 \/ e = 4 \/ e = 5 \/ e = 6 \/ e = 7) by lia.
    destruct C as [->|[->|[->|[->|[->|[->| ->]]]]]]; reflexivity.
Qed.

(** [buf &= 0xFF >> excess] clears the high [excess] bits and keeps the low
    ones. *)
Lemma low_mask_keeps_low (x e : Z) :
  0 < e < 8 -> Z.land x (Z.shiftr 0xFF e) = x mod 2 ^ (8 - e).
Proof.
  intros H. rewrite <- Z.land_ones by lia. f_equal.
  assert (C : e = 1 \/ e = 2 \/ e = 3 \/ e = 4 \/ e = 5 \/ e = 6 \/ e = 7) by lia.
  destruct C as [->|[->|[->|[->|[->|[->| ->]]]]]]; reflexivity.
Qed.

Lemma extraBits_range (bits : Z) :
  0 < bits -> Z.rem bits 8 <> 0 ->
  Z.rem (8 - Z.rem bits 8) 8 = 8 - bits mod 8 /\ 0 < 8 - bits mod 8 < 8.
Proof.
  intros H H8.
  assert (E : Z.rem bits 8 = bits mod 8) by (apply Z.rem_mod_nonneg; lia).
  rewrite E in *.
  pose proof (Z.mod_pos_bound bits 8 ltac:(lia)).
  rewrite Z.rem_mod_nonneg by lia. rewrite Z.mod_small by lia. lia.
Qed.

End BitTrim.

Section ReadBitsContract.

Import Go.

Lemma trim_masks_high_bits (bits : Z) (buf : list Z) :
  0 < bits -> bits mod 8 <> 0 -> buf <> [] ->
  last_byte (bbusb.trim_bits bits buf) = last_byte buf mod 2 ^ (bits mod 8).
Proof.
  intros Hb H8 Hne. unfold bbusb.trim_bits.
  assert (E : Z.rem bits 8 = bits mod 8) by (apply Z.rem_mod_nonneg; lia).
  pose proof (Z.mod_pos_bound bits 8 ltac:(lia)).
  rewrite E.
  replace (bits mod 8 =? 0) with false by (symmetry; apply Z.eqb_neq; lia).
  replace (len buf >? 0) with true.
  - cbn [negb andb]. rewrite last_mask_last by assumption.
    rewrite low_mask_keeps_low by lia. f_equal. f_equal. lia.
  - symmetry. apply Z.gtb_lt. destruct buf; [contradiction|].
    unfold len. cbn [length]. lia.
Qed.

Lemma length_crandRead (E : pseudorng.Entropy) (i : nat) (n : Z) :
  length (pseudorng.crandRead E i n) = Z.to_nat n.
Proof. unfold pseudorng.crandRead. now rewrite length_map, length_seq. Qed.

(** The zero-padding contract on a returned slice. *)
Lemma padded_after_high_mask (bits : Z) (buf : list Z) :
  0 < bits <= 2 ^ 63 - 8 ->
  len buf = Z.quot (int_wrap (bits + 7)) 8 ->
  let extraBits := Z.rem (8 - Z.rem bits 8) 8 in
  let out := if negb (extraBits =? 0)
             then mask_last buf (to_byte (Z.shiftl 0xFF extraBits))
             else buf in
  8 * (len out - 1) < bits <= 8 * len out /\
  (bits mod 8 <> 0 -> last_byte out mod 2 ^ (8 - bits mod 8) = 0).
Proof.
  intros Hb Hl extraBits out.
  pose proof (byteCount_ceil bits Hb) as Hc. cbv zeta in Hc. rewrite <- Hl in Hc.
  assert (Hlo : len out = len buf).
  { unfold out. destruct (negb (extraBits =? 0)); trivial.
    unfold len. now rewrite length_mask_last. }
  split; [rewrite Hlo; exact Hc|].
  intros H8.
  assert (Hr : Z.rem bits 8 <> 0) by (rewrite Z.rem_mod_nonneg; lia).
  destruct (extraBits_range bits ltac:(lia) Hr) as [He Hrange].
  fold extraBits in He. unfold out.
  replace (extraBits =? 0) with false by (symmetry; apply Z.eqb_neq; lia).
  cbn [negb]. rewrite last_mask_last.
  - rewrite He. apply high_mask_clears_low. exact Hrange.
  - intros ->. unfold len in Hc. cbn in Hc. lia.
Qed.

(** pseudorng.ReadBits honours the contract. *)
Lemma pseudorng_ReadBits_contract (E : pseudorng.Entropy) (bitCount : Z)
  (w : pseudorng.World) :
  0 < bitCount <= 2 ^ 63 - 8 ->
  match pseudorng.ReadBits E bitCount w with
  | Done (buf, None) _ =>
      8 * (len buf - 1) < bitCount <= 8 * len buf /\
      (bitCount mod 8 <> 0 -> last_byte buf mod 2 ^ (8 - bitCount mod 8) = 0)
  | Done (_, Some e) _ => pseudorng.crand_err E w = Some e
  | Panic _ | Spin _ => False
  end.
Proof.
  intros Hb. unfold pseudorng.ReadBits.
  replace (bitCount <=? 0) with false by (symmetry; apply Z.leb_gt; lia).
  pose proof (byteCount_ceil bitCount Hb) as Hc. cbv zeta in Hc.
  replace (Z.quot (int_wrap (bitCount + 7)) 8 <? 0) with false
    by (symmetry; apply Z.ltb_ge; lia).
  destruct (pseudorng.crand_err E w) as [e|]; [reflexivity|].
  apply padded_after_high_mask; [exact Hb|].
  unfold len. rewrite length_crandRead. lia.
Qed.

Section Serial.

Variable P : truerng.Serial.

Lemma readBytes_loop_length : forall fuel blockSize total buf w,
  0 <= total <= blockSize -> len buf = blockSize ->
  match truerng.readBytes_loop P fuel blockSize total buf w with
  | Done (out, None) _ => len out = blockSize
  | Done (out, Some _) _ => out = []
  | Panic _ => False
  | Spin _ => True
  end.
Proof.
  induction fuel as [|f IH]; intros blockSize total buf w Ht Hl;
    cbn [truerng.readBytes_loop];
    destruct (total <? blockSize) eqn:E; trivial.
  apply Z.ltb_lt in E.
  destruct (truerng.ser_late P (truerng.n_clock w)); [reflexivity|].
  destruct (truerng.ser_err P (truerng.n_read w)); [reflexivity|].
  set (data := firstn _ _).
  assert (Hd : len data <= blockSize - total).
  { unfold data, len. rewrite length_firstn. lia. }
  pose proof (len_nonneg data).
  apply IH; [lia|].
  unfold len. rewrite length_copy_into; [exact Hl|lia|lia].
Qed.

Lemma ReadBytes_length (fuel : nat) (blockSize : Z) (w : truerng.World) :
  match truerng.ReadBytes P fuel blockSize w with
  | Done (out, None) _ => len out = blockSize
  | Done (out, Some _) _ => out = []
  | Panic _ => False
  | Spin _ => True
  end.
Proof.
  unfold truerng.ReadBytes.
  destruct (blockSize <=? 0) eqn:E; [reflexivity|]. apply Z.leb_gt in E.
  destruct (truerng.find_port P); [reflexivity|].
  destruct (truerng.open_port P); [reflexivity|].
  set (w2 := truerng.mkWorld _ _ _ _ _).
  pose proof (readBytes_loop_length fuel blockSize 0 (make blockSize) w2) as H.
  destruct (truerng.readBytes_loop P fuel blockSize 0 (make blockSize) w2)
    as [[out [e|]] w3|w3|w3]; trivial; apply H; try lia;
    unfold len, make; rewrite repeat_length; lia.
Qed.

(** truerng.ReadBits honours the contract. *)
Lemma truerng_ReadBits_contract (fuel : nat) (bitCount : Z)
  (w : truerng.World) :
  0 < bitCount <= 2 ^ 63 - 8 ->
  match truerng.ReadBits P fuel bitCount w with
  | Done (buf, None) _ =>
      8 * (len buf - 1) < bitCount <= 8 * len buf /\
      (bitCount mod 8 <> 0 -> last_byte buf mod 2 ^ (8 - bitCount mod 8) = 0)
  | Done (_, Some e) _ => True
  | Panic _ => False
  | Spin _ => True
  end.
Proof.
  intros Hb. unfold truerng.ReadBits.
  replace (bitCount <=? 0) with false by (symmetry; apply Z.leb_gt; lia).
  pose proof (ReadBytes_length fuel (Z.quot (int_wrap (bitCount + 7)) 8) w) as H.
  destruct (truerng.ReadBytes P fuel (Z.quot (int_wrap (bitCount + 7)) 8) w)
    as [[out [e|]] w3|w3|w3]; trivial.
  apply padded_after_high_mask; assumption.
Qed.

End Serial.

End ReadBitsContract.

(** C7: with [bits <= 0] every [ReadBits] fails with its argument error and
    the world it was called in is returned untouched: no entropy read, no
    port enumerated or opened, no device opened and no transfer issued. *)
Theorem ReadBits_rejects_nonpositive (E : pseudorng.Entropy)
  (P : truerng.Serial) (d : bbusb.Device) (fuel : nat)
  (bits bitrate latencyMs : Z)
  (w1 : pseudorng.World) (w2 : truerng.World) (w3 : bbusb.World) :
  bits <= 0 ->
  pseudorng.ReadBits E bits w1
  = Go.Done ([], Some "bitCount must be positive"%string) w1 /\
  truerng.ReadBits P fuel bits w2
  = Go.Done ([], Some "bitCount must be positive"%string) w2 /\
  bbusb.ReadBitsOnce d fuel bits bitrate latencyMs w3
  = Go.Done ([], Some "bits must be > 0"%string) w3.
Proof.
  intros H. apply Z.leb_le in H.
  unfold pseudorng.ReadBits, truerng.ReadBits, bbusb.ReadBitsOnce.
  rewrite H. repeat split.
Qed.

Lemma ReadBits_rejects_nonpositive_witness :
  -3 <= 0 /\
  pseudorng.ReadBits Mock.entropy (-3) 0%nat
  = Go.Done ([], Some "bitCount must be positive"%string) 0%nat /\
  truerng.ReadBits Mock.serial 1 (-3) truerng.world0
  = Go.Done ([], Some "bitCount must be positive"%string) truerng.world0 /\
  bbusb.ReadBitsOnce Mock.ones_device 1 (-3) 0 0 bbusb.world0
  = Go.Done ([], Some "bits must be > 0"%string) bbusb.world0.
Proof.
  assert (H : -3 <= 0) by lia.
  split; [exact H|].
  exact (ReadBits_rejects_nonpositive Mock.entropy Mock.serial
           Mock.ones_device 1 (-3) 0 0 0%nat truerng.world0 bbusb.world0 H).
Defined.

(** C1 at bits = 4 on a device whose payload byte is 0xFF:
    [bbusb.ReadBitsOnce] returns one byte, 0x0F.  The four high bits are the
    ones cleared; the low four bits, which the contract wants zero, are all
    set.  On the same input the software and the serial source return
    0xF0. *)
Theorem ReadBitsOnce_clears_the_high_bits :
  (exists w', bbusb.ReadBitsOnce Mock.ones_device 1 4 0 0 bbusb.world0
              = Go.Done ([0x0F], None) w') /\
  Go.last_byte [0x0F] mod 2 ^ (8 - 4 mod 8) = 15 /\
  pseudorng.ReadBits Mock.entropy 4 0%nat = Go.Done ([0xF0], None) 1%nat /\
  (exists w', truerng.ReadBits Mock.serial 1 4 truerng.world0
              = Go.Done ([0xF0], None) w').
Proof.
  repeat split.
  - eexists. vm_compute. reflexivity.
  - eexists. vm_compute. reflexivity.
Qed.

Section CloseFacts.

Import Go bbusb.

(** What one [Close] of session [s] releases, in order. *)
Lemma log_Close (s : DeviceSession) (w : World) :
  Close (Some s) w
  = (tt, mkWorld (n_ctl w) (n_out w) (n_in w)
           (log w
            ++ (if s_intf s then [EvRelease Interface] else [])
            ++ (if s_cfg s then [EvRelease Config] else [])
            ++ (if s_dev s then [EvRelease DeviceHandle] else [])
            ++ (if s_ctx s then [EvRelease Context] else []))).
Proof.
  destruct w as [a b c l].
  unfold Close, bind, release, emit, ret.
  destruct (s_intf s), (s_cfg s), (s_dev s), (s_ctx s); cbn;
    rewrite <- ?app_assoc, ?app_nil_r; reflexivity.
Qed.


End CloseFacts.


Section OpenFacts.

Import Go bbusb.

Variable d : Device.

(** The straight-line code of [OpenBitBabbler] after the session is built
    is the specification's sequence run position by position. *)
Lemma initMPSSE_is_init_sequence (s : DeviceSession) (bitrate latencyMs : Z)
  (w : World) :
  initMPSSE d s bitrate latencyMs w
  = Spec.run_sequence s (Spec.init_sequence d bitrate latencyMs) w.
Proof.
  unfold initMPSSE, Spec.init_sequence.
  cbn [Spec.run_sequence].
  unfold guard, fail, Spec.set_mpsse_mode, Spec.sync_check, Spec.program,
    Spec.sync_attempt, syncPair.
  unfold bind, ret.
  repeat first
    [ progress cbn beta iota delta [negb]
    | match goal with
      | |- context [let (_, _) := ?m ?w in _] =>
          let x := fresh "x" in
          destruct (m w) as [x ?]; try destruct x
      end ];
    reflexivity.
Qed.

(** *** Actions that leave the resources alone *)

Lemma releases_app (l1 l2 : list Event) :
  Spec.releases (l1 ++ l2) = Spec.releases l1 ++ Spec.releases l2.
Proof. apply flat_map_app. Qed.

Lemma acquires_app (l1 l2 : list Event) :
  Spec.acquires (l1 ++ l2) = Spec.acquires l1 ++ Spec.acquires l2.
Proof. apply flat_map_app. Qed.

Lemma quiet_ret {A : Type} (a : A) : Spec.quiet (ret a).
Proof. intros w. split; reflexivity. Qed.

Lemma quiet_bind {A B : Type} (m : M A) (k : A -> M B) :
  Spec.quiet m -> (forall a, Spec.quiet (k a)) -> Spec.quiet (bind m k).
Proof.
  intros Hm Hk w. unfold bind. specialize (Hm w).
  destruct (m w) as [a w1]. cbn [snd] in Hm.
  destruct (Hk a w1) as [H1 H2]. destruct Hm as [H3 H4].
  split; congruence.
Qed.

Lemma quiet_control (req value index : Z) :
  Spec.quiet (control d req value index).
Proof.
  intros w. cbn. rewrite releases_app, acquires_app. cbn.
  now rewrite !app_nil_r.
Qed.

Lemma quiet_outWrite (data : list Z) : Spec.quiet (outWrite d data).
Proof.
  intros w. cbn. rewrite releases_app, acquires_app. cbn.
  now rewrite !app_nil_r.
Qed.

Lemma quiet_inRead (cap : Z) : Spec.quiet (inRead d cap).
Proof.
  intros w. cbn. rewrite releases_app, acquires_app. cbn.
  now rewrite !app_nil_r.
Qed.

Lemma quiet_sleep (ms : Z) : Spec.quiet (sleep ms).
Proof.
  intros w. cbn. rewrite releases_app, acquires_app. cbn.
  now rewrite !app_nil_r.
Qed.

Create HintDb quiet.

#[local] Hint Resolve quiet_ret quiet_control quiet_outWrite quiet_inRead
  quiet_sleep : quiet.

Ltac quiet_tac :=
  repeat first
    [ apply quiet_bind; [|intros ?]
    | match goal with
      | |- Spec.quiet (match ?x with _ => _ end) => destruct x
      end
    | solve [auto with quiet] ].

Lemma quiet_purgeRead : Spec.quiet (purgeRead d).
Proof.
  unfold purgeRead. apply quiet_bind; [|intros; apply quiet_ret].
  generalize 10%nat. intros n. induction n as [|n IH]; cbn [purgeRead_loop].
  - apply quiet_ret.
  - apply quiet_bind; [apply quiet_inRead|]. intros r.
    destruct (len (rd_data r) <=? 2); [apply quiet_ret | exact IH].
Qed.

Lemma quiet_checkSync (cmd : Z) : Spec.quiet (checkSync d cmd).
Proof.
  unfold checkSync. apply quiet_bind; [apply quiet_outWrite|].
  intros [e|]; [apply quiet_ret|].
  generalize 10%nat. intros n. induction n as [|n IH]; cbn [checkSync_loop].
  - apply quiet_ret.
  - apply quiet_bind; [apply quiet_inRead|]. intros r.
    destruct (_ && _); [apply quiet_ret | exact IH].
Qed.

#[local] Hint Resolve quiet_purgeRead quiet_checkSync : quiet.

Lemma quiet_init_sequence (bitrate latencyMs : Z) :
  Forall (fun st => Spec.quiet st) (Spec.init_sequence d bitrate latencyMs).
Proof.
  unfold Spec.init_sequence, ftdiReset, ftdiSetSpecialChars,
    ftdiSetLatencyTimer, ftdiSetFlowControl, Spec.set_mpsse_mode,
    Spec.sync_check, Spec.sync_attempt, Spec.program, ftdiSetBitmode.
  repeat (apply Forall_cons; [quiet_tac|]). apply Forall_nil.
Qed.

(** *** Running a sequence of positions *)

Lemma run_prefix_quiet : forall steps k w wk,
  Forall (fun st => Spec.quiet st) steps ->
  Spec.run_prefix steps k w = Some wk ->
  Spec.releases (log wk) = Spec.releases (log w) /\
  Spec.acquires (log wk) = Spec.acquires (log w).
Proof.
  induction steps as [|st rest IH]; intros [|k] w wk Hq H; cbn in H;
    try discriminate; try (injection H as <-; split; reflexivity).
  inversion Hq as [|? ? Hst Hrest]; subst.
  specialize (Hst w). destruct (st w) as [[e|] w1]; [discriminate|].
  cbn [snd] in Hst. destruct (IH k w1 wk Hrest H) as [H1 H2].
  destruct Hst. split; congruence.
Qed.

Lemma run_sequence_abort (s : DeviceSession) : forall steps k st w wk wk' e,
  nth_error steps k = Some st ->
  Spec.run_prefix steps k w = Some wk ->
  st wk = (Some e, wk') ->
  Spec.run_sequence s steps w = (None, Some e, snd (Close (Some s) wk')).
Proof.
  induction steps as [|st0 rest IH]; intros [|k] st w wk wk' e Hn Hp Hs;
    cbn in Hn, Hp; try discriminate.
  - injection Hn as ->. injection Hp as ->.
    cbn [Spec.run_sequence]. unfold bind. rewrite Hs.
    destruct (Close (Some s) wk'). reflexivity.
  - cbn [Spec.run_sequence]. unfold bind.
    destruct (st0 w) as [[e0|] w1]; [discriminate|].
    eapply IH; eassumption.
Qed.

Lemma run_sequence_shape (s : DeviceSession) : forall steps w,
  Forall (fun st => Spec.quiet st) steps ->
  match Spec.run_sequence s steps w with
  | (Some s', None, w') =>
      s' = s /\ Spec.run_prefix steps (length steps) w = Some w' /\
      Spec.releases (log w') = Spec.releases (log w) /\
      Spec.acquires (log w') = Spec.acquires (log w)
  | (None, Some e, w') =>
      exists k st wk wk', nth_error steps k = Some st /\
        Spec.run_prefix steps k w = Some wk /\ st wk = (Some e, wk') /\
        w' = snd (Close (Some s) wk') /\
        Spec.releases (log wk') = Spec.releases (log w) /\
        Spec.acquires (log wk') = Spec.acquires (log w)
  | _ => False
  end.
Proof.
  induction steps as [|st rest IH]; intros w Hq.
  - cbn. repeat split.
  - inversion Hq as [|? ? Hst Hrest]; subst.
    cbn [Spec.run_sequence length]. unfold bind.
    pose proof (Hst w) as Hw.
    destruct (st w) as [[e|] w1] eqn:Es; cbn [snd] in Hw.
    + destruct (Close (Some s) w1) as [u w2] eqn:Ec. cbn [ret].
      exists 0%nat, st, w, w1. rewrite Ec. repeat split; tauto.
    + specialize (IH w1 Hrest).
      destruct (Spec.run_sequence s rest w1) as [[[s'|] [e|]] w'];
        try contradiction.
      * destruct IH as (-> & H2 & H3 & H4). cbn [Spec.run_prefix].
        rewrite Es. destruct Hw. repeat split; trivial; congruence.
      * destruct IH as (k & st' & wk & wk' & H1 & H2 & H3 & H4 & H5 & H6).
        exists (S k), st', wk, wk'. cbn [nth_error Spec.run_prefix].
        rewrite Es. destruct Hw. repeat split; trivial; congruence.
Qed.


(** *** The acquisition phase *)

Lemma Open_after_acquire (bitrate latencyMs : Z) (w : World)
  (inEp outEp : EndpointDesc) :
  dev_open d = OpenOk -> dev_config d = None -> dev_interface d = None ->
  find_endpoints (dev_endpoints d) None None = inr (Some inEp, Some outEp) ->
  OpenBitBabbler d bitrate latencyMs w
  = initMPSSE d (Spec.built inEp outEp)
      (if bitrate =? 0 then 2500000 else bitrate)
      (if latencyMs =? 0 then 1 else latencyMs) (Spec.acquired w).
Proof.
  intros H1 H2 H3 H4. unfold OpenBitBabbler. rewrite H1, H2, H3, H4.
  unfold bind, acquire, emit, Spec.acquired, Spec.built. cbn [n_ctl n_out n_in log].
  rewrite <- !app_assoc. reflexivity.
Qed.

Lemma Open_success_inv (bitrate latencyMs : Z) (w w' : World)
  (s : DeviceSession) (oe : option error) :
  OpenBitBabbler d bitrate latencyMs w = (Some s, oe, w') ->
  exists inEp outEp,
    dev_open d = OpenOk /\ dev_config d = None /\ dev_interface d = None /\
    find_endpoints (dev_endpoints d) None None = inr (Some inEp, Some outEp).
Proof.
  unfold OpenBitBabbler, bind, acquire, release_all, release, emit, ret.
  destruct (dev_open d); try discriminate.
  destruct (dev_config d); try discriminate.
  destruct (dev_interface d); try discriminate.
  destruct (find_endpoints (dev_endpoints d) None None)
    as [e|[[inEp|] [outEp|]]]; try discriminate.
  intros _. exists inEp, outEp. repeat split.
Qed.


Lemma step_quiet (bitrate latencyMs : Z) (k : nat) (st : M (option error)) :
  nth_error (Spec.init_sequence d bitrate latencyMs) k = Some st ->
  Spec.quiet st.
Proof.
  intros H. apply nth_error_In in H.
  pose proof (quiet_init_sequence bitrate latencyMs) as Q.
  rewrite Forall_forall in Q. now apply Q.
Qed.

Lemma acquired_logs (w : World) :
  Spec.releases (log (Spec.acquired w)) = Spec.releases (log w) /\
  Spec.acquires (log (Spec.acquired w))
  = Spec.acquires (log w) ++ [Context; DeviceHandle; Config; Interface].
Proof.
  unfold Spec.acquired. cbn [log]. rewrite releases_app, acquires_app.
  cbn. now rewrite app_nil_r.
Qed.

(** However [OpenBitBabbler] ends, it returns either a session and no
    error, with the four resources acquired and none released, or no
    session and an error, with every resource it acquired released exactly
    once, last acquired first. *)
Lemma OpenBitBabbler_all_or_nothing (bitrate latencyMs : Z) (w : World) :
  match OpenBitBabbler d bitrate latencyMs w with
  | (Some s, None, w') =>
      Spec.acquires (log w')
      = Spec.acquires (log w) ++ [Context; DeviceHandle; Config; Interface] /\
      Spec.releases (log w') = Spec.releases (log w)
  | (None, Some e, w') =>
      exists acq,
        Spec.acquires (log w') = Spec.acquires (log w) ++ acq /\
        Spec.releases (log w') = Spec.releases (log w) ++ rev acq
  | _ => False
  end.
Proof.
  destruct (dev_open d) eqn:E1;
    [| | destruct (dev_config d) eqn:E2;
         [| destruct (dev_interface d) eqn:E3;
            [| destruct (find_endpoints (dev_endpoints d) None None)
                 as [e|[[inEp|] [outEp|]]] eqn:E4 ] ] ].
  6:{ rewrite (Open_after_acquire _ _ _ inEp outEp E1 E2 E3 E4).
      rewrite initMPSSE_is_init_sequence.
      set (b := if bitrate =? 0 then _ else _).
      set (l := if latencyMs =? 0 then _ else _).
      pose proof (run_sequence_shape (Spec.built inEp outEp)
                    (Spec.init_sequence d b l) (Spec.acquired w)
                    (quiet_init_sequence b l)) as H.
      destruct (acquired_logs w) as [A1 A2].
      destruct (Spec.run_sequence _ _ _) as [[[s'|] [e|]] w']; trivial.
      - destruct H as (_ & _ & H1 & H2). split; congruence.
      - destruct H as (k & st & wk & wk' & _ & _ & _ & -> & H1 & H2).
        exists [Context; DeviceHandle; Config; Interface].
        rewrite log_Close. cbn [snd log Spec.built s_intf s_cfg s_dev s_ctx].
        rewrite releases_app, acquires_app. cbn.
        rewrite app_nil_r. split; congruence. }
  all: unfold OpenBitBabbler; rewrite ?E1, ?E2, ?E3, ?E4;
    cbv [bind acquire release_all release emit ret];
    cbn [n_ctl n_out n_in log]; rewrite <- ?app_assoc; cbn [app].
  1, 2: exists [Context].
  3: exists [Context; DeviceHandle].
  4: exists [Context; DeviceHandle; Config].
  5, 6, 7, 8: exists [Context; DeviceHandle; Config; Interface].
  all: rewrite releases_app, acquires_app; split; reflexivity.
Qed.

(** C4: once the session is built, let the positions before [k] of the
    initialization sequence succeed and position [k] fail with [e] in world
    [wk'].  Then [OpenBitBabbler] returns no session and the error [e]; its
    final world is [wk'] followed by one [Close] and nothing else, so no
    later position issued a transfer; and over the whole call the four
    resources were acquired once and released once, in the order interface,
    configuration, device handle, context. *)
Theorem OpenBitBabbler_aborts_at_failing_step (bitrate latencyMs : Z)
  (w : World) (inEp outEp : EndpointDesc) (k : nat) (st : M (option error))
  (wk wk' : World) (e : error) :
  dev_open d = OpenOk -> dev_config d = None -> dev_interface d = None ->
  find_endpoints (dev_endpoints d) None None = inr (Some inEp, Some outEp) ->
  let steps :=
    Spec.init_sequence d (if bitrate =? 0 then 2500000 else bitrate)
      (if latencyMs =? 0 then 1 else latencyMs) in
  nth_error steps k = Some st ->
  Spec.run_prefix steps k (Spec.acquired w) = Some wk ->
  st wk = (Some e, wk') ->
  let final := snd (Close (Some (Spec.built inEp outEp)) wk') in
  OpenBitBabbler d bitrate latencyMs w = (None, Some e, final) /\
  (n_ctl final, n_out final, n_in final) = (n_ctl wk', n_out wk', n_in wk') /\
  log final
  = log wk' ++ map EvRelease [Interface; Config; DeviceHandle; Context] /\
  Spec.releases (log final)
  = Spec.releases (log w) ++ [Interface; Config; DeviceHandle; Context] /\
  Spec.acquires (log final)
  = Spec.acquires (log w) ++ [Context; DeviceHandle; Config; Interface].
Proof.
  intros E1 E2 E3 E4 steps Hn Hp Hs final.
  split.
  { rewrite (Open_after_acquire _ _ _ inEp outEp E1 E2 E3 E4).
    rewrite initMPSSE_is_init_sequence.
    eapply run_sequence_abort; eassumption. }
  unfold final. rewrite log_Close.
  cbn [snd log n_ctl n_out n_in Spec.built s_intf s_cfg s_dev s_ctx].
  split; [reflexivity|]. split; [reflexivity|].
  destruct (run_prefix_quiet _ _ _ _ (quiet_init_sequence _ _) Hp) as [Q1 Q2].
  destruct (step_quiet _ _ _ _ Hn wk) as [Q3 Q4]. rewrite Hs in Q3, Q4.
  cbn [snd] in Q3, Q4.
  destruct (acquired_logs w) as [A1 A2].
  rewrite releases_app, acquires_app. cbn. rewrite app_nil_r.
  split; congruence.
Qed.

End OpenFacts.

Lemma OpenBitBabbler_aborts_at_failing_step_witness :
  exists wk wk',
    bbusb.dev_open Mock.stalled = bbusb.OpenOk /\
    bbusb.dev_config Mock.stalled = None /\
    bbusb.dev_interface Mock.stalled = None /\
    bbusb.find_endpoints (bbusb.dev_endpoints Mock.stalled) None None
    = inr (Some (bbusb.mkEp true true 1 8 None),
           Some (bbusb.mkEp false true 2 8 None)) /\
    nth_error (Spec.init_sequence Mock.stalled 2500000 1) 3
    = Some (bbusb.ftdiSetLatencyTimer Mock.stalled 1) /\
    Spec.run_prefix (Spec.init_sequence Mock.stalled 2500000 1) 3
      (Spec.acquired bbusb.world0) = Some wk /\
    bbusb.ftdiSetLatencyTimer Mock.stalled 1 wk = (Some "stall"%string, wk') /\
    bbusb.OpenBitBabbler Mock.stalled 0 0 bbusb.world0
    = (None, Some "stall"%string,
       snd (bbusb.Close (Some (Mock.session 8)) wk')) /\
    (bbusb.n_ctl wk', bbusb.n_out wk', bbusb.n_in wk') = (4%nat, 0%nat, 1%nat).
Proof.
  do 2 eexists.
  assert (H1 : bbusb.dev_open Mock.stalled = bbusb.OpenOk) by reflexivity.
  assert (H2 : bbusb.dev_config Mock.stalled = None) by reflexivity.
  assert (H3 : bbusb.dev_interface Mock.stalled = None) by reflexivity.
  assert (H4 : bbusb.find_endpoints (bbusb.dev_endpoints Mock.stalled) None None
               = inr (Some (bbusb.mkEp true true 1 8 None),
                      Some (bbusb.mkEp false true 2 8 None))) by reflexivity.
  repeat (split; [eassumption|]).
  split; [reflexivity|].
  split; [vm_compute; reflexivity|].
  split; [vm_compute; reflexivity|].
  split; [|reflexivity].
  refine (proj1 (OpenBitBabbler_aborts_at_failing_step Mock.stalled 0 0
                   bbusb.world0
                   (bbusb.mkEp true true 1 8 None)
                   (bbusb.mkEp false true 2 8 None)
                   3 (bbusb.ftdiSetLatencyTimer Mock.stalled 1) _ _ _
                   H1 H2 H3 H4 _ _ _));
    [reflexivity | vm_compute; reflexivity | vm_compute; reflexivity].
Defined.

Section SyncAndClock.

Import Go bbusb.

Variable d : Device.

Lemma checkSync_loop_spec (cmd : Z) : forall n w,
  fst (checkSync_loop d n cmd w)
  = existsb (fun j => Spec.sync_reply cmd (received d 512 j)) (seq (n_in w) n) /\
  n_ctl (snd (checkSync_loop d n cmd w)) = n_ctl w /\
  n_out (snd (checkSync_loop d n cmd w)) = n_out w /\
  (n_in w <= n_in (snd (checkSync_loop d n cmd w)) <= n_in w + n)%nat.
Proof.
  induction n as [|n IH]; intros w; cbn [checkSync_loop seq existsb].
  - cbn. repeat split; lia.
  - unfold bind, inRead. fold (Spec.sync_reply cmd (received d 512 (n_in w))).
    destruct (Spec.sync_reply cmd (received d 512 (n_in w))).
    + cbn. repeat split; lia.
    + set (w1 := mkWorld _ _ _ _). destruct (IH w1) as (H1 & H2 & H3 & H4).
      change (n_in w1) with (S (n_in w)) in *. cbn [orb].
      repeat split; trivial; lia.
Qed.

Lemma checkSync_spec (cmd : Z) (w : World) :
  fst (checkSync d cmd w)
  = match dev_out d (n_out w) with
    | None => existsb (fun j => Spec.sync_reply cmd (received d 512 j))
                (seq (n_in w) 10)
    | Some _ => false
    end /\
  n_ctl (snd (checkSync d cmd w)) = n_ctl w /\
  n_out (snd (checkSync d cmd w)) = S (n_out w) /\
  (n_in w <= n_in (snd (checkSync d cmd w)) <= n_in w + 10)%nat.
Proof.
  unfold checkSync, bind, outWrite.
  destruct (dev_out d (n_out w)).
  - cbn. repeat split; lia.
  - set (w1 := mkWorld _ _ _ _).
    destruct (checkSync_loop_spec cmd 10 w1) as (H1 & H2 & H3 & H4).
    cbn [w1 n_ctl n_out n_in] in H1, H2, H3, H4.
    repeat split; trivial; lia.
Qed.

Lemma sync_attempt_writes (w : World) :
  (n_out w < n_out (snd (Spec.sync_attempt d w)) <= n_out w + 2)%nat /\
  (n_in w <= n_in (snd (Spec.sync_attempt d w)) <= n_in w + 20)%nat.
Proof.
  unfold Spec.sync_attempt, bind.
  destruct (checkSync_spec 0xAA w) as (_ & _ & H1 & H2).
  destruct (checkSync d 0xAA w) as [[|] w1]; cbn [snd fst] in *.
  - destruct (checkSync_spec 0xAB w1) as (_ & _ & H3 & H4). lia.
  - cbn. lia.
Qed.

Lemma run_sequence_skip (s : DeviceSession) : forall steps k w wk,
  Spec.run_prefix steps k w = Some wk ->
  Spec.run_sequence s steps w = Spec.run_sequence s (skipn k steps) wk.
Proof.
  induction steps as [|st rest IH]; intros [|k] w wk H; cbn in H;
    try discriminate; try (injection H as <-; reflexivity).
  cbn [Spec.run_sequence skipn]. unfold bind.
  destruct (st w) as [[e|] w1]; [discriminate|]. now apply IH.
Qed.

Lemma run_prefix_0 (steps : list (M (option error))) (w : World) :
  Spec.run_prefix steps 0 w = Some w.
Proof. destruct steps; reflexivity. Qed.

Lemma run_prefix_last : forall steps k w w',
  Spec.run_prefix steps (S k) w = Some w' ->
  exists st wk, nth_error steps k = Some st /\
    Spec.run_prefix steps k w = Some wk /\ st wk = (None, w').
Proof.
  induction steps as [|st rest IH]; intros k w w' H; [discriminate|].
  cbn [Spec.run_prefix] in H.
  destruct (st w) as [[e|] w1] eqn:Es; [discriminate|].
  destruct k as [|k].
  - rewrite run_prefix_0 in H. injection H as <-. exists st, w.
    repeat split; trivial.
  - destruct (IH k w1 w' H) as (st' & wk & H1 & H2 & H3).
    exists st', wk. cbn [nth_error Spec.run_prefix]. rewrite Es.
    repeat split; trivial.
Qed.

Lemma purgeRead_extends (w : World) :
  exists post, log (snd (purgeRead d w)) = log w ++ post.
Proof.
  unfold purgeRead, bind.
  assert (H : forall n w, exists post,
               log (snd (purgeRead_loop d n w)) = log w ++ post).
  { induction n as [|n IH]; intros w0; cbn [purgeRead_loop].
    - exists []. cbn. now rewrite app_nil_r.
    - unfold bind, inRead. destruct (_ <=? 2).
      + eexists. cbn. reflexivity.
      + set (w1 := mkWorld _ _ _ _). destruct (IH w1) as [post Hp].
        rewrite Hp. cbn [log w1]. rewrite <- app_assoc. eauto. }
  destruct (H 10%nat w) as [post Hp].
  destruct (purgeRead_loop d 10 w) as [u w1]. cbn in *. eauto.
Qed.

Lemma divisor_bytes (clk : Z) :
  0 <= clk < 2 ^ 16 ->
  to_byte (Z.land clk 0xFF) = clk mod 256 /\
  to_byte (Z.shiftr clk 8) = clk / 256.
Proof.
  intros H. unfold to_byte. split.
  - change 255 with (Z.ones 8). rewrite Z.land_ones by lia.
    change (2 ^ 8) with 256. apply Z.mod_mod. lia.
  - rewrite Z.shiftr_div_pow2 by lia. change (2 ^ 8) with 256.
    apply Z.mod_small. split.
    + apply Z.div_pos; lia.
    + apply Z.div_lt_upper_bound; lia.
Qed.


Lemma sync_stage (s : DeviceSession) (b : Z) (w6 : World) :
  Spec.run_sequence s [Spec.sync_check d; Spec.program d b] w6
  = if fst (Spec.sync_attempt d w6)
    then Spec.run_sequence s [Spec.program d b] (snd (Spec.sync_attempt d w6))
    else
      if fst (Spec.sync_attempt d (snd (Spec.sync_attempt d w6)))
      then Spec.run_sequence s [Spec.program d b]
             (snd (Spec.sync_attempt d (snd (Spec.sync_attempt d w6))))
      else (None, Some "MPSSE sync failed"%string,
            snd (Close (Some s)
                   (snd (Spec.sync_attempt d (snd (Spec.sync_attempt d w6)))))).
Proof.
  cbn [Spec.run_sequence]. unfold Spec.sync_check.
  unfold bind at 1. unfold bind at 1.
  destruct (Spec.sync_attempt d w6) as [[|] w7]; cbn [fst snd ret];
    [reflexivity|].
  unfold bind at 1.
  destruct (Spec.sync_attempt d w7) as [[|] w8]; cbn [fst snd ret];
    [reflexivity|].
  unfold bind, ret. destruct (Close (Some s) w8). reflexivity.
Qed.

Lemma program_succeeds (s : DeviceSession) (b : Z) (w : World) :
  dev_out d (n_out w) = None ->
  exists w', Spec.run_sequence s [Spec.program d b] w = (Some s, None, w').
Proof.
  intros Hw. cbn [Spec.run_sequence]. unfold Spec.program.
  unfold bind at 1. unfold bind at 1. unfold outWrite at 1. rewrite Hw.
  unfold bind, sleep, emit, ret.
  destruct (purgeRead d _) as [u wz]. eauto.
Qed.

(** C5: the synchronization check of [OpenBitBabbler].  One check writes the
    bogus command once and reads at most ten times; it passes exactly when
    the write succeeds and one of those reads returns four bytes with 0xFA
    third and the command fourth.  With the positions before the sync check
    done in world [w6]: if the first 0xAA/0xAB attempt passes, no second one
    is made; if it fails, the whole attempt is made once more, and when that
    one passes the open goes on to the programming step and, the programming
    write succeeding, returns the session; if both attempts fail the open
    returns the sync-failed error and no session, after one [Close].  The
    two attempts together write at most four commands. *)
Theorem sync_check_retries_once (bitrate latencyMs : Z) (w w6 : World)
  (inEp outEp : EndpointDesc) :
  dev_open d = OpenOk -> dev_config d = None -> dev_interface d = None ->
  find_endpoints (dev_endpoints d) None None = inr (Some inEp, Some outEp) ->
  let b := if bitrate =? 0 then 2500000 else bitrate in
  let l := if latencyMs =? 0 then 1 else latencyMs in
  let s := Spec.built inEp outEp in
  Spec.run_prefix (Spec.init_sequence d b l) 6 (Spec.acquired w) = Some w6 ->
  let r1 := Spec.sync_attempt d w6 in
  let r2 := Spec.sync_attempt d (snd r1) in
  let opened := OpenBitBabbler d bitrate latencyMs w in
  (forall cmd w0,
     fst (checkSync d cmd w0)
     = match dev_out d (n_out w0) with
       | None => existsb (fun j => Spec.sync_reply cmd (received d 512 j))
                   (seq (n_in w0) 10)
       | Some _ => false
       end /\
     n_out (snd (checkSync d cmd w0)) = S (n_out w0) /\
     (n_in w0 <= n_in (snd (checkSync d cmd w0)) <= n_in w0 + 10)%nat) /\
  (fst r1 = true ->
   opened = Spec.run_sequence s [Spec.program d b] (snd r1)) /\
  (fst r1 = false -> fst r2 = true ->
   opened = Spec.run_sequence s [Spec.program d b] (snd r2) /\
   (dev_out d (n_out (snd r2)) = None -> exists w', opened = (Some s, None, w'))) /\
  (fst r1 = false -> fst r2 = false ->
   opened = (None, Some "MPSSE sync failed"%string,
             snd (Close (Some s) (snd r2)))) /\
  (n_out (snd r1) <= n_out w6 + 2)%nat /\
  (n_out (snd r2) <= n_out w6 + 4)%nat.
Proof.
  intros E1 E2 E3 E4 b l s Hp r1 r2 opened.
  assert (Ho : opened
               = Spec.run_sequence s [Spec.sync_check d; Spec.program d b] w6).
  { unfold opened. rewrite (Open_after_acquire d _ _ _ inEp outEp E1 E2 E3 E4).
    rewrite initMPSSE_is_init_sequence.
    fold b l s. rewrite (run_sequence_skip s _ _ _ _ Hp). reflexivity. }
  split.
  { intros cmd w0. destruct (checkSync_spec cmd w0) as (H1 & _ & H3 & H4).
    repeat split; trivial; lia. }
  pose proof (sync_attempt_writes w6) as [W1 _].
  pose proof (sync_attempt_writes (snd r1)) as [W2 _].
  fold r1 in W1. fold r2 in W2.
  rewrite Ho, sync_stage. fold r1. fold r2.
  split; [intros ->; reflexivity|].
  split.
  { intros -> ->. split; [reflexivity|]. apply program_succeeds. }
  split; [intros -> ->; reflexivity|].
  lia.
Qed.

Lemma program_log (b : Z) (w : World) :
  fst (Spec.program d b w) = None ->
  exists post,
    log (snd (Spec.program d b w))
    = log w ++ EvBulkOut (program_cmd (clkDiv b)) None :: post.
Proof.
  unfold Spec.program. generalize (program_cmd (clkDiv b)). intros cmd.
  unfold bind, outWrite.
  destruct (dev_out d (n_out w)) eqn:E; [discriminate|]. intros _.
  destruct (sleep 30 _) as [u w2] eqn:Es.
  destruct (purgeRead_extends w2) as [post Hpost].
  destruct (purgeRead d w2) as [u' w3]. cbn [snd ret] in *.
  unfold sleep, emit in Es. injection Es as Es. subst w2. cbn [log] in Hpost.
  exists (EvSleep 30 :: post). rewrite Hpost.
  rewrite <- !app_assoc. reflexivity.
Qed.

(** C6, as the code has it: when [OpenBitBabbler] returns a session, the
    command buffer it wrote carries the divisor
    [(30000000 / b - 1) mod 2^64 mod 2^16], low byte then high byte, where
    [b] is the bitrate asked for (2500000 when it is 0) and [/] is the
    truncating integer division; for [458 <= b <= 30000000] that is
    [floor (30000000 / b) - 1]. *)
Theorem clock_divisor_is_truncated_quotient (bitrate latencyMs : Z)
  (w w' : World) (s : DeviceSession) :
  0 <= bitrate < 2 ^ 64 ->
  OpenBitBabbler d bitrate latencyMs w = (Some s, None, w') ->
  let b := if bitrate =? 0 then 2500000 else bitrate in
  let div := ((30000000 / b - 1) mod 2 ^ 64) mod 2 ^ 16 in
  (exists pre post,
     log w' = pre ++ EvBulkOut [ 0x8A; 0x97; 0x8D; 0x80; 0x00; 0x0B;
                                 0x82; 0x00; 0x00; 0x86;
                                 div mod 256; div / 256; 0x85 ] None
                  :: post) /\
  clkDiv b = div /\
  (458 <= b <= 30000000 -> div = 30000000 / b - 1).
Proof.
  intros Hb Ho b div.
  destruct (Open_success_inv d _ _ _ _ _ _ Ho)
    as (inEp & outEp & E1 & E2 & E3 & E4).
  rewrite (Open_after_acquire d _ _ _ inEp outEp E1 E2 E3 E4) in Ho.
  rewrite initMPSSE_is_init_sequence in Ho. fold b in Ho.
  set (l := if latencyMs =? 0 then 1 else latencyMs) in Ho.
  pose proof (run_sequence_shape (Spec.built inEp outEp)
                (Spec.init_sequence d b l) (Spec.acquired w)
                (quiet_init_sequence d b l)) as H.
  rewrite Ho in H. destruct H as (_ & Hp & _).
  change (length (Spec.init_sequence d b l)) with 8%nat in Hp.
  destruct (run_prefix_last _ _ _ _ Hp) as (st & w7 & Hn & _ & Hs).
  change (Some (Spec.program d b) = Some st) in Hn. injection Hn as <-.
  split; [|split; [reflexivity|]].
  - destruct (program_log b w7) as [post Hpost]; [now rewrite Hs|].
    rewrite Hs in Hpost. cbn [snd] in Hpost.
    exists (log w7), post. rewrite Hpost. do 2 f_equal.
    assert (Hd : 0 <= clkDiv b < 2 ^ 16) by (apply Z.mod_pos_bound; lia).
    destruct (divisor_bytes (clkDiv b) Hd) as [B1 B2].
    unfold program_cmd. rewrite B1, B2. reflexivity.
  - intros Hr. unfold div.
    assert (1 <= 30000000 / b <= 65536).
    { split.
      - apply Z.div_le_lower_bound; lia.
      - apply Z.div_le_upper_bound; lia. }
    change (2 ^ 64) with 18446744073709551616.
    change (2 ^ 16) with 65536.
    rewrite (Z.mod_small (30000000 / b - 1) 18446744073709551616) by lia.
    apply Z.mod_small. lia.
Qed.


End SyncAndClock.

Lemma sync_check_retries_once_witness :
  exists w6,
    bbusb.dev_open Mock.late_sync = bbusb.OpenOk /\
    bbusb.dev_config Mock.late_sync = None /\
    bbusb.dev_interface Mock.late_sync = None /\
    bbusb.find_endpoints (bbusb.dev_endpoints Mock.late_sync) None None
    = inr (Some (bbusb.mkEp true true 1 8 None),
           Some (bbusb.mkEp false true 2 8 None)) /\
    Spec.run_prefix (Spec.init_sequence Mock.late_sync 2500000 1) 6
      (Spec.acquired bbusb.world0) = Some w6 /\
    fst (Spec.sync_attempt Mock.late_sync w6) = false /\
    fst (Spec.sync_attempt Mock.late_sync
           (snd (Spec.sync_attempt Mock.late_sync w6))) = true /\
    exists w',
      bbusb.OpenBitBabbler Mock.late_sync 0 0 bbusb.world0
      = (Some (Mock.session 8), None, w').
Proof.
  eexists.
  assert (H1 : bbusb.dev_open Mock.late_sync = bbusb.OpenOk) by reflexivity.
  assert (H2 : bbusb.dev_config Mock.late_sync = None) by reflexivity.
  assert (H3 : bbusb.dev_interface Mock.late_sync = None) by reflexivity.
  assert (H4 : bbusb.find_endpoints (bbusb.dev_endpoints Mock.late_sync) None None
               = inr (Some (bbusb.mkEp true true 1 8 None),
                      Some (bbusb.mkEp false true 2 8 None))) by reflexivity.
  repeat (split; [eassumption|]).
  split; [vm_compute; reflexivity|].
  match goal with
  | |- fst (Spec.sync_attempt _ ?w6) = _ /\ _ =>
      assert (H5 : Spec.run_prefix (Spec.init_sequence Mock.late_sync 2500000 1) 6
                     (Spec.acquired bbusb.world0) = Some w6)
        by (vm_compute; reflexivity);
      pose proof (sync_check_retries_once Mock.late_sync 0 0 bbusb.world0 w6
                    (bbusb.mkEp true true 1 8 None)
                    (bbusb.mkEp false true 2 8 None) H1 H2 H3 H4 H5) as T
  end.
  cbv zeta in T. destruct T as (_ & _ & T & _).
  split; [vm_compute; reflexivity|].
  split; [vm_compute; reflexivity|].
  apply T; vm_compute; reflexivity.
Defined.

Lemma clock_divisor_is_truncated_quotient_witness :
  exists w',
    0 <= 0 < 2 ^ 64 /\
    bbusb.OpenBitBabbler Mock.ones_device 0 0 bbusb.world0
    = (Some (Mock.session 8), None, w') /\
    bbusb.clkDiv 2500000 = 11.
Proof.
  eexists.
  assert (H1 : 0 <= 0 < 2 ^ 64) by (split; [apply Z.le_refl | reflexivity]).
  split; [exact H1|].
  assert (H2 : bbusb.OpenBitBabbler Mock.ones_device 0 0 bbusb.world0
               = (Some (Mock.session 8), None,
                  snd (bbusb.OpenBitBabbler Mock.ones_device 0 0 bbusb.world0)))
    by (vm_compute; reflexivity).
  split; [exact H2|].
  destruct (clock_divisor_is_truncated_quotient Mock.ones_device 0 0
              bbusb.world0 _ _ H1 H2) as (_ & H & _).
  exact H.
Defined.

(** C6 as stated fails at 8 MHz: 30000000 / 8000000 = 3.75 rounds to 4, so
    rounding to nearest gives divisor 3; the code programs 2. *)
Lemma clock_divisor_is_not_rounded :
  bbusb.clkDiv 8000000 = 2 /\
  Spec.round_div 30000000 8000000 - 1 = 3 /\
  In (bbusb.EvBulkOut (bbusb.program_cmd 2) None)
    (bbusb.log (snd (bbusb.OpenBitBabbler Mock.ones_device 8000000 0
                       bbusb.world0))) /\
  ~ In (bbusb.EvBulkOut (bbusb.program_cmd 3) None)
    (bbusb.log (snd (bbusb.OpenBitBabbler Mock.ones_device 8000000 0
                       bbusb.world0))).
Proof.
  split; [reflexivity|]. split; [reflexivity|]. split.
  - vm_compute. intuition.
  - vm_compute. intuition discriminate.
Qed.

Section TraceSplitting.

Context {A : Type} (p : A -> bool).

Lemma split_skip (a t' pre : list A) (x : A) (post : list A) :
  forallb (fun y => negb (p y)) a = true -> p x = true ->
  a ++ t' = pre ++ x :: post ->
  exists pre', pre = a ++ pre' /\ t' = pre' ++ x :: post.
Proof.
  revert pre. induction a as [|y a IH]; intros pre Ha Hx H.
  - exists pre. split; trivial.
  - cbn in Ha. apply andb_prop in Ha as [Hy Ha].
    destruct pre as [|z pre]; cbn in H; injection H as -> H.
    + rewrite Hx in Hy. discriminate.
    + destruct (IH pre Ha Hx H) as (pre' & -> & ->). exists pre'.
      split; reflexivity.
Qed.

Lemma split_none (a pre : list A) (x : A) (post : list A) :
  forallb (fun y => negb (p y)) a = true -> p x = true ->
  a <> pre ++ x :: post.
Proof.
  intros Ha Hx H. rewrite <- (app_nil_r a) in H.
  destruct (split_skip a [] pre x post Ha Hx H) as (pre' & _ & H').
  destruct pre'; discriminate.
Qed.

End TraceSplitting.

Section CallbackLoops.

Import Go Sched.

Variable W : Type.
Variable ReadBits : W -> Run W Bits.

Lemma interval_loop_cancelled (env : list Cycle) (w : W) :
  interval_loop W ReadBits env true w = ([], Returned ctxErr, w).
Proof. destruct env; reflexivity. Qed.

Lemma interval_loop_error_halts : forall env cancelled w pre e post,
  fst (fst (interval_loop W ReadBits env cancelled w)) = pre ++ ObsError e :: post ->
  post = [] /\
  snd (fst (interval_loop W ReadBits env cancelled w)) = Returned (Some e).
Proof.
  induction env as [|c env IH]; intros cancelled w pre e post H;
    destruct cancelled; cbn [interval_loop] in *;
    try (cbn in H; destruct pre; discriminate).
  destruct (ReadBits w) as [[b [err|]] w1|w1|w1];
    try (cbn in H; destruct pre as [|? [|? ?]]; discriminate).
  - cbn [fst snd] in *.
    rewrite app_comm_cons in H.
    assert (Ha : forallb (fun y : Obs (list Z) => negb (is_error y))
                   (ObsRead :: cancel_obs (cancel_in_read c) InRead) = true)
      by (destruct (cancel_in_read c); reflexivity).
    destruct (split_skip is_error _ _ pre (ObsError e) post Ha eq_refl H)
      as (pre' & -> & H').
    destruct pre' as [|? [|? ?]]; try discriminate.
    injection H' as <- <-. split; reflexivity.
  - set (a := ObsRead :: cancel_obs (cancel_in_read c) InRead ++ [ObsDeliver b]
              ++ cancel_obs (negb (cancel_in_read c) && cancel_in_wait c) InWait) in *.
    assert (Ha : forallb (fun y => negb (is_error y)) a = true).
    { unfold a. destruct (cancel_in_read c), (cancel_in_wait c); reflexivity. }
    destruct ((cancel_in_read c || cancel_in_wait c) && wait_takes_done c).
    + cbn [fst snd] in H. exfalso.
      exact (split_none is_error a pre (ObsError e) post Ha eq_refl H).
    + specialize (IH (cancel_in_read c || cancel_in_wait c) w1).
      destruct (interval_loop W ReadBits env _ w1) as [[t' x] w2].
      cbn [fst snd] in *.
      change (a ++ ObsTick :: t') with (a ++ [ObsTick] ++ t') in H.
      rewrite app_assoc in H.
      destruct (split_skip is_error (a ++ [ObsTick]) t' pre (ObsError e) post)
        as (pre' & _ & H'); trivial.
      { rewrite forallb_app, Ha. reflexivity. }
      eapply IH; eassumption.
Qed.

Lemma interval_loop_cancel_in_wait : forall env cancelled w pre post,
  fst (fst (interval_loop W ReadBits env cancelled w))
  = pre ++ ObsCancel InWait :: post ->
  existsb is_io post = false /\
  snd (fst (interval_loop W ReadBits env cancelled w)) = Returned ctxErr.
Proof.
  induction env as [|c env IH]; intros cancelled w pre post H;
    destruct cancelled; cbn [interval_loop] in *;
    try (cbn in H; destruct pre; discriminate).
  destruct (ReadBits w) as [[b [err|]] w1|w1|w1];
    try (cbn in H; destruct pre as [|? [|? ?]]; discriminate).
  - cbn [fst snd] in H. exfalso.
    refine (split_none is_wait_cancel _ pre (ObsCancel InWait) post _ eq_refl H).
    destruct (cancel_in_read c); reflexivity.
  - destruct (cancel_in_read c) eqn:Cr, (cancel_in_wait c) eqn:Cw,
      (wait_takes_done c) eqn:Cd;
      cbn [negb andb orb cancel_obs app] in *;
      rewrite ?interval_loop_cancelled in *; cbn [fst snd app] in *.
    (* cancelled during the read: no wait-cancel event at all *)
    1-4: exfalso;
      refine (split_none is_wait_cancel _ pre (ObsCancel InWait) post _ eq_refl H);
      reflexivity.
    (* cancelled during the wait *)
    + destruct pre as [|? [|? [|? [|? ?]]]]; try discriminate.
      injection H; intros; subst. split; reflexivity.
    + destruct pre as [|? [|? [|? [|? [|? ?]]]]]; try discriminate.
      injection H; intros; subst. split; reflexivity.
    (* no cancellation in this cycle *)
    + specialize (IH false w1);
      destruct (interval_loop W ReadBits env false w1) as [[t' x] w2];
      cbn [fst snd] in *;
      destruct (split_skip is_wait_cancel [ObsRead; ObsDeliver b; ObsTick] t'
                  pre (ObsCancel InWait) post eq_refl eq_refl H)
        as (pre' & _ & H');
      eapply IH; eassumption.
    + specialize (IH false w1);
      destruct (interval_loop W ReadBits env false w1) as [[t' x] w2];
      cbn [fst snd] in *;
      destruct (split_skip is_wait_cancel [ObsRead; ObsDeliver b; ObsTick] t'
                  pre (ObsCancel InWait) post eq_refl eq_refl H)
        as (pre' & _ & H');
      eapply IH; eassumption.
Qed.

End CallbackLoops.

Section QuietAfter.

Import Go Sched.

Context {D : Type} (p : Obs D -> bool).

Lemma no_io_suffix (pre post : list (Obs D)) :
  existsb is_io (pre ++ post) = false -> existsb is_io post = false.
Proof.
  rewrite existsb_app. intros H. apply orb_false_elim in H. tauto.
Qed.

Lemma quiet_after_spec : forall t pre x post,
  quiet_after p t = true -> t = pre ++ x :: post -> p x = true ->
  existsb is_io post = false.
Proof.
  induction t as [|o t IH]; intros pre x post Hq Ht Hx.
  - destruct pre; discriminate.
  - cbn [quiet_after] in Hq. destruct pre as [|o' pre]; cbn in Ht;
      injection Ht as -> ->.
    + rewrite Hx in Hq. apply negb_true_iff in Hq. exact Hq.
    + destruct (p o').
      * apply negb_true_iff in Hq.
        apply (no_io_suffix (pre ++ [x])). rewrite <- app_assoc. exact Hq.
      * eapply IH; eauto.
Qed.

Lemma existsb_split (t pre : list (Obs D)) (x : Obs D) (post : list (Obs D)) :
  t = pre ++ x :: post -> p x = true -> existsb p t = true.
Proof.
  intros -> Hx. rewrite existsb_app. cbn. rewrite Hx.
  now rewrite orb_true_r.
Qed.

End QuietAfter.

Section ChannelLoop.

Import Go Sched bbusb.

Variable d : Device.
Variables (fuel : nat) (sess : DeviceSession) (bits numBytes : Z).

Lemma collector_loop_cancelled (env : list Cycle) (w : World) :
  collector_loop d fuel sess bits numBytes env true w
  = ([], Returned None, snd (Close (Some sess) w)).
Proof. destruct env; reflexivity. Qed.

Lemma collector_loop_checks : forall env cancelled w,
  quiet_after is_wait_cancel
    (fst (fst (collector_loop d fuel sess bits numBytes env cancelled w))) = true /\
  (existsb is_wait_cancel
     (fst (fst (collector_loop d fuel sess bits numBytes env cancelled w))) = true ->
   snd (fst (collector_loop d fuel sess bits numBytes env cancelled w))
   = Returned None).
Proof.
  induction env as [|c env IH]; intros cancelled w; destruct cancelled;
    cbn [collector_loop]; try (cbn; split; [reflexivity|discriminate || reflexivity]).
  destruct (numBytes <? 0); [cbn; split; [reflexivity|discriminate]|].
  destruct (ReadRandom d fuel sess (make numBytes) w)
    as [[[n err] buf] w1|w1|w1];
    try (cbn; split; [reflexivity|discriminate]).
  destruct (cancel_in_read c), (cancel_in_send c), (send_takes_done c),
    (cancel_in_wait c), (wait_takes_done c), err as [e|];
    cbn [negb andb orb cancel_obs error_obs app fst snd];
    rewrite ?collector_loop_cancelled;
    cbn [negb andb orb cancel_obs error_obs app fst snd quiet_after existsb
         is_wait_cancel is_io];
    try (split; [reflexivity | first [discriminate | reflexivity]]).
  all: specialize (IH false w1);
    destruct (collector_loop d fuel sess bits numBytes env false w1)
      as [[t' x] w2];
    cbn [negb andb orb cancel_obs error_obs app fst snd quiet_after existsb
         is_wait_cancel is_io] in *; exact IH.
Qed.

End ChannelLoop.

Section Collectors.

Import Go Sched.

(** C8: in each collection loop, once cancellation is requested during the
    inter-tick wait, nothing but the tick that may end that wait is
    observed: no read is issued and no batch is delivered, and the loop has
    returned (with the context's error for the callback loops, by closing
    its channel for the USB collector). *)
Theorem cancellation_in_wait_stops_the_loop :
  (forall (E : pseudorng.Entropy) bitCount interval onBatch env cancelled w
          pre post,
     fst (fst (pseudorng.CollectBitsAtInterval E bitCount interval onBatch
                 env cancelled w))
     = pre ++ ObsCancel InWait :: post ->
     existsb is_io post = false /\
     snd (fst (pseudorng.CollectBitsAtInterval E bitCount interval onBatch
                 env cancelled w)) = Returned ctxErr) /\
  (forall (P : truerng.Serial) fuel bitCount interval onBatch env cancelled w
          pre post,
     fst (fst (truerng.CollectBitsAtInterval P fuel bitCount interval onBatch
                 env cancelled w))
     = pre ++ ObsCancel InWait :: post ->
     existsb is_io post = false /\
     snd (fst (truerng.CollectBitsAtInterval P fuel bitCount interval onBatch
                 env cancelled w)) = Returned ctxErr) /\
  (forall (d : bbusb.Device) fuel bits interval bitrate latencyMs env
          cancelled w pre post,
     fst (fst (snd (bbusb.StartBitCollector d fuel bits interval bitrate
                      latencyMs env cancelled w)))
     = pre ++ ObsCancel InWait :: post ->
     existsb is_io post = false /\
     snd (fst (snd (bbusb.StartBitCollector d fuel bits interval bitrate
                      latencyMs env cancelled w))) = Returned None).
Proof.
  repeat split.
  1-4: revert H;
    unfold pseudorng.CollectBitsAtInterval, truerng.CollectBitsAtInterval,
      collect;
    destruct (bitCount <=? 0); [destruct pre; discriminate|];
    destruct (interval <=? 0); [destruct pre; discriminate|];
    destruct (negb onBatch); [destruct pre; discriminate|];
    intros H; eapply interval_loop_cancel_in_wait; eassumption.
  all: revert H; unfold bbusb.StartBitCollector;
    destruct (bits <=? 0); [destruct pre; discriminate|];
    destruct (interval <=? 0); [destruct pre; discriminate|];
    destruct (bbusb.OpenBitBabbler d bitrate latencyMs w) as [[[s|] [e|]] w1];
    try (destruct pre; discriminate); cbn [snd]; intros H;
    destruct (collector_loop_checks d fuel s bits
                (Z.quot (int_wrap (bits + 7)) 8) env cancelled w1) as [Q1 Q2].
  - eapply quiet_after_spec; [exact Q1 | exact H | reflexivity].
  - apply Q2. eapply existsb_split; [exact H | reflexivity].
Qed.

(** C3, as the code has it.  In [pseudorng.CollectBitsAtInterval] and
    [truerng.CollectBitsAtInterval] a read error ends the run: it is the
    last thing observed, so no read and no delivery follows it, and it is
    the error the loop returns.  In [bbusb.StartBitCollector] a read error
    does not end the loop: the error is delivered to the channel in the
    [Err] field of that cycle's result, with the untrimmed buffer, and
    unless cancelled the loop waits for the tick and reads again. *)
Theorem read_error_halts_callback_loops_only :
  (forall (E : pseudorng.Entropy) bitCount interval onBatch env cancelled w
          pre e post,
     fst (fst (pseudorng.CollectBitsAtInterval E bitCount interval onBatch
                 env cancelled w))
     = pre ++ ObsError e :: post ->
     post = [] /\
     snd (fst (pseudorng.CollectBitsAtInterval E bitCount interval onBatch
                 env cancelled w)) = Returned (Some e)) /\
  (forall (P : truerng.Serial) fuel bitCount interval onBatch env cancelled w
          pre e post,
     fst (fst (truerng.CollectBitsAtInterval P fuel bitCount interval onBatch
                 env cancelled w))
     = pre ++ ObsError e :: post ->
     post = [] /\
     snd (fst (truerng.CollectBitsAtInterval P fuel bitCount interval onBatch
                 env cancelled w)) = Returned (Some e)) /\
  (forall (d : bbusb.Device) fuel sess bits numBytes c env w n e buf w1,
     0 <= numBytes ->
     bbusb.ReadRandom d fuel sess (make numBytes) w = Done (n, Some e, buf) w1 ->
     cancel_in_read c = false -> cancel_in_send c = false ->
     cancel_in_wait c = false ->
     bbusb.collector_loop d fuel sess bits numBytes (c :: env) false w
     = (let '(t', x, w2) :=
          bbusb.collector_loop d fuel sess bits numBytes env false w1 in
        (ObsRead :: ObsError e
         :: ObsDeliver (bbusb.mkResult (now c) bits buf (Some e))
         :: ObsTick :: t', x, w2))).
Proof.
  repeat split.
  1-4: revert H;
    unfold pseudorng.CollectBitsAtInterval, truerng.CollectBitsAtInterval,
      collect;
    destruct (bitCount <=? 0); [destruct pre; discriminate|];
    destruct (interval <=? 0); [destruct pre; discriminate|];
    destruct (negb onBatch); [destruct pre; discriminate|];
    intros H; eapply interval_loop_error_halts; eassumption.
  intros d fuel sess bits numBytes c env w n e buf w1 Hn Hr C1 C2 C3.
  cbn [bbusb.collector_loop].
  replace (numBytes <? 0) with false by (symmetry; apply Z.ltb_ge; lia).
  rewrite Hr, C1, C2, C3. cbn [negb andb orb cancel_obs error_obs app].
  destruct (bbusb.collector_loop d fuel sess bits numBytes env false w1)
    as [[t' x] w2]. reflexivity.
Qed.

End Collectors.

Lemma cancellation_in_wait_stops_the_loop_witness :
  (fst (fst (pseudorng.CollectBitsAtInterval Mock.entropy 8 1 true
               [Mock.calm; Mock.cancel_waiting false; Mock.calm] false 0%nat))
   = [Sched.ObsRead; Sched.ObsDeliver [255]; Sched.ObsTick;
      Sched.ObsRead; Sched.ObsDeliver [255]]
     ++ Sched.ObsCancel Sched.InWait :: [Sched.ObsTick] /\
   snd (fst (pseudorng.CollectBitsAtInterval Mock.entropy 8 1 true
               [Mock.calm; Mock.cancel_waiting false; Mock.calm] false 0%nat))
   = Sched.Returned Sched.ctxErr) /\
  (fst (fst (truerng.CollectBitsAtInterval Mock.serial 2 8 1 true
               [Mock.cancel_waiting true; Mock.calm] false truerng.world0))
   = [Sched.ObsRead; Sched.ObsDeliver [255]]
     ++ Sched.ObsCancel Sched.InWait :: [] /\
   snd (fst (truerng.CollectBitsAtInterval Mock.serial 2 8 1 true
               [Mock.cancel_waiting true; Mock.calm] false truerng.world0))
   = Sched.Returned Sched.ctxErr) /\
  (fst (fst (snd (bbusb.StartBitCollector Mock.ones_device 2 8 1 0 0
                    [Mock.cancel_waiting true; Mock.calm] false bbusb.world0)))
   = [Sched.ObsRead; Sched.ObsDeliver (bbusb.mkResult 0 8 [255] None)]
     ++ Sched.ObsCancel Sched.InWait :: [] /\
   snd (fst (snd (bbusb.StartBitCollector Mock.ones_device 2 8 1 0 0
                    [Mock.cancel_waiting true; Mock.calm] false bbusb.world0)))
   = Sched.Returned None).
Proof.
  destruct cancellation_in_wait_stops_the_loop as (T1 & T2 & T3).
  split; [|split].
  - assert (H : fst (fst (pseudorng.CollectBitsAtInterval Mock.entropy 8 1 true
                 [Mock.calm; Mock.cancel_waiting false; Mock.calm] false 0%nat))
               = [Sched.ObsRead; Sched.ObsDeliver [255]; Sched.ObsTick;
                  Sched.ObsRead; Sched.ObsDeliver [255]]
                 ++ Sched.ObsCancel Sched.InWait :: [Sched.ObsTick])
      by (vm_compute; reflexivity).
    split; [exact H|]. exact (proj2 (T1 _ _ _ _ _ _ _ _ _ H)).
  - assert (H : fst (fst (truerng.CollectBitsAtInterval Mock.serial 2 8 1 true
                 [Mock.cancel_waiting true; Mock.calm] false truerng.world0))
               = [Sched.ObsRead; Sched.ObsDeliver [255]]
                 ++ Sched.ObsCancel Sched.InWait :: [])
      by (vm_compute; reflexivity).
    split; [exact H|]. exact (proj2 (T2 _ _ _ _ _ _ _ _ _ _ H)).
  - assert (H : fst (fst (snd (bbusb.StartBitCollector Mock.ones_device 2 8 1 0 0
                 [Mock.cancel_waiting true; Mock.calm] false bbusb.world0)))
               = [Sched.ObsRead; Sched.ObsDeliver (bbusb.mkResult 0 8 [255] None)]
                 ++ Sched.ObsCancel Sched.InWait :: [])
      by (vm_compute; reflexivity).
    split; [exact H|]. exact (proj2 (T3 _ _ _ _ _ _ _ _ _ _ _ H)).
Defined.

Lemma read_error_halts_callback_loops_only_witness :
  (fst (fst (pseudorng.CollectBitsAtInterval Mock.entropy_fails 8 1 true
               [Mock.calm; Mock.calm; Mock.calm] false 0%nat))
   = [Sched.ObsRead; Sched.ObsDeliver [255]; Sched.ObsTick; Sched.ObsRead]
     ++ Sched.ObsError "entropy"%string :: [] /\
   snd (fst (pseudorng.CollectBitsAtInterval Mock.entropy_fails 8 1 true
               [Mock.calm; Mock.calm; Mock.calm] false 0%nat))
   = Sched.Returned (Some "entropy"%string)) /\
  (0 <= 1 /\
   bbusb.ReadRandom Mock.flaky 2 (Mock.session 8) (Go.make 1)
     (snd (bbusb.OpenBitBabbler Mock.flaky 0 0 bbusb.world0))
   = Go.Done (0, Some "pipe"%string, [0])
       (snd (bbusb.outWrite Mock.flaky [0x20; 0; 0; 0x87]
               (snd (bbusb.OpenBitBabbler Mock.flaky 0 0 bbusb.world0)))) /\
   fst (fst (bbusb.collector_loop Mock.flaky 2 (Mock.session 8) 8 1
               [Mock.calm; Mock.calm] false
               (snd (bbusb.OpenBitBabbler Mock.flaky 0 0 bbusb.world0))))
   = [Sched.ObsRead; Sched.ObsError "pipe"%string;
      Sched.ObsDeliver (bbusb.mkResult 0 8 [0] (Some "pipe"%string));
      Sched.ObsTick;
      Sched.ObsRead; Sched.ObsDeliver (bbusb.mkResult 0 8 [255] None);
      Sched.ObsTick]).
Proof.
  destruct read_error_halts_callback_loops_only as (T1 & _ & T3).
  split.
  - assert (H : fst (fst (pseudorng.CollectBitsAtInterval Mock.entropy_fails
                 8 1 true [Mock.calm; Mock.calm; Mock.calm] false 0%nat))
               = [Sched.ObsRead; Sched.ObsDeliver [255]; Sched.ObsTick;
                  Sched.ObsRead]
                 ++ Sched.ObsError "entropy"%string :: [])
      by (vm_compute; reflexivity).
    split; [exact H|]. exact (proj2 (T1 _ _ _ _ _ _ _ _ _ _ H)).
  - assert (H0 : 0 <= 1) by discriminate.
    assert (H1 : bbusb.ReadRandom Mock.flaky 2 (Mock.session 8) (Go.make 1)
                   (snd (bbusb.OpenBitBabbler Mock.flaky 0 0 bbusb.world0))
                 = Go.Done (0, Some "pipe"%string, [0])
                     (snd (bbusb.outWrite Mock.flaky [0x20; 0; 0; 0x87]
                        (snd (bbusb.OpenBitBabbler Mock.flaky 0 0 bbusb.world0)))))
      by (vm_compute; reflexivity).
    split; [exact H0|]. split; [exact H1|].
    rewrite (T3 Mock.flaky 2%nat (Mock.session 8) 8 1 Mock.calm [Mock.calm]
               _ _ _ _ _ H0 H1 eq_refl eq_refl eq_refl).
    vm_compute. reflexivity.
Defined.

(** C3 as stated fails for the USB collector: its first read fails, the
    error is delivered, and after the tick the loop reads and delivers
    again; it is still running when the script ends. *)
Lemma StartBitCollector_reads_on_after_an_error :
  fst (snd (bbusb.StartBitCollector Mock.flaky 2 8 1 0 0
              [Mock.calm; Mock.calm] false bbusb.world0))
  = ([Sched.ObsRead; Sched.ObsError "pipe"%string;
      Sched.ObsDeliver (bbusb.mkResult 0 8 [0] (Some "pipe"%string));
      Sched.ObsTick;
      Sched.ObsRead; Sched.ObsDeliver (bbusb.mkResult 0 8 [255] None);
      Sched.ObsTick],
     Sched.Running).
Proof. vm_compute. reflexivity. Qed.

(** A cancellation requested while the read is in flight, not during the
    wait, is still followed by the delivery of that read's batch. *)
Example delivery_after_cancel_in_read :
  fst (pseudorng.CollectBitsAtInterval Mock.entropy 8 1 true
         [Mock.cancel_reading; Mock.calm] false 0%nat)
  = ([Sched.ObsRead; Sched.ObsCancel Sched.InRead; Sched.ObsDeliver [255]],
     Sched.Returned Sched.ctxErr).
Proof. reflexivity. Qed.

Section UsbReadBits.

Import Go bbusb.

Variable d : Device.

Lemma find_endpoints_In : forall eps i o a b,
  find_endpoints eps i o = inr (Some a, b) ->
  In a eps \/ i = Some a.
Proof.
  induction eps as [|ep eps IH]; intros i o a b H; cbn [find_endpoints] in H.
  - injection H as -> _. now right.
  - destruct (ep_in ep && ep_bulk ep), (negb (ep_in ep) && ep_bulk ep),
      (ep_err ep); try discriminate;
      destruct (IH _ _ _ _ H) as [K|K];
      try (left; now right); try (now right);
      injection K as ->; left; now left.
Qed.

Lemma Open_session_packet (bitrate latencyMs : Z) (w w' : World)
  (s : DeviceSession) :
  OpenBitBabbler d bitrate latencyMs w = (Some s, None, w') ->
  exists ep, In ep (dev_endpoints d) /\ s_maxPacket s = ep_maxPacketSize ep.
Proof.
  intros Ho.
  destruct (Open_success_inv d _ _ _ _ _ _ Ho)
    as (inEp & outEp & E1 & E2 & E3 & E4).
  rewrite (Open_after_acquire d _ _ _ inEp outEp E1 E2 E3 E4) in Ho.
  rewrite initMPSSE_is_init_sequence in Ho.
  match type of Ho with
  | Spec.run_sequence ?s0 ?steps ?w0 = _ =>
      pose proof (run_sequence_shape s0 steps w0
                    (quiet_init_sequence d _ _)) as H
  end.
  rewrite Ho in H. destruct H as (-> & _).
  exists inEp. split; [|reflexivity].
  destruct (find_endpoints_In _ _ _ _ _ E4) as [K|K]; [exact K|discriminate].
Qed.

Lemma ReadRandom_returns_full (s : DeviceSession) (fuel : nat)
  (buf : list Z) (w : World) :
  2 < s_maxPacket s ->
  match ReadRandom d fuel s buf w with
  | Done (got, None, out) _ => got = len buf /\ len out = len buf
  | Panic _ => False
  | _ => True
  end.
Proof.
  intros Hmp. unfold ReadRandom.
  destruct (len buf =? 0) eqn:E0.
  { apply Z.eqb_eq in E0. split; congruence. }
  unfold outWrite. destruct (dev_out d (n_out w)); trivial.
  set (w1 := mkWorld _ _ _ _). set (cap := _ + _).
  pose proof (read_loop_spec d (s_maxPacket s) (len buf) cap Hmp fuel 0 buf w1)
    as H.
  pose proof (len_nonneg buf).
  destruct (read_loop d fuel (s_maxPacket s) (len buf) cap 0 buf w1)
    as [[[got [e|]] out] w'|w'|w']; trivial.
  - destruct H as (k & _ & _ & _ & Hg & Hl & _); [lia|reflexivity|].
    split; assumption.
  - apply H; [lia|reflexivity].
Qed.

Lemma len_make (n : Z) : 0 <= n -> len (make n) = n.
Proof. intros H. unfold len, make. rewrite repeat_length. lia. Qed.

Lemma len_trim_bits (bits : Z) (buf : list Z) :
  len (trim_bits bits buf) = len buf.
Proof.
  unfold trim_bits. destruct (_ && _); trivial.
  unfold len. now rewrite length_mask_last.
Qed.

(** What [ReadBitsOnce] returns on success, for every device with packet
    sizes above 2: ceil(bits/8) bytes, and when [bits] is not a multiple of
    8 a last byte below [2 ^ (bits mod 8)], that is, with its high bits
    cleared and its low bits as the device sent them. *)
Lemma ReadBitsOnce_shape (fuel : nat) (bits bitrate latencyMs : Z) (w : World) :
  0 < bits <= 2 ^ 63 - 8 ->
  (forall ep, In ep (dev_endpoints d) -> 2 < ep_maxPacketSize ep) ->
  match ReadBitsOnce d fuel bits bitrate latencyMs w with
  | Done (buf, None) _ =>
      8 * (len buf - 1) < bits <= 8 * len buf /\
      (bits mod 8 <> 0 -> 0 <= last_byte buf < 2 ^ (bits mod 8))
  | Panic _ => False
  | _ => True
  end.
Proof.
  intros Hb Hmp. unfold ReadBitsOnce.
  replace (bits <=? 0) with false by (symmetry; apply Z.leb_gt; lia).
  pose proof (OpenBitBabbler_all_or_nothing d bitrate latencyMs w) as Hshape.
  destruct (OpenBitBabbler d bitrate latencyMs w) as [[[s|] [e|]] w1] eqn:Ho;
    trivial; try contradiction.
  pose proof (byteCount_ceil bits Hb) as Hc. cbv zeta in Hc.
  set (numBytes := Z.quot (int_wrap (bits + 7)) 8) in *.
  replace (numBytes <? 0) with false by (symmetry; apply Z.ltb_ge; lia).
  destruct (Open_session_packet _ _ _ _ _ Ho) as (ep & Hin & Hs).
  assert (Hl : len (make numBytes) = numBytes) by (apply len_make; lia).
  pose proof (ReadRandom_returns_full s fuel (make numBytes) w1) as H.
  rewrite Hl in H.
  destruct (ReadRandom d fuel s (make numBytes) w1)
    as [[[got [e|]] out] w2|w2|w2]; trivial;
    [|apply H; rewrite Hs; now apply Hmp].
  destruct H as (-> & Hlo); [rewrite Hs; now apply Hmp|].
  replace (numBytes <? numBytes) with false by (symmetry; apply Z.ltb_irrefl).
  rewrite len_trim_bits, Hlo. split; [exact Hc|].
  intros H8. rewrite trim_masks_high_bits; try lia.
  - apply Z.mod_pos_bound.
    pose proof (Z.mod_pos_bound bits 8 ltac:(lia)).
    apply Z.pow_pos_nonneg; lia.
  - intros ->. unfold len in Hlo. cbn in Hlo. lia.
Qed.

End UsbReadBits.

(** * Further properties of the driver *)

Section DriverExtras.

Import Go bbusb.

Variable d : Device.


Lemma find_endpoints_needs_out : forall eps i o a b,
  forallb (fun ep => negb (negb (ep_in ep) && ep_bulk ep)) eps = true ->
  find_endpoints eps i o = inr (a, Some b) -> o = Some b.
Proof.
  induction eps as [|ep eps IH]; intros i o a b Hn H; cbn [find_endpoints] in H.
  - now injection H as _ ->.
  - cbn in Hn. apply andb_prop in Hn as [H1 H2].
    apply negb_true_iff in H1. rewrite H1 in H.
    destruct (ep_in ep && ep_bulk ep); [destruct (ep_err ep); [discriminate|]|];
      eapply IH; eassumption.
Qed.

Lemma find_endpoints_needs_in : forall eps i o a b,
  forallb (fun ep => negb (ep_in ep && ep_bulk ep)) eps = true ->
  find_endpoints eps i o = inr (Some a, b) -> i = Some a.
Proof.
  induction eps as [|ep eps IH]; intros i o a b Hn H; cbn [find_endpoints] in H.
  - now injection H as ->.
  - cbn in Hn. apply andb_prop in Hn as [H1 H2].
    apply negb_true_iff in H1. rewrite H1 in H.
    destruct (negb (ep_in ep) && ep_bulk ep);
      [destruct (ep_err ep); [discriminate|]|];
      eapply IH; eassumption.
Qed.

(** X2: an open that fails before the session is built talks to no
    endpoint.  With no device on the bus the error is "BitBabbler device not
    found" and only the context was acquired and released; with an
    interface that lacks a bulk IN or a bulk OUT endpoint the open fails
    (with "bulk endpoints not found" when no endpoint lookup failed) after
    releasing interface, configuration, device handle and context.  In both
    cases no control transfer, bulk write or bulk read is issued. *)
Theorem OpenBitBabbler_fails_before_any_transfer (bitrate latencyMs : Z)
  (w : World) :
  (dev_open d = OpenNil ->
   OpenBitBabbler d bitrate latencyMs w
   = (None, Some "BitBabbler device not found"%string,
      mkWorld (n_ctl w) (n_out w) (n_in w)
        (log w ++ [EvAcquire Context; EvRelease Context]))) /\
  (dev_open d = OpenOk -> dev_config d = None -> dev_interface d = None ->
   (forallb (fun ep => negb (ep_in ep && ep_bulk ep)) (dev_endpoints d) = true \/
    forallb (fun ep => negb (negb (ep_in ep) && ep_bulk ep)) (dev_endpoints d)
    = true) ->
   exists e,
     OpenBitBabbler d bitrate latencyMs w
     = (None, Some e,
        mkWorld (n_ctl w) (n_out w) (n_in w)
          (log w ++ [EvAcquire Context; EvAcquire DeviceHandle;
                     EvAcquire Config; EvAcquire Interface;
                     EvRelease Interface; EvRelease Config;
                     EvRelease DeviceHandle; EvRelease Context])) /\
     ((forall ep, In ep (dev_endpoints d) -> ep_err ep = None) ->
      e = "bulk endpoints not found"%string)).
Proof.
  split.
  - intros E. unfold OpenBitBabbler. rewrite E.
    cbv [bind acquire release emit ret]. cbn [n_ctl n_out n_in log].
    rewrite <- app_assoc. reflexivity.
  - intros E1 E2 E3 Hno. unfold OpenBitBabbler. rewrite E1, E2, E3.
    cbv [bind acquire release_all release emit ret].
    cbn [n_ctl n_out n_in log]. rewrite <- !app_assoc. cbn [app].
    destruct (find_endpoints (dev_endpoints d) None None)
      as [e|[[a|] [b|]]] eqn:E4.
    + exists e. split; [cbn [n_ctl n_out n_in log]; rewrite <- ?app_assoc; reflexivity|]. intros Hok. exfalso.
      clear - E4 Hok. revert E4. generalize (@None EndpointDesc) at 1.
      generalize (@None EndpointDesc) at 1.
      induction (dev_endpoints d) as [|ep eps IH]; intros i o H;
        cbn [find_endpoints] in H; [discriminate|].
      assert (Hep : ep_err ep = None) by (apply Hok; now left).
      rewrite Hep in H.
      destruct (ep_in ep && ep_bulk ep), (negb (ep_in ep) && ep_bulk ep);
        eapply IH; try eassumption; intros; apply Hok; now right.
    + exfalso. destruct Hno as [Hn|Hn].
      * pose proof (find_endpoints_needs_in _ _ _ _ _ Hn E4). discriminate.
      * pose proof (find_endpoints_needs_out _ _ _ _ _ Hn E4). discriminate.
    + eexists. split; [cbn [n_ctl n_out n_in log]; rewrite <- ?app_assoc; reflexivity|]. reflexivity.
    + eexists. split; [cbn [n_ctl n_out n_in log]; rewrite <- ?app_assoc; reflexivity|]. reflexivity.
    + eexists. split; [cbn [n_ctl n_out n_in log]; rewrite <- ?app_assoc; reflexivity|]. reflexivity.
Qed.

End DriverExtras.

Lemma OpenBitBabbler_fails_before_any_transfer_witness :
  bbusb.OpenBitBabbler Cases.absent 0 0 bbusb.world0
  = (None, Some "BitBabbler device not found"%string,
     bbusb.mkWorld 0 0 0
       [bbusb.EvAcquire bbusb.Context; bbusb.EvRelease bbusb.Context]) /\
  exists e,
    bbusb.OpenBitBabbler Cases.no_out 0 0 bbusb.world0
    = (None, Some e,
       bbusb.mkWorld 0 0 0
         [bbusb.EvAcquire bbusb.Context; bbusb.EvAcquire bbusb.DeviceHandle;
          bbusb.EvAcquire bbusb.Config; bbusb.EvAcquire bbusb.Interface;
          bbusb.EvRelease bbusb.Interface; bbusb.EvRelease bbusb.Config;
          bbusb.EvRelease bbusb.DeviceHandle; bbusb.EvRelease bbusb.Context]).
Proof.
  split.
  - exact (proj1 (OpenBitBabbler_fails_before_any_transfer Cases.absent 0 0
                    bbusb.world0) eq_refl).
  - destruct (proj2 (OpenBitBabbler_fails_before_any_transfer Cases.no_out 0 0
                       bbusb.world0) eq_refl eq_refl eq_refl
                (or_intror eq_refl)) as (e & H & _).
    exists e. exact H.
Defined.

(** * The control handshake of the open *)

Section Handshake.

Import Go bbusb.

Variable d : Device.

Lemma controls_app (l1 l2 : list Event) :
  View.controls (l1 ++ l2) = View.controls l1 ++ View.controls l2.
Proof. apply flat_map_app. Qed.

Lemma ctl_free_ret {A : Type} (a : A) : View.ctl_free (ret a).
Proof. intros w. split; reflexivity. Qed.

Lemma ctl_free_bind {A B : Type} (m : M A) (k : A -> M B) :
  View.ctl_free m -> (forall a, View.ctl_free (k a)) ->
  View.ctl_free (bind m k).
Proof.
  intros Hm Hk w. unfold bind. specialize (Hm w).
  destruct (m w) as [a w1]. cbn [snd] in Hm. destruct Hm as [H1 H2].
  destruct (Hk a w1) as [H3 H4]. split; congruence.
Qed.

Lemma ctl_free_emit (e : Event) :
  View.controls [e] = [] -> View.ctl_free (emit e).
Proof.
  intros He w. unfold emit. cbn [snd log n_ctl]. rewrite controls_app, He.
  now rewrite app_nil_r.
Qed.

Lemma ctl_free_outWrite (data : list Z) : View.ctl_free (outWrite d data).
Proof.
  intros w. unfold outWrite. cbn [snd log n_ctl]. rewrite controls_app.
  cbn. now rewrite app_nil_r.
Qed.

Lemma ctl_free_inRead (cap : Z) : View.ctl_free (inRead d cap).
Proof.
  intros w. unfold inRead. cbn [snd log n_ctl]. rewrite controls_app.
  cbn. now rewrite app_nil_r.
Qed.

Lemma ctl_free_purgeRead : View.ctl_free (purgeRead d).
Proof.
  unfold purgeRead. apply ctl_free_bind; [|intros; apply ctl_free_ret].
  generalize 10%nat. induction n as [|n IH]; cbn [purgeRead_loop].
  - apply ctl_free_ret.
  - apply ctl_free_bind; [apply ctl_free_inRead|].
    intros r. destruct (_ <=? _); [apply ctl_free_ret|exact IH].
Qed.

Lemma ctl_free_checkSync (cmd : Z) : View.ctl_free (checkSync d cmd).
Proof.
  unfold checkSync. apply ctl_free_bind; [apply ctl_free_outWrite|].
  intros [e|]; [apply ctl_free_ret|].
  generalize 10%nat. induction n as [|n IH]; cbn [checkSync_loop].
  - apply ctl_free_ret.
  - apply ctl_free_bind; [apply ctl_free_inRead|].
    intros r. destruct (_ && _); [apply ctl_free_ret|exact IH].
Qed.

Lemma ctl_free_syncPair : View.ctl_free (syncPair d).
Proof.
  unfold syncPair. apply ctl_free_bind; [apply ctl_free_checkSync|].
  intros [|]; [apply ctl_free_checkSync|apply ctl_free_ret].
Qed.

Lemma ctl_free_Close (s : option DeviceSession) : View.ctl_free (Close s).
Proof.
  destruct s as [s|]; [|apply ctl_free_ret]. unfold Close.
  repeat (apply ctl_free_bind; [|intros _]);
    match goal with
    | |- View.ctl_free (if ?b then _ else _) =>
        destruct b; [apply ctl_free_emit; reflexivity|apply ctl_free_ret]
    end.
Qed.

Lemma ctl_within_free (hs : list (Z * Z * Z)) (m : M Opened) :
  View.ctl_free m -> (forall w, fst (fst (m w)) = None) ->
  View.ctl_within hs m.
Proof.
  intros Hm Hn w. exists 0%nat. destruct (Hm w) as [H1 H2].
  rewrite H1, H2, Hn. cbn [firstn]. rewrite app_nil_r, Nat.add_0_r.
  repeat split; try lia. intros K. now contradiction K.
Qed.

Lemma ctl_within_fail (hs : list (Z * Z * Z)) (s : DeviceSession) (e : error) :
  View.ctl_within hs (fail s e).
Proof.
  apply ctl_within_free.
  - unfold fail. apply ctl_free_bind; [apply ctl_free_Close|].
    intros _. apply ctl_free_ret.
  - intros w. unfold fail, bind. destruct (Close (Some s) w). reflexivity.
Qed.

Lemma ctl_within_bind_free {A : Type} (hs : list (Z * Z * Z)) (m : M A)
  (k : A -> M Opened) :
  View.ctl_free m -> (forall a, View.ctl_within hs (k a)) ->
  View.ctl_within hs (bind m k).
Proof.
  intros Hm Hk w. unfold bind. specialize (Hm w).
  destruct (m w) as [a w1]. cbn [snd] in Hm. destruct Hm as [H1 H2].
  destruct (Hk a w1) as (j & Hj & H3 & H4 & H5).
  exists j. rewrite H3, H4, H1, H2. auto.
Qed.

Lemma ctl_within_guard_free (hs : list (Z * Z * Z)) (s : DeviceSession)
  (step : M (option error)) (k : M Opened) :
  View.ctl_free step -> View.ctl_within hs k ->
  View.ctl_within hs (guard s step k).
Proof.
  intros Hs Hk. unfold guard. apply ctl_within_bind_free; [exact Hs|].
  intros [e|]; [apply ctl_within_fail|exact Hk].
Qed.

Lemma ctl_within_guard_control (hs : list (Z * Z * Z)) (s : DeviceSession)
  (req value index : Z) (k : M Opened) :
  View.ctl_within hs k ->
  View.ctl_within ((req, value, index) :: hs)
    (guard s (control d req value index) k).
Proof.
  intros Hk w. unfold guard, bind, control.
  set (w1 := mkWorld _ _ _ _).
  assert (Hc : View.controls (log w1)
               = View.controls (log w) ++ [(req, value, index)])
    by (unfold w1; cbn [log]; now rewrite controls_app).
  assert (Hn : n_ctl w1 = S (n_ctl w)) by reflexivity.
  destruct (dev_ctl d (n_ctl w)) as [e|].
  - destruct (ctl_within_fail hs s e w1) as (j & Hj & H3 & H4 & H5).
    assert (j = 0%nat) as ->.
    { destruct j; trivial. exfalso.
      unfold fail, bind in H4. destruct (Close (Some s) w1) eqn:E.
      cbn [snd] in H4.
      pose proof (ctl_free_Close (Some s) w1) as [_ K]. rewrite E in K.
      cbn [snd] in K. unfold ret in H4. cbn [snd] in H4. lia. }
    exists 1%nat. cbn [length firstn] in *.
    rewrite H3, H4, Hc, Hn, app_nil_r. repeat split; try lia.
    intros K. exfalso. apply K. unfold fail, bind.
    destruct (Close (Some s) w1). reflexivity.
  - destruct (Hk w1) as (j & Hj & H3 & H4 & H5).
    exists (S j). cbn [length firstn].
    rewrite H3, H4, Hc, Hn, <- app_assoc. cbn [app].
    repeat split; try lia. intros K. now rewrite H5.
Qed.

(** X3: the control transfers of [OpenBitBabbler] follow the vendor
    handshake: reset, event character, error character, latency timer (1 ms
    when 0 is requested), RTS/CTS flow control, bit mode reset, MPSSE bit
    mode.  Whatever the outcome, the control transfers issued are a prefix
    of this list, in this order; when a session is returned all seven were
    issued, each exactly once. *)
Theorem OpenBitBabbler_control_handshake (bitrate latencyMs : Z) (w : World) :
  let l := if latencyMs =? 0 then 1 else latencyMs in
  let hs := [ (0x00, 0, 1); (0x06, 0, 1); (0x07, 0, 1); (0x09, l, 1);
              (0x02, 0, 0x0101); (0x0B, 0, 1); (0x0B, 0x0200, 1) ] in
  let opened := OpenBitBabbler d bitrate latencyMs w in
  exists k, (k <= 7)%nat /\
    View.controls (log (snd opened)) = View.controls (log w) ++ firstn k hs /\
    n_ctl (snd opened) = (n_ctl w + k)%nat /\
    (fst (fst opened) <> None -> k = 7%nat).
Proof.
  intros l hs opened.
  assert (H : View.ctl_within hs (OpenBitBabbler d bitrate latencyMs)).
  { unfold OpenBitBabbler.
    apply ctl_within_bind_free; [apply ctl_free_emit; reflexivity|intros _].
    assert (Hrel : forall r (m : M Opened),
              View.ctl_within hs m -> View.ctl_within hs (release r ;;; m)).
    { intros r m Hm. apply ctl_within_bind_free;
        [apply ctl_free_emit; reflexivity|intros _; exact Hm]. }
    assert (Hret : forall e, View.ctl_within hs (ret (None, Some e))).
    { intros e. apply ctl_within_free; [apply ctl_free_ret|reflexivity]. }
    assert (Hall : forall e, View.ctl_within hs (release_all ;;; ret (None, Some e))).
    { intros e. unfold release_all. apply ctl_within_bind_free; [|intros _; apply Hret].
      repeat (apply ctl_free_bind; [apply ctl_free_emit; reflexivity|intros _]).
      apply ctl_free_emit; reflexivity. }
    destruct (dev_open d); auto.
    apply ctl_within_bind_free; [apply ctl_free_emit; reflexivity|intros _].
    destruct (dev_config d); auto.
    apply ctl_within_bind_free; [apply ctl_free_emit; reflexivity|intros _].
    destruct (dev_interface d); auto.
    apply ctl_within_bind_free; [apply ctl_free_emit; reflexivity|intros _].
    destruct (find_endpoints _ _ _) as [e|[[a|] [b|]]]; auto.
    unfold initMPSSE, ftdiReset, ftdiSetBitmode, ftdiSetLatencyTimer,
      ftdiSetFlowControl.
    apply ctl_within_guard_control.
    apply ctl_within_guard_free; [apply ctl_free_purgeRead|].
    (* the two special characters *)
    assert (Hsc : forall k, View.ctl_within (skipn 3 hs) k ->
              View.ctl_within (skipn 1 hs)
                (guard (mkSession true true true true (ep_number a)
                          (ep_number b) (ep_maxPacketSize a))
                   (ftdiSetSpecialChars d 0 false 0 false) k)).
    { intros k Hk w0.
      pose proof (ctl_within_guard_control _
                    (mkSession true true true true (ep_number a)
                       (ep_number b) (ep_maxPacketSize a)) 0x06 0 1 _
                    (ctl_within_guard_control _
                       (mkSession true true true true (ep_number a)
                          (ep_number b) (ep_maxPacketSize a)) 0x07 0 1 _ Hk) w0)
        as H.
      unfold guard, ftdiSetSpecialChars, bind, control, ret in *.
      cbn [ftdiReqSetEventChar ftdiReqSetErrorChar] in *.
      destruct (dev_ctl d (n_ctl w0)); exact H. }
    apply Hsc. cbn [skipn hs].
    apply ctl_within_guard_control.
    apply ctl_within_guard_control.
    apply ctl_within_guard_control.
    apply ctl_within_guard_control.
    apply ctl_within_bind_free; [apply ctl_free_emit; reflexivity|intros _].
    apply ctl_within_bind_free; [apply ctl_free_syncPair|intros ok1].
    apply ctl_within_bind_free;
      [destruct (negb ok1); [apply ctl_free_syncPair|apply ctl_free_ret]|].
    intros ok2. destruct (negb ok2); [apply ctl_within_fail|].
    apply ctl_within_guard_free; [apply ctl_free_outWrite|].
    apply ctl_within_bind_free; [apply ctl_free_emit; reflexivity|intros _].
    apply ctl_within_bind_free; [apply ctl_free_purgeRead|intros _].
    intros w0. exists 0%nat. cbn. rewrite app_nil_r, Nat.add_0_r.
    repeat split; lia. }
  destruct (H w) as (k & Hk & H1 & H2 & H3). exists k.
  repeat split; assumption.
Qed.

End Handshake.

(** * Transfer accounting of the read path *)

Section TransferAccounting.

Import Go bbusb.

Variable d : Device.

(** X4: [roundUpToMaxPacket n max], for a non-negative [n] and a positive
    packet size (with [n + max] in the range of [int]), is the least
    multiple of [max] that is not below [n]; it leaves multiples of [max]
    alone, and with a packet size of zero or less it returns [n]
    unchanged. *)
Theorem roundUpToMaxPacket_least_multiple (n max : Z) :
  0 <= n ->
  (max <= 0 -> roundUpToMaxPacket n max = n) /\
  (0 < max -> n + max < 2 ^ 63 ->
   let r := roundUpToMaxPacket n max in
   r mod max = 0 /\ n <= r < n + max /\
   (forall m, m mod max = 0 -> n <= m -> r <= m) /\
   roundUpToMaxPacket r max = r).
Proof.
  intros Hn. split.
  - intros Hm. unfold roundUpToMaxPacket.
    now replace (max <=? 0) with true by (symmetry; apply Z.leb_le; lia).
  - intros Hm _.
    assert (Hr : roundUpToMaxPacket n max mod max = 0 /\
                 n <= roundUpToMaxPacket n max < n + max).
    { unfold roundUpToMaxPacket.
      replace (max <=? 0) with false by (symmetry; apply Z.leb_gt; lia).
      rewrite Z.rem_mod_nonneg, Z.quot_div_nonneg by lia.
      pose proof (Z.div_mod n max ltac:(lia)).
      pose proof (Z.mod_pos_bound n max Hm).
      destruct (n mod max =? 0) eqn:E.
      - apply Z.eqb_eq in E. split; [exact E|lia].
      - apply Z.eqb_neq in E. split; [apply Z.mod_mul; lia|nia]. }
    cbv zeta. destruct Hr as [Hr1 Hr2]. repeat split; try assumption; try lia.
    + intros m Hm0 Hle.
      apply Z.mod_divide in Hm0; [|lia]. destruct Hm0 as [q ->].
      apply Z.mod_divide in Hr1; [|lia]. destruct Hr1 as [p Hp].
      rewrite Hp in Hr2 |- *.
      destruct (Z.le_gt_cases p q) as [K|K]; [nia|].
      assert (K' : q + 1 <= p) by lia.
      assert ((q + 1) * max <= p * max) by nia. lia.
    + unfold roundUpToMaxPacket at 1.
      replace (max <=? 0) with false by (symmetry; apply Z.leb_gt; lia).
      rewrite Z.rem_mod_nonneg by lia. rewrite Hr1. reflexivity.
Qed.

Lemma purgeRead_loop_spec : forall n w,
  exists k, (k <= n)%nat /\ (n = 0%nat \/ 1 <= k)%nat /\
    purgeRead_loop d n w
    = (tt, mkWorld (n_ctl w) (n_out w) (n_in w + k)
             (log w ++ View.bulk_reads d 8192 (n_in w) k)) /\
    (forall i, (S i < k)%nat ->
       2 < len (rd_data (received d 8192 (n_in w + i)))) /\
    ((k < n)%nat ->
     len (rd_data (received d 8192 (n_in w + (k - 1)))) <= 2).
Proof.
  unfold View.bulk_reads.
  induction n as [|n IH]; intros w.
  - exists 0%nat. cbn [purgeRead_loop seq map]. unfold ret.
    rewrite app_nil_r, Nat.add_0_r.
    destruct w. split; [lia|]. split; [now left|]. split; [reflexivity|].
    split; intros; lia.
  - cbn [purgeRead_loop]. unfold bind, inRead.
    set (rcv := received d 8192) in *. clearbody rcv.
    set (w1 := mkWorld _ _ _ _).
    destruct (len (rd_data (rcv (n_in w))) <=? 2) eqn:E.
    + exists 1%nat. unfold ret. cbn [seq map].
      replace (n_in w + 1)%nat with (S (n_in w)) by lia.
      split; [lia|]. split; [right; lia|]. split; [reflexivity|].
      split; [intros; lia|].
      intros _. apply Z.leb_le in E.
      replace (n_in w + (1 - 1))%nat with (n_in w) by lia. exact E.
    + apply Z.leb_gt in E.
      destruct (IH w1) as (k & Hk & Hk1 & Heq & Hbig & Hlast).
      exists (S k). rewrite Heq. unfold w1. cbn [n_ctl n_out n_in log].
      cbn [seq map]. rewrite <- app_assoc. cbn [app].
      replace (S (n_in w) + k)%nat with (n_in w + S k)%nat by lia.
      split; [lia|]. split; [right; lia|]. split; [reflexivity|]. split.
      * intros [|i] Hi; [now rewrite Nat.add_0_r|].
        replace (n_in w + S i)%nat with (S (n_in w) + i)%nat by lia.
        apply Hbig. lia.
      * intros Hlt. destruct Hk1 as [->|Hk1]; [lia|].
        replace (n_in w + (S k - 1))%nat with (S (n_in w) + (k - 1))%nat by lia.
        apply Hlast. lia.
Qed.

(** X5: [purgeRead] never fails and only reads.  It issues between one and
    ten bulk reads of 8192 bytes and nothing else; every read but the last
    returned more than two bytes, and when it stops before the tenth read
    the last one returned at most the two status bytes.  Read errors are
    ignored. *)
Theorem purgeRead_drains_up_to_ten (w : World) :
  exists k, (1 <= k <= 10)%nat /\
    purgeRead d w
    = (None, mkWorld (n_ctl w) (n_out w) (n_in w + k)
               (log w ++ View.bulk_reads d 8192 (n_in w) k)) /\
    (forall i, (S i < k)%nat ->
       2 < len (rd_data (received d 8192 (n_in w + i)))) /\
    ((k < 10)%nat ->
     len (rd_data (received d 8192 (n_in w + (k - 1)))) <= 2).
Proof.
  destruct (purgeRead_loop_spec 10 w) as (k & Hk & Hk1 & Heq & Hbig & Hlast).
  exists k. unfold purgeRead, bind. rewrite Heq.
  split; [lia|]. split; [reflexivity|]. split; assumption.
Qed.

Lemma bulk_reads_app (cap : Z) (i a b : nat) :
  View.bulk_reads d cap i (a + b)
  = View.bulk_reads d cap i a ++ View.bulk_reads d cap (i + a) b.
Proof. unfold View.bulk_reads. now rewrite seq_app, map_app. Qed.

(** The outer loop of [ReadRandom] only reads. *)
Lemma read_loop_accounting (mp want cap : Z) : forall fuel got buf w,
  let w' := View.world_of (read_loop d fuel mp want cap got buf w) in
  exists k, (k <= fuel)%nat /\
    w' = mkWorld (n_ctl w) (n_out w) (n_in w + k)
           (log w ++ View.bulk_reads d cap (n_in w) k).
Proof.
  induction fuel as [|fuel IH]; intros got buf w; cbn [read_loop].
  - exists 0%nat. split; [lia|]. cbn [View.bulk_reads seq map].
    rewrite app_nil_r, Nat.add_0_r. destruct w.
    destruct (got <? want); reflexivity.
  - destruct (got <? want).
    2:{ exists 0%nat. split; [lia|]. cbn. rewrite app_nil_r, Nat.add_0_r.
        now destruct w. }
    unfold inRead. set (w1 := mkWorld _ _ _ _).
    assert (H1 : w1 = mkWorld (n_ctl w) (n_out w) (n_in w + 1)
                        (log w ++ View.bulk_reads d cap (n_in w) 1)).
    { unfold w1. now rewrite Nat.add_1_r. }
    assert (Hrec : forall g b,
      exists k, (k <= S fuel)%nat /\
        View.world_of (read_loop d fuel mp want cap g b w1)
        = mkWorld (n_ctl w) (n_out w) (n_in w + k)
            (log w ++ View.bulk_reads d cap (n_in w) k)).
    { intros g b. destruct (IH g b w1) as (k & Hk & Hw).
      exists (S k). split; [lia|]. cbv zeta in Hw. rewrite Hw.
      unfold w1. cbn [n_ctl n_out n_in log].
      change (S k) with (1 + k)%nat. rewrite bulk_reads_app, <- app_assoc.
      replace (n_in w + (1 + k))%nat with (S (n_in w) + k)%nat by lia.
      now rewrite Nat.add_1_r. }
    cbv zeta.
    destruct (rd_err (received d cap (n_in w))).
    { exists 1%nat. split; [lia|exact H1]. }
    destruct (_ <=? 2); [apply Hrec|].
    destruct (walk _ _ _ _ _ _ _); [apply Hrec| |];
      (exists 1%nat; split; [lia|exact H1]).
Qed.

(** X6: a [ReadRandom] on a non-empty buffer of [n] bytes writes exactly
    one command, [0x20, lo, hi, 0x87], where [lo] and [hi] are the two low
    bytes of [n - 1]; for up to 65536 bytes they encode [n - 1] exactly,
    beyond that the length is truncated.  Everything else it does is bulk
    reads of [roundUpToMaxPacket n maxPacket + maxPacket] bytes: no control
    transfer, no second write, no release. *)
Theorem ReadRandom_one_command_then_reads (s : DeviceSession) (fuel : nat)
  (buf : list Z) (w : World) :
  1 <= len buf ->
  let n := len buf in
  let lo := (n - 1) mod 256 in
  let hi := ((n - 1) / 256) mod 256 in
  let cap := roundUpToMaxPacket n (s_maxPacket s) + s_maxPacket s in
  let w' := View.world_of (ReadRandom d fuel s buf w) in
  (exists k, (k <= fuel)%nat /\
     w' = mkWorld (n_ctl w) (S (n_out w)) (n_in w + k)
            (log w ++ EvBulkOut [0x20; lo; hi; 0x87] (dev_out d (n_out w))
                   :: View.bulk_reads d cap (n_in w) k) /\
     (dev_out d (n_out w) <> None -> k = 0%nat)) /\
  lo + 256 * hi = (n - 1) mod 65536 /\
  (n <= 65536 -> lo + 256 * hi = n - 1).
Proof.
  intros Hn n lo hi cap w'. split; [|split].
  - unfold w', ReadRandom.
    replace (len buf =? 0) with false by (symmetry; apply Z.eqb_neq; lia).
    unfold outWrite. set (w1 := mkWorld _ _ _ _).
    assert (Hcmd : [mpsseDataByteInPosMSB; to_byte (Z.land (len buf - 1) 255);
                    to_byte (Z.shiftr (len buf - 1) 8); mpsseSendImmediate]
                   = [0x20; lo; hi; 0x87]).
    { unfold to_byte, lo, hi, n, mpsseDataByteInPosMSB, mpsseSendImmediate.
      change 255 with (Z.ones 8). rewrite Z.land_ones by lia.
      rewrite Z.shiftr_div_pow2 by lia.
      change (2 ^ 8) with 256. rewrite Z.mod_mod by lia. reflexivity. }
    destruct (dev_out d (n_out w)) as [e|] eqn:Eo.
    + exists 0%nat. split; [lia|]. cbn [View.world_of]. unfold w1.
      rewrite Hcmd, Nat.add_0_r. split; reflexivity.
    + destruct (read_loop_accounting (s_maxPacket s) (len buf) cap fuel 0 buf w1)
        as (k & Hk & Hw).
      exists k. split; [exact Hk|]. split; [|intros K; now contradiction K].
      cbv zeta in Hw. unfold cap, n in Hw |- *. rewrite Hw. unfold w1.
      cbn [n_ctl n_out n_in log]. rewrite Hcmd, <- app_assoc. reflexivity.
  - unfold lo, hi. 
    pose proof (Z.div_mod (n - 1) 256 ltac:(lia)).
    pose proof (Z.div_mod ((n - 1) / 256) 256 ltac:(lia)).
    pose proof (Z.mod_pos_bound (n - 1) 256 ltac:(lia)).
    pose proof (Z.mod_pos_bound ((n - 1) / 256) 256 ltac:(lia)).
    apply Z.mod_unique_pos with (q := (n - 1) / 256 / 256); lia.
  - intros Hle. unfold lo, hi.
    pose proof (Z.div_mod (n - 1) 256 ltac:(lia)).
    assert (0 <= (n - 1) / 256 < 256).
    { split; [apply Z.div_pos; lia|apply Z.div_lt_upper_bound; lia]. }
    rewrite (Z.mod_small ((n - 1) / 256)) by lia. lia.
Qed.

End TransferAccounting.

Lemma roundUpToMaxPacket_least_multiple_witness :
  0 <= 10 /\ 0 < 8 /\ 10 + 8 < 2 ^ 63 /\
  bbusb.roundUpToMaxPacket 10 8 mod 8 = 0 /\
  10 <= bbusb.roundUpToMaxPacket 10 8 < 10 + 8 /\
  bbusb.roundUpToMaxPacket 10 0 = 10.
Proof.
  assert (H0 : 0 <= 10) by lia.
  assert (H1 : 0 < 8) by lia.
  assert (H2 : 10 + 8 < 2 ^ 63) by lia.
  assert (H3 : 0 <= 0) by lia.
  destruct (proj2 (roundUpToMaxPacket_least_multiple 10 8 H0) H1 H2)
    as (Ha & Hb & _).
  split; [exact H0|]. split; [exact H1|]. split; [exact H2|].
  split; [exact Ha|]. split; [exact Hb|].
  exact (proj1 (roundUpToMaxPacket_least_multiple 10 0 H0) H3).
Defined.

Lemma ReadRandom_one_command_then_reads_witness :
  1 <= Go.len (Go.make 10) /\
  exists k,
    View.world_of (bbusb.ReadRandom (Mock.device 8 Mock.ok Mock.ok Mock.chunked)
                     5 (Mock.session 8) (Go.make 10) bbusb.world0)
    = bbusb.mkWorld 0 1 k
        ([] ++ bbusb.EvBulkOut [0x20; 9; 0; 0x87] None
            :: View.bulk_reads (Mock.device 8 Mock.ok Mock.ok Mock.chunked)
                 24 0 k).
Proof.
  split; [vm_compute; discriminate|].
  destruct (proj1 (ReadRandom_one_command_then_reads
                     (Mock.device 8 Mock.ok Mock.ok Mock.chunked)
                     (Mock.session 8) 5 (Go.make 10) bbusb.world0
                     ltac:(vm_compute; discriminate)))
    as (k & _ & H & _).
  exists k. exact H.
Defined.

(** * Sessions are closed on every return *)

Section SessionLifetime.

Import Go bbusb Sched.

Variable d : Device.








End SessionLifetime.

(** * What the collector delivers *)

Section Deliveries.

Import Go bbusb Sched.

Variable d : Device.

Lemma deliveries_app {D : Type} (t1 t2 : list (Obs D)) :
  View.deliveries (t1 ++ t2) = View.deliveries t1 ++ View.deliveries t2.
Proof. apply flat_map_app. Qed.

Lemma reads_issued_app {D : Type} (t1 t2 : list (Obs D)) :
  View.reads_issued (t1 ++ t2)
  = (View.reads_issued t1 + View.reads_issued t2)%nat.
Proof. unfold View.reads_issued. now rewrite filter_app, length_app. Qed.

Lemma deliveries_cancel_obs {D : Type} (b : bool) (ph : Phase) :
  View.deliveries (@cancel_obs D b ph) = [] /\
  View.reads_issued (@cancel_obs D b ph) = 0%nat.
Proof. destruct b; split; reflexivity. Qed.

Lemma deliveries_error_obs {D : Type} (e : option error) :
  View.deliveries (@error_obs D e) = [] /\
  View.reads_issued (@error_obs D e) = 0%nat.
Proof. destruct e; split; reflexivity. Qed.

(** Whatever [ReadRandom] returns, the buffer keeps its length, and without
    an error it was filled. *)
Lemma ReadRandom_keeps_length (s : DeviceSession) (fuel : nat)
  (buf : list Z) (w : World) :
  2 < s_maxPacket s ->
  match ReadRandom d fuel s buf w with
  | Done (got, e, out) _ =>
      len out = len buf /\ (e = None -> got = len buf)
  | Panic _ => False
  | Spin _ => True
  end.
Proof.
  intros Hmp. unfold ReadRandom.
  destruct (len buf =? 0) eqn:E0.
  { apply Z.eqb_eq in E0. split; [reflexivity|]. intros _. congruence. }
  unfold outWrite. destruct (dev_out d (n_out w)).
  { split; [reflexivity|discriminate]. }
  set (w1 := mkWorld _ _ _ _). set (cap := _ + _).
  pose proof (read_loop_spec d (s_maxPacket s) (len buf) cap Hmp fuel 0 buf w1)
    as H.
  pose proof (len_nonneg buf).
  destruct (read_loop d fuel (s_maxPacket s) (len buf) cap 0 buf w1)
    as [[[got [e|]] out] w'|w'|w']; trivial.
  - destruct H as (k & _ & _ & _ & _ & _ & _ & Hl & _); [lia|reflexivity|].
    split; [exact Hl|discriminate].
  - destruct H as (k & _ & _ & _ & Hg & Hl & _); [lia|reflexivity|].
    split; [exact Hl|intros _; exact Hg].
  - apply H; [lia|reflexivity].
Qed.

Lemma collector_loop_deliveries (fuel : nat) (sess : DeviceSession)
  (bits : Z) :
  0 < bits <= 2 ^ 63 - 8 -> 2 < s_maxPacket sess ->
  let numBytes := Z.quot (int_wrap (bits + 7)) 8 in
  forall env cancelled w,
    let '(t, x, _) :=
      collector_loop d fuel sess bits numBytes env cancelled w in
    x <> Faulted /\
    (length (View.deliveries t) <= View.reads_issued t)%nat /\
    forall r, In r (View.deliveries t) ->
      BitsRequested r = bits /\
      8 * (len (Data r) - 1) < bits <= 8 * len (Data r) /\
      (Err r = None -> bits mod 8 <> 0 ->
       0 <= last_byte (Data r) < 2 ^ (bits mod 8)).
Proof.
  intros Hb Hmp numBytes.
  pose proof (byteCount_ceil bits Hb) as Hc. cbv zeta in Hc. fold numBytes in Hc.
  assert (Hnb : 1 <= numBytes) by lia.
  induction env as [|c env IH]; intros cancelled w; cbn [collector_loop].
  - destruct cancelled; (split; [discriminate|]); (split; [cbn; lia|]);
      intros r [].
  - destruct cancelled.
    { split; [discriminate|]. split; [cbn; lia|]. intros r []. }
    replace (numBytes <? 0) with false by (symmetry; apply Z.ltb_ge; lia).
    pose proof (ReadRandom_keeps_length sess fuel (make numBytes) w Hmp) as HR.
    rewrite len_make in HR by lia.
    destruct (ReadRandom d fuel sess (make numBytes) w)
      as [[[n err] buf] w1|w1|w1]; [|contradiction|].
    2:{ split; [discriminate|]. split; [cbn; lia|]. intros r []. }
    destruct HR as [Hlen Hgot].
    set (data := if match err with None => true | Some _ => false end
                 then trim_bits bits _ else _).
    assert (Hdata : 8 * (len data - 1) < bits <= 8 * len data /\
                    (err = None -> bits mod 8 <> 0 ->
                     0 <= last_byte data < 2 ^ (bits mod 8))).
    { unfold data. destruct err as [e|]; cbn [andb].
      - rewrite Hlen. split; [exact Hc|discriminate].
      - rewrite (Hgot eq_refl), Z.ltb_irrefl, len_trim_bits, Hlen.
        split; [exact Hc|]. intros _ H8.
        rewrite trim_masks_high_bits; try lia.
        + apply Z.mod_pos_bound.
          pose proof (Z.mod_pos_bound bits 8 ltac:(lia)).
          apply Z.pow_pos_nonneg; lia.
        + intros ->. unfold len in Hlen. cbn in Hlen. lia. }
    clearbody data.
    set (t1 := ObsRead :: _ ++ _ ++ _).
    assert (Ht1 : View.deliveries t1 = [] /\ View.reads_issued t1 = 1%nat).
    { unfold t1. change (ObsRead :: ?l) with ([@ObsRead ReadResult] ++ l).
      rewrite !deliveries_app, !reads_issued_app.
      rewrite !(proj1 (deliveries_cancel_obs _ _)),
        !(proj2 (deliveries_cancel_obs _ _)),
        (proj1 (deliveries_error_obs _)), (proj2 (deliveries_error_obs _)).
      split; reflexivity. }
    clearbody t1. destruct Ht1 as [Hd1 Hr1].
    destruct (_ && send_takes_done c).
    { split; [discriminate|]. rewrite Hd1, Hr1. split; [cbn; lia|].
      intros r []. }
    set (t2 := t1 ++ [ObsDeliver _] ++ _).
    assert (Ht2 : View.deliveries t2 = [mkResult (now c) bits data err] /\
                  View.reads_issued t2 = 1%nat).
    { unfold t2. rewrite !deliveries_app, !reads_issued_app.
      rewrite (proj1 (deliveries_cancel_obs _ _)),
        (proj2 (deliveries_cancel_obs _ _)), Hd1, Hr1.
      split; reflexivity. }
    clearbody t2. destruct Ht2 as [Hd2 Hr2].
    assert (Hone : forall r, In r [mkResult (now c) bits data err] ->
              BitsRequested r = bits /\
              8 * (len (Data r) - 1) < bits <= 8 * len (Data r) /\
              (Err r = None -> bits mod 8 <> 0 ->
               0 <= last_byte (Data r) < 2 ^ (bits mod 8))).
    { intros r [<-|[]]. cbn [BitsRequested Data Err].
      split; [reflexivity|]. exact Hdata. }
    destruct (_ && wait_takes_done c).
    { split; [discriminate|]. rewrite Hd2, Hr2. split; [cbn; lia|].
      exact Hone. }
    match goal with
    | |- context [collector_loop d fuel sess bits numBytes env ?cc w1] =>
        specialize (IH cc w1);
          destruct (collector_loop d fuel sess bits numBytes env cc w1)
          as [[t' x] w2]
    end.
    destruct IH as (Hx & Hcount & Hall). split; [exact Hx|].
    change (ObsTick :: t') with ([@ObsTick ReadResult] ++ t').
    rewrite !deliveries_app, !reads_issued_app, Hd2, Hr2.
    split; [cbn [View.deliveries flat_map app length View.reads_issued filter];
            cbn [length] in *; lia|].
    intros r Hin. apply in_app_or in Hin as [Hin|Hin]; [now apply Hone|].
    cbn [View.deliveries flat_map app] in Hin. now apply Hall.
Qed.

(** X9: what [StartBitCollector] sends on its channel.  For a positive bit
    count and endpoints with packets of more than two bytes, every result
    carries the requested bit count and ceil(bits/8) bytes, also when it
    reports an error; a result without error has the bits above
    [bits mod 8] of its last byte cleared.  Each result follows a read of
    its own, and the read never panics. *)
Theorem StartBitCollector_results_well_formed (fuel : nat)
  (bits interval bitrate latencyMs : Z) (env : list Cycle) (cancelled : bool)
  (w : World) :
  0 < bits <= 2 ^ 63 - 8 ->
  (forall ep, In ep (dev_endpoints d) -> 2 < ep_maxPacketSize ep) ->
  let '(_, (t, x, _)) :=
    StartBitCollector d fuel bits interval bitrate latencyMs env cancelled w in
  x <> Faulted /\
  (length (View.deliveries t) <= View.reads_issued t)%nat /\
  forall r, In r (View.deliveries t) ->
    BitsRequested r = bits /\
    8 * (len (Data r) - 1) < bits <= 8 * len (Data r) /\
    (Err r = None -> bits mod 8 <> 0 ->
     0 <= last_byte (Data r) < 2 ^ (bits mod 8)).
Proof.
  intros Hb Hmp. unfold StartBitCollector.
  destruct (bits <=? 0).
  { split; [discriminate|]. split; [cbn; lia|]. intros r []. }
  destruct (interval <=? 0).
  { split; [discriminate|]. split; [cbn; lia|]. intros r []. }
  pose proof (OpenBitBabbler_all_or_nothing d bitrate latencyMs w) as Hshape.
  destruct (OpenBitBabbler d bitrate latencyMs w) as [[[s|] [e|]] w1] eqn:Ho;
    try contradiction.
  2:{ split; [discriminate|]. split; [cbn; lia|]. intros r []. }
  destruct (Open_session_packet d _ _ _ _ _ Ho) as (ep & Hin & Hs).
  apply collector_loop_deliveries; [exact Hb|].
  rewrite Hs. now apply Hmp.
Qed.

End Deliveries.

Lemma StartBitCollector_results_well_formed_witness :
  0 < 4 <= 2 ^ 63 - 8 /\
  fst (fst (snd (bbusb.StartBitCollector Mock.ones_device 2 4 1 0 0
                   [Mock.calm] false bbusb.world0)))
  = [Sched.ObsRead;
     Sched.ObsDeliver (bbusb.mkResult 0 4 [0x0F] None);
     Sched.ObsTick] /\
  forall r,
    In r (View.deliveries
            [Sched.ObsRead;
             Sched.ObsDeliver (bbusb.mkResult 0 4 [0x0F] None);
             Sched.ObsTick]) ->
    bbusb.BitsRequested r = 4.
Proof.
  assert (Hb : 0 < 4 <= 2 ^ 63 - 8) by lia.
  assert (Hmp : forall ep, In ep (bbusb.dev_endpoints Mock.ones_device) ->
                  2 < bbusb.ep_maxPacketSize ep).
  { intros ep [<-|[<-|[]]]; reflexivity. }
  pose proof (StartBitCollector_results_well_formed Mock.ones_device 2 4 1 0 0
                [Mock.calm] false bbusb.world0 Hb Hmp) as H.
  assert (E : fst (fst (snd (bbusb.StartBitCollector Mock.ones_device 2 4 1 0 0
                               [Mock.calm] false bbusb.world0)))
              = [Sched.ObsRead;
                 Sched.ObsDeliver (bbusb.mkResult 0 4 [0x0F] None);
                 Sched.ObsTick]) by (vm_compute; reflexivity).
  split; [exact Hb|]. split; [exact E|].
  destruct (bbusb.StartBitCollector Mock.ones_device 2 4 1 0 0
              [Mock.calm] false bbusb.world0) as [err [[t x] w']].
  cbn [fst snd] in E. subst t. intros r Hr.
  exact (proj1 (proj2 (proj2 H) r Hr)).
Defined.

(** * The one-shot read, end to end *)

Section OneShot.

Import Go bbusb.

Variable d : Device.

(** X10: [ReadBitsOnce] composes the open, one [ReadRandom] and the trim.
    For a positive bit count and endpoints with packets of more than two
    bytes, a successful call returns the first ceil(bits/8) non-header bytes
    the device sent after the open, taken from a run of reads none of which
    failed, with only the last byte masked; a failed call returns no data;
    the call never panics. *)
Theorem ReadBitsOnce_returns_device_payload (fuel : nat)
  (bits bitrate latencyMs : Z) (w : World) :
  0 < bits <= 2 ^ 63 - 8 ->
  (forall ep, In ep (dev_endpoints d) -> 2 < ep_maxPacketSize ep) ->
  match ReadBitsOnce d fuel bits bitrate latencyMs w with
  | Done (buf, None) _ =>
      exists s w1 k,
        OpenBitBabbler d bitrate latencyMs w = (Some s, None, w1) /\
        let n := (bits + 7) / 8 in
        let mp := s_maxPacket s in
        let cap := roundUpToMaxPacket n mp + mp in
        let raw :=
          firstn (Z.to_nat n)
            (Spec.payload mp (Spec.chunks d cap (n_in w1) k)) in
        Spec.clean d (n_in w1) k = true /\
        len raw = n /\
        buf = trim_bits bits raw
  | Done (buf, Some _) _ => buf = []
  | Panic _ => False
  | Spin _ => True
  end.
Proof.
  intros Hb Hmp. unfold ReadBitsOnce.
  replace (bits <=? 0) with false by (symmetry; apply Z.leb_gt; lia).
  pose proof (OpenBitBabbler_all_or_nothing d bitrate latencyMs w) as Hshape.
  destruct (OpenBitBabbler d bitrate latencyMs w) as [[[s|] [e|]] w1] eqn:Ho;
    trivial; try contradiction.
  pose proof (byteCount_ceil bits Hb) as Hc. cbv zeta in Hc.
  assert (Hq : Z.quot (int_wrap (bits + 7)) 8 = (bits + 7) / 8).
  { apply Z.div_unique with (r := bits + 7 - 8 * Z.quot (int_wrap (bits + 7)) 8);
      lia. }
  rewrite Hq in *. set (n := (bits + 7) / 8) in *.
  replace (n <? 0) with false by (symmetry; apply Z.ltb_ge; lia).
  destruct (Open_session_packet d _ _ _ _ _ Ho) as (ep & Hin & Hs).
  assert (Hmp' : 2 < s_maxPacket s) by (rewrite Hs; now apply Hmp).
  assert (Hl : len (make n) = n) by (apply len_make; lia).
  unfold ReadRandom. rewrite Hl.
  replace (n =? 0) with false by (symmetry; apply Z.eqb_neq; lia).
  unfold outWrite. destruct (dev_out d (n_out w1)); [reflexivity|].
  set (w2 := mkWorld _ _ _ _). set (cap := _ + _).
  pose proof (read_loop_spec d (s_maxPacket s) n cap Hmp' fuel 0 (make n) w2)
    as H.
  change (n_in w2) with (n_in w1) in H.
  destruct (read_loop d fuel (s_maxPacket s) n cap 0 (make n) w2)
    as [[[got [e|]] out] w'|w'|w']; trivial.
  - destruct H as (k & _ & _ & Hclean & -> & Hlen & Hp); [lia|exact Hl|].
    rewrite Z.ltb_irrefl. exists s, w1, k. split; [reflexivity|].
    cbv zeta. cbn [firstn Z.to_nat app] in Hp. rewrite Z.sub_0_r in Hp.
    rewrite firstn_all2 in Hp by (unfold len in Hlen; lia).
    fold cap. rewrite <- Hp. repeat split; assumption.
  - apply H; [lia|exact Hl].
Qed.

End OneShot.

Lemma ReadBitsOnce_returns_device_payload_witness :
  0 < 4 <= 2 ^ 63 - 8 /\
  exists s w1 w' k,
    bbusb.ReadBitsOnce Mock.ones_device 1 4 0 0 bbusb.world0
    = Go.Done ([0x0F], None) w' /\
    bbusb.OpenBitBabbler Mock.ones_device 0 0 bbusb.world0 = (Some s, None, w1) /\
    [0x0F]
    = bbusb.trim_bits 4
        (firstn (Z.to_nat ((4 + 7) / 8))
           (Spec.payload (bbusb.s_maxPacket s)
              (Spec.chunks Mock.ones_device
                 (bbusb.roundUpToMaxPacket ((4 + 7) / 8) (bbusb.s_maxPacket s)
                  + bbusb.s_maxPacket s) (bbusb.n_in w1) k))).
Proof.
  assert (Hb : 0 < 4 <= 2 ^ 63 - 8) by lia.
  assert (Hmp : forall ep, In ep (bbusb.dev_endpoints Mock.ones_device) ->
                  2 < bbusb.ep_maxPacketSize ep).
  { intros ep [<-|[<-|[]]]; reflexivity. }
  pose proof (ReadBitsOnce_returns_device_payload Mock.ones_device 1 4 0 0
                bbusb.world0 Hb Hmp) as H.
  split; [exact Hb|].
  assert (E : exists w',
            bbusb.ReadBitsOnce Mock.ones_device 1 4 0 0 bbusb.world0
            = Go.Done ([0x0F], None) w')
    by (eexists; vm_compute; reflexivity).
  destruct E as [w' E]. rewrite E in H.
  destruct H as (s & w1 & k & Ho & _ & _ & Hbuf).
  exists s, w1, w', k. split; [exact E|]. split; [exact Ho|exact Hbuf].
Defined.

(** * The serial source: what is read, and the port *)

Section SerialReads.

Import Go truerng.

Variable P : Serial.

Lemma firstn_firstn_app (n : nat) (l1 l2 : list Z) :
  firstn n l1 ++ firstn (n - length (firstn n l1)) l2 = firstn n (l1 ++ l2).
Proof.
  rewrite firstn_app, length_firstn.
  destruct (Nat.le_ge_cases n (length l1)) as [H|H].
  - rewrite Nat.min_l by exact H.
    replace (n - n)%nat with 0%nat by lia.
    replace (n - length l1)%nat with 0%nat by lia. reflexivity.
  - now rewrite Nat.min_r by exact H.
Qed.

Lemma readBytes_loop_content : forall fuel blockSize total buf w,
  0 <= total <= blockSize -> len buf = blockSize ->
  match readBytes_loop P fuel blockSize total buf w with
  | Done (out, None) w' =>
      exists k, (k <= fuel)%nat /\
        w' = mkWorld (n_enum w) (n_open w) (n_close w) (n_clock w + k)
               (n_read w + k) /\
        (forall i, (i < k)%nat ->
           ser_late P (n_clock w + i) = false /\
           ser_err P (n_read w + i) = None) /\
        out = firstn (Z.to_nat total) buf
              ++ firstn (Z.to_nat (blockSize - total))
                   (concat (map (ser_data P) (seq (n_read w) k)))
  | Done (out, Some _) w' =>
      out = [] /\ n_enum w' = n_enum w /\ n_open w' = n_open w /\
      n_close w' = n_close w
  | Panic _ => False
  | Spin w' =>
      n_enum w' = n_enum w /\ n_open w' = n_open w /\ n_close w' = n_close w
  end.
Proof.
  induction fuel as [|fuel IH]; intros blockSize total buf w Ht Hl;
    cbn [readBytes_loop].
  - destruct (total <? blockSize) eqn:E; [auto|].
    apply Z.ltb_ge in E. exists 0%nat. split; [lia|].
    rewrite !Nat.add_0_r. split; [now destruct w|]. split; [intros; lia|].
    replace (blockSize - total) with 0 by lia. cbn [Z.to_nat firstn].
    rewrite app_nil_r. symmetry. apply firstn_all2. unfold len in Hl. lia.
  - destruct (total <? blockSize) eqn:E.
    2:{ apply Z.ltb_ge in E. exists 0%nat. split; [lia|].
        rewrite !Nat.add_0_r. split; [now destruct w|]. split; [intros; lia|].
        replace (blockSize - total) with 0 by lia. cbn [Z.to_nat firstn].
        rewrite app_nil_r. symmetry. apply firstn_all2. unfold len in Hl. lia. }
    apply Z.ltb_lt in E.
    destruct (ser_late P (n_clock w)) eqn:El; [auto|].
    destruct (ser_err P (n_read w)) eqn:Ee; [auto|].
    set (data := firstn (Z.to_nat (blockSize - total)) (ser_data P (n_read w))).
    set (w2 := mkWorld _ _ _ _ _).
    assert (Hd : len data <= blockSize - total).
    { unfold data, len. rewrite length_firstn. lia. }
    pose proof (len_nonneg data) as Hd0.
    specialize (IH blockSize (total + len data) (copy_into buf total data) w2).
    destruct (readBytes_loop P fuel blockSize (total + len data)
                (copy_into buf total data) w2) as [[out [e|]] w'|w'|w'].
    + apply IH; [lia|]. unfold len. rewrite length_copy_into; try lia.
      exact Hl.
    + destruct IH as (k & Hk & Hw & Hok & Hout); [lia| |].
      { unfold len. rewrite length_copy_into; try lia. exact Hl. }
      exists (S k). split; [lia|]. split.
      { rewrite Hw. unfold w2. cbn [n_enum n_open n_close n_clock n_read].
        f_equal; lia. }
      split.
      { intros [|i] Hi.
        - rewrite !Nat.add_0_r. split; assumption.
        - specialize (Hok i ltac:(lia)). unfold w2 in Hok.
          cbn [n_clock n_read] in Hok.
          replace (n_clock w + S i)%nat with (S (n_clock w) + i)%nat by lia.
          replace (n_read w + S i)%nat with (S (n_read w) + i)%nat by lia.
          exact Hok. }
      rewrite Hout. rewrite firstn_copy_into by lia.
      unfold w2. cbn [n_read seq map concat].
      rewrite <- app_assoc. f_equal.
      replace (Z.to_nat (blockSize - (total + len data)))
        with (Z.to_nat (blockSize - total) - length data)%nat
        by (unfold len; lia).
      unfold data. apply firstn_firstn_app.
    + apply IH; [lia|]. unfold len. rewrite length_copy_into; try lia.
      exact Hl.
    + apply IH; [lia|]. unfold len. rewrite length_copy_into; try lia.
      exact Hl.
Qed.

(** X11: a successful [ReadBytes] returns exactly the first [blockSize]
    bytes the port delivered, in order, over some number [k] of reads: it
    neither drops, repeats nor reorders a byte, however the port splits the
    stream (empty reads included).  None of the [k] reads failed and the
    deadline had passed at none of the [k] checks in front of them; one
    deadline check precedes each read. *)
Theorem ReadBytes_returns_the_stream (fuel : nat) (blockSize : Z) (w : World)
  (out : list Z) (w' : World) :
  ReadBytes P fuel blockSize w = Done (out, None) w' ->
  exists k, (k <= fuel)%nat /\
    out = firstn (Z.to_nat blockSize)
            (concat (map (ser_data P) (seq (n_read w) k))) /\
    len out = blockSize /\ 0 < blockSize /\
    n_read w' = (n_read w + k)%nat /\ n_clock w' = (n_clock w + k)%nat /\
    forall i, (i < k)%nat ->
      ser_late P (n_clock w + i) = false /\ ser_err P (n_read w + i) = None.
Proof.
  unfold ReadBytes. destruct (blockSize <=? 0) eqn:E; [discriminate|].
  apply Z.leb_gt in E.
  destruct (find_port P); [discriminate|].
  destruct (open_port P); [discriminate|].
  set (w2 := mkWorld _ _ _ _ _).
  pose proof (readBytes_loop_content fuel blockSize 0 (make blockSize) w2) as H.
  pose proof (readBytes_loop_length P fuel blockSize 0 (make blockSize) w2) as HL.
  destruct (readBytes_loop P fuel blockSize 0 (make blockSize) w2)
    as [[o [e|]] w3|w3|w3]; intros Heq; try discriminate.
  injection Heq as <- <-.
  destruct H as (k & Hk & Hw & Hok & Hout); [lia|apply len_make; lia|].
  exists k. split; [exact Hk|].
  cbn [Z.to_nat firstn app] in Hout. rewrite Z.sub_0_r in Hout.
  split; [exact Hout|]. split; [apply HL; [lia|apply len_make; lia]|].
  split; [exact E|]. rewrite Hw. unfold closing.
  cbn [n_read n_clock]. repeat split; try reflexivity; apply Hok; assumption.
Qed.

(** X12: [ReadBytes] and the port.  A call with a positive block size
    enumerates the ports once; it opens a port only when one was found, and
    once; whenever the open succeeded the port is closed exactly once on
    every return, with data, with a timeout or with a read error, and it is
    never closed when the open failed.  Only a call still reading holds the
    port open.  A non-positive block size touches nothing. *)
Theorem ReadBytes_closes_the_port (fuel : nat) (blockSize : Z) (w : World) :
  let found := match find_port P with None => true | Some _ => false end in
  let opened :=
    found && match open_port P with None => true | Some _ => false end in
  let w' := View.world_of (ReadBytes P fuel blockSize w) in
  if blockSize <=? 0 then w' = w
  else
    n_enum w' = S (n_enum w) /\
    n_open w' = (n_open w + if found then 1 else 0)%nat /\
    match ReadBytes P fuel blockSize w with
    | Spin _ => opened = true /\ n_close w' = n_close w
    | _ => n_close w' = (n_close w + if opened then 1 else 0)%nat
    end.
Proof.
  cbv zeta. unfold ReadBytes. destruct (blockSize <=? 0) eqn:E; [reflexivity|].
  apply Z.leb_gt in E.
  destruct (find_port P); cbn [View.world_of n_enum n_open n_close andb].
  { repeat split; lia. }
  destruct (open_port P); cbn [View.world_of n_enum n_open n_close].
  { repeat split; lia. }
  set (w2 := mkWorld _ _ _ _ _).
  pose proof (readBytes_loop_content fuel blockSize 0 (make blockSize) w2) as H.
  destruct (readBytes_loop P fuel blockSize 0 (make blockSize) w2)
    as [[o [e|]] w3|w3|w3]; cbn [View.world_of].
  - destruct H as (_ & H1 & H2 & H3); [lia|apply len_make; lia|].
    unfold closing. cbn [n_enum n_open n_close]. rewrite H1, H2, H3.
    unfold w2. cbn [n_enum n_open n_close]. repeat split; lia.
  - destruct H as (k & _ & -> & _); [lia|apply len_make; lia|].
    unfold closing, w2. cbn [n_enum n_open n_close]. repeat split; lia.
  - destruct H; [lia|apply len_make; lia].
  - destruct H as (H1 & H2 & H3); [lia|apply len_make; lia|].
    rewrite H1, H2, H3. unfold w2. cbn [n_enum n_open n_close].
    repeat split; lia.
Qed.

End SerialReads.

Lemma ReadBytes_returns_the_stream_witness :
  exists w' k,
    truerng.ReadBytes Mock.serial 3 4 truerng.world0
    = Go.Done ([0xFF; 0xFF; 0xFF; 0xFF], None) w' /\
    [0xFF; 0xFF; 0xFF; 0xFF]
    = firstn (Z.to_nat 4)
        (concat (map (truerng.ser_data Mock.serial) (seq 0 k))).
Proof.
  assert (E : exists w',
            truerng.ReadBytes Mock.serial 3 4 truerng.world0
            = Go.Done ([0xFF; 0xFF; 0xFF; 0xFF], None) w')
    by (eexists; vm_compute; reflexivity).
  destruct E as [w' E].
  destruct (ReadBytes_returns_the_stream Mock.serial 3 4 truerng.world0 _ _ E)
    as (k & _ & Hout & _).
  exists w', k. split; [exact E|exact Hout].
Defined.

(** * What the callback loops deliver *)

Section LoopDeliveries.

Import Go Sched.

Variable W : Type.
Variable ReadBits : W -> Run W Bits.

Section Batches.

Variable Q : list Z -> Prop.
Hypothesis HQ : forall w b w1, ReadBits w = Done (b, None) w1 -> Q b.

(** Every delivered batch is the result of a successful read, and each
    follows a read of its own. *)
Lemma interval_loop_deliveries : forall env cancelled w,
  let '(t, x, _) := interval_loop W ReadBits env cancelled w in
  Forall Q (View.deliveries t) /\
  (length (View.deliveries t) <= View.reads_issued t
   <= S (length (View.deliveries t)))%nat /\
  (x = Faulted \/ x = Stuck ->
   View.reads_issued t = S (length (View.deliveries t))).
Proof.
  induction env as [|c env IH]; intros cancelled w; cbn [interval_loop].
  - destruct cancelled; cbn; repeat split; auto; try lia;
      intros [K|K]; discriminate K.
  - destruct cancelled.
    { cbn; repeat split; auto; try lia; intros [K|K]; discriminate K. }
    destruct (ReadBits w) as [[b [e|]] w1|w1|w1] eqn:ER.
    + change (ObsRead :: ?l) with ([@ObsRead (list Z)] ++ l).
      rewrite !deliveries_app, !reads_issued_app.
      rewrite (proj1 (deliveries_cancel_obs _ _)),
        (proj2 (deliveries_cancel_obs _ _)).
      cbn. repeat split; auto; try lia; intros [K|K]; discriminate K.
    + set (t := ObsRead :: _ ++ _ ++ _).
      assert (Ht : View.deliveries t = [b] /\ View.reads_issued t = 1%nat).
      { unfold t. change (ObsRead :: ?l) with ([@ObsRead (list Z)] ++ l).
        rewrite !deliveries_app, !reads_issued_app.
        rewrite !(proj1 (deliveries_cancel_obs _ _)),
          !(proj2 (deliveries_cancel_obs _ _)).
        split; reflexivity. }
      clearbody t. destruct Ht as [Hd Hr].
      destruct (_ && wait_takes_done c).
      { rewrite Hd, Hr. repeat split; try (cbn; lia).
        - constructor; [eapply HQ; eassumption|constructor].
        - intros [K|K]; discriminate K. }
      match goal with
      | |- context [interval_loop W ReadBits env ?cc w1] =>
          specialize (IH cc w1);
            destruct (interval_loop W ReadBits env cc w1) as [[t' x] w2]
      end.
      destruct IH as (HF & Hc & Hx).
      change (ObsTick :: t') with ([@ObsTick (list Z)] ++ t').
      rewrite !deliveries_app, !reads_issued_app, Hd, Hr.
      cbn [View.deliveries flat_map app View.reads_issued filter length] in *.
      repeat split; try lia.
      * constructor; [eapply HQ; eassumption|exact HF].
      * intros K. specialize (Hx K). lia.
    + cbn. repeat split; auto; lia.
    + cbn. repeat split; auto; lia.
Qed.

End Batches.

Section Worlds.

Variable nxt : W -> W.
Hypothesis Hstep : forall w,
  match ReadBits w with Done _ w1 => w1 = nxt w | _ => False end.

(** With a read that always returns and moves the world by [nxt]: the loop
    never faults, the world moves once per read, and the k-th batch is what
    the read returns in the k-th world. *)
Lemma interval_loop_worlds : forall env cancelled w,
  let '(t, x, w') := interval_loop W ReadBits env cancelled w in
  x <> Faulted /\ x <> Stuck /\
  w' = Nat.iter (View.reads_issued t) nxt w /\
  forall k b, nth_error (View.deliveries t) k = Some b ->
    ReadBits (Nat.iter k nxt w) = Done (b, None) (nxt (Nat.iter k nxt w)).
Proof.
  induction env as [|c env IH]; intros cancelled w; cbn [interval_loop].
  - destruct cancelled; cbn; repeat split; try discriminate;
      intros [|k] b K; discriminate K.
  - destruct cancelled.
    { cbn; repeat split; try discriminate; intros [|k] b K; discriminate K. }
    pose proof (Hstep w) as Hs.
    destruct (ReadBits w) as [[b [e|]] w1|w1|w1] eqn:ER; try contradiction.
    + change (ObsRead :: ?l) with ([@ObsRead (list Z)] ++ l).
      rewrite !deliveries_app, !reads_issued_app.
      rewrite (proj1 (deliveries_cancel_obs _ _)),
        (proj2 (deliveries_cancel_obs _ _)).
      cbn. repeat split; try discriminate; auto.
      intros [|k] b' K; discriminate K.
    + set (t := ObsRead :: _ ++ _ ++ _).
      assert (Ht : View.deliveries t = [b] /\ View.reads_issued t = 1%nat).
      { unfold t. change (ObsRead :: ?l) with ([@ObsRead (list Z)] ++ l).
        rewrite !deliveries_app, !reads_issued_app.
        rewrite !(proj1 (deliveries_cancel_obs _ _)),
          !(proj2 (deliveries_cancel_obs _ _)).
        split; reflexivity. }
      clearbody t. destruct Ht as [Hd Hr].
      assert (Hone : forall k b', nth_error [b] k = Some b' ->
                ReadBits (Nat.iter k nxt w)
                = Done (b', None) (nxt (Nat.iter k nxt w))).
      { intros [|[|k]] b' K; try discriminate K.
        injection K as <-. cbn. now rewrite ER, Hs. }
      destruct (_ && wait_takes_done c).
      { rewrite Hd, Hr. cbn [Nat.iter nat_rect].
        repeat split; try discriminate; auto. }
      match goal with
      | |- context [interval_loop W ReadBits env ?cc w1] =>
          specialize (IH cc w1);
            destruct (interval_loop W ReadBits env cc w1) as [[t' x] w2]
      end.
      destruct IH as (Hx1 & Hx2 & Hw & Hk).
      change (ObsTick :: t') with ([@ObsTick (list Z)] ++ t').
      rewrite !deliveries_app, !reads_issued_app, Hd, Hr.
      cbn [View.deliveries flat_map app View.reads_issued filter length].
      repeat split; try assumption.
      * rewrite Hw, Hs. cbn [Nat.add]. now rewrite Nat.iter_succ_r.
      * intros [|k] b' K.
        -- apply (Hone 0%nat). exact K.
        -- cbn [nth_error app] in K. specialize (Hk k b' K).
           rewrite Hs in Hk. rewrite Nat.iter_succ_r. exact Hk.
Qed.

End Worlds.

Section Counters.

Variable m : W -> nat.
Variable s : nat.
Hypothesis Hm : forall w,
  match ReadBits w with
  | Done _ w1 | Panic w1 => m w1 = S (m w)
  | Spin w1 => m w1 = (m w + s)%nat
  end.

(** A counter that every returning read advances by one, and a read that
    never returns by [s]. *)
Lemma interval_loop_counter : forall env cancelled w,
  let '(t, x, w') := interval_loop W ReadBits env cancelled w in
  (m w' + match x with Stuck => 1 | _ => 0 end
   = m w + View.reads_issued t + match x with Stuck => s | _ => 0 end)%nat.
Proof.
  induction env as [|c env IH]; intros cancelled w; cbn [interval_loop].
  - destruct cancelled; cbn; lia.
  - destruct cancelled; [cbn; lia|].
    pose proof (Hm w) as Hs.
    destruct (ReadBits w) as [[b [e|]] w1|w1|w1] eqn:ER.
    + change (ObsRead :: ?l) with ([@ObsRead (list Z)] ++ l).
      rewrite !reads_issued_app.
      rewrite (proj2 (deliveries_cancel_obs _ _)).
      cbn. lia.
    + set (t := ObsRead :: _ ++ _ ++ _).
      assert (Hr : View.reads_issued t = 1%nat).
      { unfold t. change (ObsRead :: ?l) with ([@ObsRead (list Z)] ++ l).
        rewrite !reads_issued_app.
        rewrite !(proj2 (deliveries_cancel_obs _ _)). reflexivity. }
      clearbody t.
      destruct (_ && wait_takes_done c).
      { rewrite Hr. lia. }
      match goal with
      | |- context [interval_loop W ReadBits env ?cc w1] =>
          specialize (IH cc w1);
            destruct (interval_loop W ReadBits env cc w1) as [[t' x] w2]
      end.
      change (ObsTick :: t') with ([@ObsTick (list Z)] ++ t').
      rewrite !reads_issued_app, Hr.
      cbn [View.reads_issued filter length app] in *. lia.
    + cbn. lia.
    + cbn. lia.
Qed.

End Counters.

End LoopDeliveries.

Section LoopFaults.

Import Go Sched.

Variable W : Type.
Variable ReadBits : W -> Run W Bits.
Hypothesis Hnp : forall w w1, ReadBits w <> Panic w1.

Lemma interval_loop_no_fault : forall env cancelled w,
  snd (fst (interval_loop W ReadBits env cancelled w)) <> Faulted.
Proof.
  induction env as [|c env IH]; intros cancelled w; cbn [interval_loop].
  - destruct cancelled; discriminate.
  - destruct cancelled; [discriminate|].
    destruct (ReadBits w) as [[b [e|]] w1|w1|w1] eqn:ER;
      try discriminate; [|now apply Hnp in ER].
    destruct (_ && wait_takes_done c); [discriminate|].
    match goal with
    | |- context [interval_loop W ReadBits env ?cc w1] =>
        specialize (IH cc w1);
          destruct (interval_loop W ReadBits env cc w1) as [[t' x] w2]
    end.
    exact IH.
Qed.

End LoopFaults.

Section SoftwareBatches.

Import Go Sched.

Lemma iter_S (k w : nat) : Nat.iter k S w = (w + k)%nat.
Proof.
  induction k as [|k IH]; [cbn; lia|].
  cbn [Nat.iter nat_rect]. change (nat_rect _ w (fun _ => S) k)
    with (Nat.iter k S w). rewrite IH. lia.
Qed.

Lemma pseudorng_ReadBits_steps (E : pseudorng.Entropy) (bitCount : Z) :
  0 < bitCount <= 2 ^ 63 - 8 ->
  forall w, match pseudorng.ReadBits E bitCount w with
            | Done _ w1 => w1 = S w
            | _ => False
            end.
Proof.
  intros Hb w. unfold pseudorng.ReadBits.
  replace (bitCount <=? 0) with false by (symmetry; apply Z.leb_gt; lia).
  pose proof (byteCount_ceil bitCount Hb) as Hc. cbv zeta in Hc.
  replace (_ <? 0) with false by (symmetry; apply Z.ltb_ge; lia).
  destruct (pseudorng.crand_err E w); reflexivity.
Qed.

(** X13: the batches of [pseudorng.CollectBitsAtInterval].  For a positive
    bit count the loop never panics; it draws from the entropy source once
    per read; batches and reads alternate, at most one read (a failed one)
    without a batch; and the k-th batch handed to the callback is what
    [ReadBits] returns on the k-th draw, which honours the padding
    contract. *)
Theorem pseudorng_collect_batches (E : pseudorng.Entropy)
  (bitCount interval : Z) (onBatch : bool) (env : list Cycle)
  (cancelled : bool) (w : pseudorng.World) :
  0 < bitCount <= 2 ^ 63 - 8 ->
  let '(t, x, w') :=
    pseudorng.CollectBitsAtInterval E bitCount interval onBatch env
      cancelled w in
  x <> Faulted /\ x <> Stuck /\
  w' = (w + View.reads_issued t)%nat /\
  (length (View.deliveries t) <= View.reads_issued t
   <= S (length (View.deliveries t)))%nat /\
  forall k b, nth_error (View.deliveries t) k = Some b ->
    pseudorng.ReadBits E bitCount (w + k)%nat = Done (b, None) (S (w + k)) /\
    View.padded bitCount b.
Proof.
  intros Hb. unfold pseudorng.CollectBitsAtInterval, collect.
  assert (Hnil : forall k (b : list Z), nth_error [] k = Some b -> False)
    by (intros [|k] b K; discriminate K).
  destruct (bitCount <=? 0).
  { cbn. rewrite Nat.add_0_r. repeat split; try discriminate; try lia.
    all: exfalso; eapply Hnil; eassumption. }
  destruct (interval <=? 0).
  { cbn. rewrite Nat.add_0_r. repeat split; try discriminate; try lia.
    all: exfalso; eapply Hnil; eassumption. }
  destruct (negb onBatch).
  { cbn. rewrite Nat.add_0_r. repeat split; try discriminate; try lia.
    all: exfalso; eapply Hnil; eassumption. }
  pose proof (interval_loop_worlds pseudorng.World
                (pseudorng.ReadBits E bitCount) S
                (pseudorng_ReadBits_steps E bitCount Hb) env cancelled w) as H1.
  pose proof (interval_loop_deliveries pseudorng.World
                (pseudorng.ReadBits E bitCount) (fun _ => True)
                (fun _ _ _ _ => I) env cancelled w) as H2.
  destruct (interval_loop pseudorng.World (pseudorng.ReadBits E bitCount)
              env cancelled w) as [[t x] w'].
  destruct H1 as (Hx1 & Hx2 & Hw & Hk). destruct H2 as (_ & Hc & _).
  rewrite iter_S in Hw.
  split; [exact Hx1|]. split; [exact Hx2|]. split; [exact Hw|].
  split; [exact Hc|]. intros k b K. specialize (Hk k b K).
  rewrite iter_S in Hk. split; [exact Hk|].
  pose proof (pseudorng_ReadBits_contract E bitCount (w + k)%nat Hb) as HC.
  rewrite Hk in HC. exact HC.
Qed.

Variable P : truerng.Serial.

Lemma truerng_ReadBits_ports (fuel : nat) (bitCount : Z) :
  0 < bitCount <= 2 ^ 63 - 8 ->
  truerng.find_port P = None -> truerng.open_port P = None ->
  forall w,
    match truerng.ReadBits P fuel bitCount w with
    | Done _ w1 =>
        truerng.n_enum w1 = S (truerng.n_enum w) /\
        truerng.n_open w1 = S (truerng.n_open w) /\
        truerng.n_close w1 = S (truerng.n_close w)
    | Panic _ => False
    | Spin w1 =>
        truerng.n_enum w1 = S (truerng.n_enum w) /\
        truerng.n_open w1 = S (truerng.n_open w) /\
        truerng.n_close w1 = truerng.n_close w
    end.
Proof.
  intros Hb Hf Ho w. unfold truerng.ReadBits, truerng.ReadBytes.
  replace (bitCount <=? 0) with false by (symmetry; apply Z.leb_gt; lia).
  pose proof (byteCount_ceil bitCount Hb) as Hc. cbv zeta in Hc.
  set (n := Z.quot _ 8) in *.
  replace (n <=? 0) with false by (symmetry; apply Z.leb_gt; lia).
  rewrite Hf, Ho. set (w2 := truerng.mkWorld _ _ _ _ _).
  pose proof (readBytes_loop_content P fuel n 0 (make n) w2) as H.
  destruct (truerng.readBytes_loop P fuel n 0 (make n) w2)
    as [[o [e|]] w3|w3|w3].
  - destruct H as (_ & H1 & H2 & H3); [lia|apply len_make; lia|].
    unfold truerng.closing. cbn. rewrite H1, H2, H3. now unfold w2.
  - destruct H as (k & _ & -> & _); [lia|apply len_make; lia|].
    unfold truerng.closing, w2. cbn. repeat split.
  - destruct H; [lia|apply len_make; lia].
  - destruct H as (H1 & H2 & H3); [lia|apply len_make; lia|].
    rewrite H1, H2, H3. unfold w2. cbn. repeat split.
Qed.

(** X14: the batches of [truerng.CollectBitsAtInterval] and the port.  For
    a positive bit count, with a device found and a port that opens, the
    loop never panics, every batch handed to the callback honours the
    padding contract, and every read enumerates the ports and opens the
    port anew: enumerations and opens equal the reads issued, and every
    opened port was closed again, except the one of a read that never
    returns. *)
Theorem truerng_collect_reopens_the_port (fuel : nat)
  (bitCount interval : Z) (onBatch : bool) (env : list Cycle)
  (cancelled : bool) (w : truerng.World) :
  0 < bitCount <= 2 ^ 63 - 8 ->
  truerng.find_port P = None -> truerng.open_port P = None ->
  let '(t, x, w') :=
    truerng.CollectBitsAtInterval P fuel bitCount interval onBatch env
      cancelled w in
  x <> Faulted /\
  Forall (View.padded bitCount) (View.deliveries t) /\
  truerng.n_enum w' = (truerng.n_enum w + View.reads_issued t)%nat /\
  truerng.n_open w' = (truerng.n_open w + View.reads_issued t)%nat /\
  (truerng.n_close w' + match x with Stuck => 1 | _ => 0 end
   = truerng.n_close w + View.reads_issued t)%nat.
Proof.
  intros Hb Hf Ho. unfold truerng.CollectBitsAtInterval, collect.
  destruct (bitCount <=? 0).
  { cbn. repeat split; try discriminate; try lia. constructor. }
  destruct (interval <=? 0).
  { cbn. repeat split; try discriminate; try lia. constructor. }
  destruct (negb onBatch).
  { cbn. repeat split; try discriminate; try lia. constructor. }
  pose proof (truerng_ReadBits_ports fuel bitCount Hb Hf Ho) as HP.
  set (RB := truerng.ReadBits P fuel bitCount) in *.
  assert (HQ : forall w0 b w1, RB w0 = Done (b, None) w1 ->
                 View.padded bitCount b).
  { intros w0 b w1 E.
    pose proof (truerng_ReadBits_contract P fuel bitCount w0 Hb) as HC.
    fold RB in HC. rewrite E in HC. exact HC. }
  assert (Hnp : forall w0 w1, RB w0 <> Panic w1).
  { intros w0 w1 E. specialize (HP w0). now rewrite E in HP. }
  pose proof (interval_loop_no_fault _ RB Hnp env cancelled w) as H0.
  pose proof (interval_loop_deliveries _ RB _ HQ env cancelled w) as H1.
  pose proof (interval_loop_counter _ RB truerng.n_enum 1) as H2.
  pose proof (interval_loop_counter _ RB truerng.n_open 1) as H3.
  pose proof (interval_loop_counter _ RB truerng.n_close 0) as H4.
  specialize (H2 ltac:(intros w0; specialize (HP w0);
                       destruct (RB w0) as [r w1|w1|w1];
                       [tauto|contradiction|lia]) env cancelled w).
  specialize (H3 ltac:(intros w0; specialize (HP w0);
                       destruct (RB w0) as [r w1|w1|w1];
                       [tauto|contradiction|lia]) env cancelled w).
  specialize (H4 ltac:(intros w0; specialize (HP w0);
                       destruct (RB w0) as [r w1|w1|w1];
                       [tauto|contradiction|lia]) env cancelled w).
  destruct (interval_loop truerng.World RB env cancelled w) as [[t x] w'].
  cbn [fst snd] in H0. destruct H1 as (HF & _ & _).
  split; [exact H0|]. split; [exact HF|].
  destruct x; repeat split; lia.
Qed.

End SoftwareBatches.

Lemma pseudorng_collect_batches_witness :
  0 < 12 <= 2 ^ 63 - 8 /\
  fst (fst (pseudorng.CollectBitsAtInterval Mock.entropy 12 1 true
              [Mock.calm; Mock.calm] false 0%nat))
  = [Sched.ObsRead; Sched.ObsDeliver [0xFF; 0xF0]; Sched.ObsTick;
     Sched.ObsRead; Sched.ObsDeliver [0xFF; 0xF0]; Sched.ObsTick] /\
  pseudorng.ReadBits Mock.entropy 12 1%nat
  = Go.Done ([0xFF; 0xF0], None) 2%nat /\
  View.padded 12 [0xFF; 0xF0].
Proof.
  assert (Hb : 0 < 12 <= 2 ^ 63 - 8) by lia.
  pose proof (pseudorng_collect_batches Mock.entropy 12 1 true
                [Mock.calm; Mock.calm] false 0%nat Hb) as H.
  assert (E : pseudorng.CollectBitsAtInterval Mock.entropy 12 1 true
                [Mock.calm; Mock.calm] false 0%nat
              = ([Sched.ObsRead; Sched.ObsDeliver [0xFF; 0xF0]; Sched.ObsTick;
                  Sched.ObsRead; Sched.ObsDeliver [0xFF; 0xF0]; Sched.ObsTick],
                 Sched.Running, 2%nat)) by (vm_compute; reflexivity).
  rewrite E in H. destruct H as (_ & _ & _ & _ & Hk).
  split; [exact Hb|]. split; [now rewrite E|].
  exact (Hk 1%nat [0xFF; 0xF0] eq_refl).
Defined.

Lemma truerng_collect_reopens_the_port_witness :
  0 < 12 <= 2 ^ 63 - 8 /\
  truerng.find_port Mock.serial = None /\
  truerng.open_port Mock.serial = None /\
  truerng.CollectBitsAtInterval Mock.serial 2 12 1 true
    [Mock.calm; Mock.calm] false truerng.world0
  = ([Sched.ObsRead; Sched.ObsDeliver [0xFF; 0xF0]; Sched.ObsTick;
      Sched.ObsRead; Sched.ObsDeliver [0xFF; 0xF0]; Sched.ObsTick],
     Sched.Running, truerng.mkWorld 2 2 2 2 2) /\
  Forall (View.padded 12) [[0xFF; 0xF0]; [0xFF; 0xF0]].
Proof.
  assert (Hb : 0 < 12 <= 2 ^ 63 - 8) by lia.
  pose proof (truerng_collect_reopens_the_port Mock.serial 2 12 1 true
                [Mock.calm; Mock.calm] false truerng.world0 Hb eq_refl eq_refl)
    as H.
  assert (E : truerng.CollectBitsAtInterval Mock.serial 2 12 1 true
                [Mock.calm; Mock.calm] false truerng.world0
              = ([Sched.ObsRead; Sched.ObsDeliver [0xFF; 0xF0]; Sched.ObsTick;
                  Sched.ObsRead; Sched.ObsDeliver [0xFF; 0xF0]; Sched.ObsTick],
                 Sched.Running, truerng.mkWorld 2 2 2 2 2))
    by (vm_compute; reflexivity).
  rewrite E in H. destruct H as (_ & HF & _).
  split; [exact Hb|]. split; [reflexivity|]. split; [reflexivity|].
  split; [exact E|exact HF].
Defined.

(** * The seeded generator *)

Section SeededGenerator.

Import Go Sched.

Variable src : prng.Source.

Lemma window_S (w n : nat) :
  prng.window src w (S n)
  = to_byte (prng.Intn256 src w) :: prng.window src (S w) n.
Proof.
  unfold prng.window. cbn [seq map]. rewrite Nat.add_0_r. f_equal.
  rewrite <- seq_shift, map_map. apply map_ext. intros j. f_equal. f_equal. lia.
Qed.

Lemma window_app (w a b : nat) :
  prng.window src w (a + b)
  = prng.window src w a ++ prng.window src (w + a) b.
Proof.
  revert w. induction a as [|a IH]; intros w.
  - cbn. now rewrite Nat.add_0_r.
  - cbn [Nat.add]. rewrite !window_S, IH. cbn [app]. do 3 f_equal. lia.
Qed.

Lemma length_window (w n : nat) : length (prng.window src w n) = n.
Proof. unfold prng.window. now rewrite length_map, length_seq. Qed.

Lemma fill_loop_spec : forall k i buf w,
  (i + k <= length buf)%nat ->
  prng.fill_loop src k (Z.of_nat i) buf w
  = (firstn i buf ++ prng.window src w k ++ skipn (i + k) buf, (w + k)%nat).
Proof.
  induction k as [|k IH]; intros i buf w Hl; cbn [prng.fill_loop].
  - cbn. rewrite !Nat.add_0_r. now rewrite firstn_skipn.
  - replace (Z.of_nat i + 1) with (Z.of_nat (S i)) by lia.
    rewrite IH.
    2:{ unfold copy_into. rewrite !length_app, length_firstn, length_skipn.
        cbn [length]. lia. }
    rewrite window_S. unfold copy_into. rewrite Nat2Z.id. cbn [length].
    f_equal; [|lia].
    rewrite firstn_app, firstn_firstn, length_firstn.
    replace (Nat.min (S i) i) with i by lia.
    replace (S i - Nat.min i (length buf))%nat with 1%nat by lia.
    cbn [firstn app]. rewrite <- app_assoc. cbn [app]. do 3 f_equal.
    rewrite skipn_app, length_firstn.
    replace (Nat.min i (length buf)) with i by lia.
    rewrite skipn_all2 by (rewrite length_firstn; lia).
    cbn [app]. replace (S i + k - i)%nat with (S k) by lia.
    cbn [skipn app]. rewrite skipn_skipn. f_equal. lia.
Qed.

Lemma nth_window (w n i : nat) :
  (i < n)%nat ->
  nth i (prng.window src w n) 0 = prng.Intn256 src (w + i) mod 256.
Proof.
  intros Hi. unfold prng.window.
  set (f := fun j => to_byte (prng.Intn256 src (w + j))).
  rewrite nth_indep with (d' := f 0%nat)
    by (rewrite length_map, length_seq; exact Hi).
  rewrite map_nth, seq_nth by exact Hi. reflexivity.
Qed.

Lemma last_as_nth : forall l : list Z, last l 0 = nth (length l - 1) l 0.
Proof.
  induction l as [|x l IH]; [reflexivity|].
  destruct l as [|y l]; [reflexivity|].
  change (last (x :: y :: l) 0) with (last (y :: l) 0). rewrite IH.
  cbn [length]. rewrite !Nat.sub_1_r. cbn [Nat.pred]. reflexivity.
Qed.

Lemma mask_last_snoc (l : list Z) (x m : Z) :
  mask_last (l ++ [x]) m = l ++ [Z.land x m].
Proof.
  unfold mask_last. rewrite rev_app_distr. cbn [rev app].
  now rewrite rev_involutive.
Qed.

Lemma mask_last_app (l1 l2 : list Z) (m : Z) :
  l2 <> [] -> mask_last (l1 ++ l2) m = l1 ++ mask_last l2 m.
Proof.
  intros H. rewrite (app_removelast_last 0 H), app_assoc, !mask_last_snoc.
  now rewrite app_assoc.
Qed.

Lemma nth_mask_last (l : list Z) (m : Z) (i : nat) :
  (S i < length l)%nat -> nth i (mask_last l m) 0 = nth i l 0.
Proof.
  intros Hi.
  assert (Hne : l <> []) by (intros ->; cbn in Hi; lia).
  rewrite (app_removelast_last 0 Hne) in Hi |- *.
  rewrite mask_last_snoc. rewrite length_app in Hi. cbn [length] in Hi.
  rewrite !app_nth1 by lia. reflexivity.
Qed.

(** What a read on a live generator returns, in closed form. *)
Lemma Generator_ReadBits_eq (bitCount : Z) (w : prng.World) :
  0 < bitCount <= 2 ^ 63 - 8 ->
  let n := Z.to_nat ((bitCount + 7) / 8) in
  let e := Z.rem (8 - Z.rem bitCount 8) 8 in
  prng.ReadBits (Some (Some src)) bitCount w
  = Done (if negb (e =? 0)
          then mask_last (prng.window src w n) (to_byte (Z.shiftl 0xFF e))
          else prng.window src w n, None) (w + n)%nat.
Proof.
  intros Hb n e. unfold prng.ReadBits.
  replace (bitCount <=? 0) with false by (symmetry; apply Z.leb_gt; lia).
  pose proof (byteCount_ceil bitCount Hb) as Hc. cbv zeta in Hc.
  assert (Hq : Z.quot (int_wrap (bitCount + 7)) 8 = (bitCount + 7) / 8).
  { apply Z.div_unique
      with (r := bitCount + 7 - 8 * Z.quot (int_wrap (bitCount + 7)) 8); lia. }
  rewrite Hq in *. fold n.
  replace (_ <? 0) with false by (symmetry; apply Z.ltb_ge; lia).
  pose proof (fill_loop_spec n 0 (make ((bitCount + 7) / 8)) w) as HF.
  cbn [Z.of_nat firstn app Nat.add] in HF. rewrite HF.
  2:{ unfold make. rewrite repeat_length. fold n. lia. }
  rewrite skipn_all2 by (unfold make; rewrite repeat_length; fold n; lia).
  rewrite app_nil_r. reflexivity.
Qed.

(** X15: [Generator.ReadBits].  A nil generator, or one without a source,
    is rejected with "generator is nil" before the bit count is looked at.
    On a live generator a positive bit count takes exactly ceil(bits/8)
    draws, one per byte and in order: byte [i] of the result is the low
    byte of draw [i], except that the unused low bits of the last byte are
    cleared; the result honours the padding contract.  The call never
    fails. *)
Theorem Generator_ReadBits_draws (bitCount : Z) (w : prng.World) :
  (forall bits, prng.ReadBits None bits w
               = Done ([], Some "generator is nil"%string) w /\
               prng.ReadBits (Some None) bits w
               = Done ([], Some "generator is nil"%string) w) /\
  (0 < bitCount <= 2 ^ 63 - 8 ->
   let n := Z.to_nat ((bitCount + 7) / 8) in
   exists buf,
     prng.ReadBits (Some (Some src)) bitCount w = Done (buf, None) (w + n)%nat /\
     length buf = n /\
     (forall i, (S i < n)%nat ->
        nth i buf 0 = prng.Intn256 src (w + i) mod 256) /\
     last_byte buf
     = (if bitCount mod 8 =? 0
        then prng.Intn256 src (w + (n - 1)) mod 256
        else Z.land (prng.Intn256 src (w + (n - 1)) mod 256)
               (256 - 2 ^ (8 - bitCount mod 8))) /\
     View.padded bitCount buf).
Proof.
  split; [intros bits; split; reflexivity|].
  intros Hb n.
  pose proof (Generator_ReadBits_eq bitCount w Hb) as HE. cbv zeta in HE.
  fold n in HE.
  pose proof (byteCount_ceil bitCount Hb) as Hc. cbv zeta in Hc.
  assert (Hq : Z.quot (int_wrap (bitCount + 7)) 8 = (bitCount + 7) / 8).
  { apply Z.div_unique
      with (r := bitCount + 7 - 8 * Z.quot (int_wrap (bitCount + 7)) 8); lia. }
  rewrite Hq in Hc.
  assert (Hn : (1 <= n)%nat) by (unfold n; lia).
  eexists. split; [exact HE|].
  set (win := prng.window src w n) in *.
  assert (Hwl : length win = n) by apply length_window.
  assert (Hnth : forall i, (i < n)%nat ->
            nth i win 0 = prng.Intn256 src (w + i) mod 256)
    by (intros i Hi; now apply nth_window).
  assert (Hlast : last_byte win = prng.Intn256 src (w + (n - 1)) mod 256).
  { unfold last_byte. rewrite last_as_nth, Hwl. apply Hnth. lia. }
  assert (Hne : win <> []) by (intros K; rewrite K in Hwl; cbn in Hwl; lia).
  pose proof (padded_after_high_mask bitCount win Hb) as HP.
  rewrite Hq in HP. specialize (HP ltac:(unfold len; rewrite Hwl; unfold n; lia)).
  cbv zeta in HP.
  destruct (Z.eq_dec (Z.rem bitCount 8) 0) as [Hr|Hr].
  - assert (Hm : bitCount mod 8 = 0) by (rewrite <- Z.rem_mod_nonneg; lia).
    rewrite Hr in *. cbn [Z.sub Z.rem Z.eqb negb] in *.
    change (Z.rem (8 - 0) 8 =? 0) with true in *. cbn [negb] in *.
    rewrite Hm. cbn [Z.eqb].
    split; [exact Hwl|]. split; [intros i Hi; apply Hnth; lia|].
    split; [exact Hlast|]. exact HP.
  - destruct (extraBits_range bitCount ltac:(lia) Hr) as [He Hrange].
    rewrite He in *.
    replace (8 - bitCount mod 8 =? 0) with false in *
      by (symmetry; apply Z.eqb_neq; lia).
    cbn [negb] in *.
    assert (Hm : bitCount mod 8 <> 0) by lia.
    replace (bitCount mod 8 =? 0) with false
      by (symmetry; apply Z.eqb_neq; lia).
    rewrite length_mask_last. split; [exact Hwl|]. split.
    + intros i Hi. rewrite nth_mask_last by lia. apply Hnth. lia.
    + split; [|exact HP].
      rewrite last_mask_last by exact Hne.
      rewrite Hlast. f_equal.
      unfold to_byte. rewrite Z.shiftl_mul_pow2 by lia.
      assert (H8 : 8 - bitCount mod 8 = 1 \/ 8 - bitCount mod 8 = 2 \/
                   8 - bitCount mod 8 = 3 \/ 8 - bitCount mod 8 = 4 \/
                   8 - bitCount mod 8 = 5 \/ 8 - bitCount mod 8 = 6 \/
                   8 - bitCount mod 8 = 7) by lia.
      destruct H8 as [->|[->|[->|[->|[->|[->| ->]]]]]]; reflexivity.
Qed.


(** X16: reads on a generator compose.  Reading [8 * a] bits and then [b]
    bits returns, concatenated, the very bytes that one read of
    [8 * a + b] bits returns from the same state, and leaves the generator
    in the same state: a byte-aligned read cuts the stream without losing
    or reusing a draw. *)
Theorem Generator_ReadBits_splits (a b : Z) (w : prng.World) :
  0 < a -> 0 < b -> 8 * a + b <= 2 ^ 63 - 8 ->
  exists buf1 buf2 w1 w2,
    prng.ReadBits (Some (Some src)) (8 * a) w = Done (buf1, None) w1 /\
    prng.ReadBits (Some (Some src)) b w1 = Done (buf2, None) w2 /\
    prng.ReadBits (Some (Some src)) (8 * a + b) w
    = Done (buf1 ++ buf2, None) w2.
Proof.
  intros Ha Hb Hab.
  pose proof (Generator_ReadBits_eq (8 * a) w ltac:(lia)) as H1.
  pose proof (Generator_ReadBits_eq (8 * a + b) w ltac:(lia)) as H3.
  cbv zeta in H1, H3.
  assert (Hn1 : (8 * a + 7) / 8 = a).
  { symmetry. apply Z.div_unique with (r := 7); lia. }
  assert (Hn3 : (8 * a + b + 7) / 8 = a + (b + 7) / 8).
  { replace (8 * a + b + 7) with (a * 8 + (b + 7)) by lia.
    rewrite Z.div_add_l by lia. reflexivity. }
  assert (Hr1 : Z.rem (8 * a) 8 = 0).
  { rewrite Z.rem_mod_nonneg by lia. rewrite Z.mul_comm. apply Z.mod_mul. lia. }
  assert (Hr3 : Z.rem (8 * a + b) 8 = Z.rem b 8).
  { rewrite !Z.rem_mod_nonneg by lia.
    replace (8 * a + b) with (b + a * 8) by lia. apply Z.mod_add. lia. }
  rewrite Hn1, Hr1 in H1. rewrite Hn3, Hr3 in H3.
  change (negb (Z.rem (8 - 0) 8 =? 0)) with false in H1. cbv iota in H1.
  pose proof (Generator_ReadBits_eq b (w + Z.to_nat a)%nat ltac:(lia)) as H2.
  cbv zeta in H2.
  assert (Hnb : 1 <= (b + 7) / 8).
  { apply Z.div_le_lower_bound; lia. }
  rewrite Z2Nat.inj_add in H3 by lia. rewrite window_app in H3.
  do 4 eexists. split; [exact H1|]. split; [exact H2|].
  rewrite H3. rewrite Nat.add_assoc.
  destruct (negb (Z.rem (8 - Z.rem b 8) 8 =? 0)); [|reflexivity].
  rewrite mask_last_app; [reflexivity|]. intros K.
  apply (f_equal (@length Z)) in K. rewrite length_window in K.
  cbn in K. lia.
Qed.

Lemma Generator_ReadBits_total (bitCount : Z) :
  0 < bitCount <= 2 ^ 63 - 8 ->
  forall w, match prng.ReadBits (Some (Some src)) bitCount w with
            | Done (_, None) w1 =>
                w1 = (w + Z.to_nat ((bitCount + 7) / 8))%nat
            | _ => False
            end.
Proof.
  intros Hb w. rewrite (Generator_ReadBits_eq bitCount w Hb). reflexivity.
Qed.

End SeededGenerator.

Section AllDelivered.

Import Go Sched.

Variable W : Type.
Variable ReadBits : W -> Run W Bits.
Hypothesis Hok : forall w,
  match ReadBits w with Done (_, None) _ => True | _ => False end.

(** With a read that cannot fail, every read is delivered and the loop ends
    only by cancellation. *)
Lemma interval_loop_all_delivered : forall env cancelled w,
  let '(t, x, _) := interval_loop W ReadBits env cancelled w in
  length (View.deliveries t) = View.reads_issued t /\
  (x = Running \/ x = Returned ctxErr).
Proof.
  induction env as [|c env IH]; intros cancelled w; cbn [interval_loop].
  - destruct cancelled; cbn; auto.
  - destruct cancelled; [cbn; auto|].
    pose proof (Hok w) as Hs.
    destruct (ReadBits w) as [[b [e|]] w1|w1|w1]; try contradiction.
    set (t := ObsRead :: _ ++ _ ++ _).
    assert (Ht : View.deliveries t = [b] /\ View.reads_issued t = 1%nat).
    { unfold t. change (ObsRead :: ?l) with ([@ObsRead (list Z)] ++ l).
      rewrite !deliveries_app, !reads_issued_app.
      rewrite !(proj1 (deliveries_cancel_obs _ _)),
        !(proj2 (deliveries_cancel_obs _ _)).
      split; reflexivity. }
    clearbody t. destruct Ht as [Hd Hr].
    destruct (_ && wait_takes_done c).
    { rewrite Hd, Hr. auto. }
    match goal with
    | |- context [interval_loop W ReadBits env ?cc w1] =>
        specialize (IH cc w1);
          destruct (interval_loop W ReadBits env cc w1) as [[t' x] w2]
    end.
    destruct IH as (Hc & Hx).
    change (ObsTick :: t') with ([@ObsTick (list Z)] ++ t').
    rewrite !deliveries_app, !reads_issued_app, Hd, Hr.
    cbn [View.deliveries flat_map app View.reads_issued filter length] in *.
    split; [lia|exact Hx].
Qed.

End AllDelivered.

Section GeneratorBatches.

Import Go Sched.

Variable src : prng.Source.

Lemma iter_add (n k w : nat) :
  Nat.iter k (fun v => (v + n)%nat) w = (w + k * n)%nat.
Proof.
  induction k as [|k IH]; [cbn; lia|].
  rewrite Nat.iter_succ, IH. lia.
Qed.

Lemma concat_windows (n : nat) : forall (l : list (list Z)) (w : nat),
  (forall k b, nth_error l k = Some b ->
     b = prng.window src (w + k * n) n) ->
  concat l = prng.window src w (length l * n).
Proof.
  induction l as [|b l IH]; intros w H; [reflexivity|].
  cbn [concat length Nat.mul]. rewrite window_app.
  rewrite (H 0%nat b eq_refl). cbn [Nat.mul]. rewrite Nat.add_0_r. f_equal.
  apply IH. intros k b' K. rewrite (H (S k) b' K). f_equal. cbn [Nat.mul]. lia.
Qed.

(** X17: the batches of [Generator.CollectBitsAtInterval].  A nil
    generator is rejected with "generator is nil" before any other check.
    On a live generator with a positive bit count the loop cannot fail: it
    ends only by cancellation, every read is delivered, and the k-th batch
    is the read of the k-th window of ceil(bits/8) draws; for a bit count
    that is a multiple of 8 the batches, concatenated, are one contiguous
    stretch of the stream, no draw skipped and none used twice. *)
Theorem Generator_collect_is_a_contiguous_stream
  (bitCount interval : Z) (onBatch : bool) (env : list Cycle)
  (cancelled : bool) (w : prng.World) :
  prng.CollectBitsAtInterval None bitCount interval onBatch env cancelled w
  = ([], Returned (Some "generator is nil"%string), w) /\
  (0 < bitCount <= 2 ^ 63 - 8 -> 0 < interval -> onBatch = true ->
   let n := Z.to_nat ((bitCount + 7) / 8) in
   let '(t, x, w') :=
     prng.CollectBitsAtInterval (Some (Some src)) bitCount interval onBatch
       env cancelled w in
   (x = Running \/ x = Returned ctxErr) /\
   length (View.deliveries t) = View.reads_issued t /\
   w' = (w + View.reads_issued t * n)%nat /\
   (forall k b, nth_error (View.deliveries t) k = Some b ->
      prng.ReadBits (Some (Some src)) bitCount (w + k * n)%nat
      = Done (b, None) (w + k * n + n)%nat) /\
   (bitCount mod 8 = 0 ->
    concat (View.deliveries t)
    = prng.window src w (length (View.deliveries t) * n))).
Proof.
  split; [reflexivity|].
  intros Hb Hi Ho n. subst onBatch.
  unfold prng.CollectBitsAtInterval, collect.
  replace (bitCount <=? 0) with false by (symmetry; apply Z.leb_gt; lia).
  replace (interval <=? 0) with false by (symmetry; apply Z.leb_gt; lia).
  cbn [negb].
  set (RB := prng.ReadBits (Some (Some src)) bitCount).
  pose proof (Generator_ReadBits_total src bitCount Hb) as HT. fold RB n in HT.
  pose proof (interval_loop_worlds prng.World RB (fun v => (v + n)%nat)) as H1.
  specialize (H1 ltac:(intros w0; specialize (HT w0);
                       destruct (RB w0) as [[b0 [e0|]] w1|w1|w1];
                       [contradiction|exact HT|contradiction|contradiction])
                env cancelled w).
  pose proof (interval_loop_all_delivered prng.World RB) as H2.
  specialize (H2 ltac:(intros w0; specialize (HT w0);
                       destruct (RB w0) as [[b0 [e0|]] w1|w1|w1];
                       [contradiction|exact I|contradiction|contradiction])
                env cancelled w).
  destruct (interval_loop prng.World RB env cancelled w) as [[t x] w'].
  destruct H1 as (_ & _ & Hw & Hk). destruct H2 as (Hc & Hx).
  rewrite iter_add in Hw.
  assert (Hk' : forall k b, nth_error (View.deliveries t) k = Some b ->
            RB (w + k * n)%nat = Done (b, None) (w + k * n + n)%nat).
  { intros k b K. specialize (Hk k b K). now rewrite iter_add in Hk. }
  split; [exact Hx|]. split; [exact Hc|]. split; [exact Hw|].
  split; [exact Hk'|].
  intros H8. apply concat_windows. intros k b K.
  specialize (Hk' k b K). unfold RB in Hk'.
  rewrite (Generator_ReadBits_eq src bitCount (w + k * n)%nat Hb) in Hk'.
  cbv zeta in Hk'. fold n in Hk'.
  assert (Hr : Z.rem bitCount 8 = 0) by (rewrite Z.rem_mod_nonneg; lia).
  rewrite Hr in Hk'.
  change (negb (Z.rem (8 - 0) 8 =? 0)) with false in Hk'. cbv iota in Hk'.
  now injection Hk' as <-.
Qed.

End GeneratorBatches.

Lemma Generator_ReadBits_draws_witness :
  0 < 12 <= 2 ^ 63 - 8 /\
  prng.ReadBits (Some (Some Cases.counting)) 12 5%nat
  = Go.Done ([255; 0], None) 7%nat /\
  prng.ReadBits None 12 5%nat
  = Go.Done ([], Some "generator is nil"%string) 5%nat.
Proof.
  assert (Hb : 0 < 12 <= 2 ^ 63 - 8) by lia.
  destruct (proj2 (Generator_ReadBits_draws Cases.counting 12 5%nat) Hb)
    as (buf & E & _).
  assert (E' : prng.ReadBits (Some (Some Cases.counting)) 12 5%nat
               = Go.Done ([255; 0], None) 7%nat) by (vm_compute; reflexivity).
  split; [exact Hb|]. split; [exact E'|].
  exact (proj1 (proj1 (Generator_ReadBits_draws Cases.counting 12 5%nat) 12)).
Defined.

Lemma Generator_ReadBits_splits_witness :
  0 < 2 /\ 0 < 12 /\ 8 * 2 + 12 <= 2 ^ 63 - 8 /\
  exists buf1 buf2 w1 w2,
    prng.ReadBits (Some (Some Cases.counting)) (8 * 2) 3%nat
    = Go.Done (buf1, None) w1 /\
    prng.ReadBits (Some (Some Cases.counting)) 12 w1
    = Go.Done (buf2, None) w2 /\
    prng.ReadBits (Some (Some Cases.counting)) (8 * 2 + 12) 3%nat
    = Go.Done (buf1 ++ buf2, None) w2.
Proof.
  assert (H1 : 0 < 2) by lia.
  assert (H2 : 0 < 12) by lia.
  assert (H3 : 8 * 2 + 12 <= 2 ^ 63 - 8) by lia.
  split; [exact H1|]. split; [exact H2|]. split; [exact H3|].
  exact (Generator_ReadBits_splits Cases.counting 2 12 3%nat H1 H2 H3).
Defined.

Lemma Generator_collect_is_a_contiguous_stream_witness :
  0 < 16 <= 2 ^ 63 - 8 /\ 0 < 1 /\
  prng.CollectBitsAtInterval (Some (Some Cases.counting)) 16 1 true
    [Mock.calm; Mock.calm] false 4%nat
  = ([Sched.ObsRead; Sched.ObsDeliver [254; 255]; Sched.ObsTick;
      Sched.ObsRead; Sched.ObsDeliver [0; 1]; Sched.ObsTick],
     Sched.Running, 8%nat) /\
  concat [[254; 255]; [0; 1]] = prng.window Cases.counting 4 (2 * 2).
Proof.
  assert (Hb : 0 < 16 <= 2 ^ 63 - 8) by lia.
  assert (Hi : 0 < 1) by lia.
  pose proof (proj2 (Generator_collect_is_a_contiguous_stream Cases.counting
                       16 1 true [Mock.calm; Mock.calm] false 4%nat)
                Hb Hi eq_refl) as H.
  assert (E : prng.CollectBitsAtInterval (Some (Some Cases.counting)) 16 1 true
                [Mock.calm; Mock.calm] false 4%nat
              = ([Sched.ObsRead; Sched.ObsDeliver [254; 255]; Sched.ObsTick;
                  Sched.ObsRead; Sched.ObsDeliver [0; 1]; Sched.ObsTick],
                 Sched.Running, 8%nat)) by (vm_compute; reflexivity).
  cbv zeta in H. rewrite E in H. destruct H as (_ & _ & _ & _ & Hc).
  split; [exact Hb|]. split; [exact Hi|]. split; [exact E|].
  exact (Hc eq_refl).
Defined.

(** * Creating a generator *)

Section NewGen.

Import Go.

Variable E : pseudorng.Entropy.
Variable mrand : Z -> prng.Source.

Lemma le_bytes_range : forall l : list Z,
  Forall (fun b => 0 <= b < 256) l ->
  0 <= fold_right (fun b acc => b + 256 * acc) 0 l < 256 ^ Z.of_nat (length l).
Proof.
  induction l as [|b l IH]; intros H; [cbn; lia|].
  inversion H as [|? ? Hb Hl]; subst. specialize (IH Hl).
  cbn [fold_right length]. rewrite Nat2Z.inj_succ, Z.pow_succ_r by lia. lia.
Qed.

Lemma crandRead_bytes (i : nat) (n : Z) :
  Forall (fun b => 0 <= b < 256) (pseudorng.crandRead E i n).
Proof.
  unfold pseudorng.crandRead. apply Forall_forall. intros b Hb.
  apply in_map_iff in Hb as (j & <- & _). unfold to_byte.
  apply Z.mod_pos_bound. lia.
Qed.

(** X18: [NewGenerator].  A non-zero seed is used as it is, converted to
    [int64]: no entropy is read and the call cannot fail.  A zero seed
    reads eight bytes of entropy, once; when that read fails no generator
    is returned, otherwise the seed is the little-endian value of the eight
    bytes, below 2^64, converted to [int64].  A generator is returned
    exactly when no error is, and a returned generator is live: a read of a
    positive number of bits on it returns data and never "generator is
    nil". *)
Theorem NewGenerator_seeds_a_live_generator (seed : Z) (w : pseudorng.World) :
  let '(g, err, w') := prng.NewGenerator E mrand seed w in
  (seed <> 0 ->
   g = Some (Some (mrand (int_wrap seed))) /\ err = None /\ w' = w) /\
  (seed = 0 ->
   w' = S w /\
   match pseudorng.crand_err E w with
   | Some e => g = None /\ err = Some e
   | None =>
       exists s, 0 <= s < 2 ^ 64 /\
         s = fold_right (fun b acc => b + 256 * acc) 0
               (pseudorng.crandRead E w 8) /\
         g = Some (Some (mrand (int_wrap s))) /\ err = None
   end) /\
  (err = None <-> g <> None) /\
  (err = None ->
   forall bits pos, 0 < bits <= 2 ^ 63 - 8 ->
     exists buf,
       prng.ReadBits g bits pos
       = Done (buf, None) (pos + Z.to_nat ((bits + 7) / 8))%nat /\
       View.padded bits buf).
Proof.
  assert (Live : forall src bits pos, 0 < bits <= 2 ^ 63 - 8 ->
            exists buf,
              prng.ReadBits (Some (Some src)) bits pos
              = Done (buf, None) (pos + Z.to_nat ((bits + 7) / 8))%nat /\
              View.padded bits buf).
  { intros src bits pos Hb.
    pose proof (Generator_ReadBits_eq src bits pos Hb) as HE. cbv zeta in HE.
    eexists. split; [exact HE|].
    pose proof (byteCount_ceil bits Hb) as Hc. cbv zeta in Hc.
    assert (Hq : Z.quot (int_wrap (bits + 7)) 8 = (bits + 7) / 8).
    { apply Z.div_unique
        with (r := bits + 7 - 8 * Z.quot (int_wrap (bits + 7)) 8); lia. }
    pose proof (padded_after_high_mask bits
                  (prng.window src pos (Z.to_nat ((bits + 7) / 8))) Hb) as HP.
    apply HP. unfold len. rewrite length_window, Hq. lia. }
  unfold prng.NewGenerator. destruct (seed =? 0) eqn:E0.
  - apply Z.eqb_eq in E0. destruct (pseudorng.crand_err E w) as [e|].
    + split; [intros K; contradiction|]. split; [auto|].
      split; [split; [discriminate|intros K; now contradiction K]|].
      discriminate.
    + split; [intros K; contradiction|]. split.
      { intros _. split; [reflexivity|]. eexists. split; [|split; [reflexivity|]].
        - pose proof (le_bytes_range (pseudorng.crandRead E w 8)
                        (crandRead_bytes w 8)) as H.
          rewrite length_crandRead in H. exact H.
        - split; [|reflexivity]. unfold prng.le_uint64.
          rewrite firstn_all2 by (rewrite length_crandRead; cbn; lia).
          reflexivity. }
      split; [split; [discriminate|reflexivity]|].
      intros _. apply Live.
  - apply Z.eqb_neq in E0. split; [auto|]. split; [intros K; contradiction|].
    split; [split; [discriminate|reflexivity]|]. intros _. apply Live.
Qed.

End NewGen.

(** * Finding the TrueRNG port *)

Section Ports.

Import String.
Import ports.

Lemma substring_prefix : forall p s : string,
  substring 0 (length p) s = p <-> exists rest, s = (p ++ rest)%string.
Proof.
  induction p as [|c p IH]; intros s.
  - split; [intros _; exists s; reflexivity|].
    intros _. destruct s; reflexivity.
  - destruct s as [|c' s]; cbn [length substring append].
    + split; [discriminate|intros [rest K]; discriminate K].
    + split.
      * intros H. injection H as -> H. apply IH in H as [rest ->].
        exists rest. reflexivity.
      * intros [rest K]. injection K as -> ->. f_equal.
        apply IH. exists rest. reflexivity.
Qed.

Lemma length_append (a b : string) :
  length (a ++ b) = (length a + length b)%nat.
Proof. induction a as [|c a IH]; cbn; [reflexivity|now rewrite IH]. Qed.

(** The three guards of the source amount to one: the string starts with
    "TrueRNG". *)
Lemma has_prefix_spec (s : string) :
  has_prefix s = true <-> exists rest, s = ("TrueRNG" ++ rest)%string.
Proof.
  unfold has_prefix. rewrite !andb_true_iff, negb_true_iff.
  rewrite String.eqb_neq, String.eqb_eq, Nat.leb_le.
  rewrite (substring_prefix DeviceNamePrefix s). split.
  - intros [_ H]. exact H.
  - intros [rest ->]. split; [split|].
    + discriminate.
    + rewrite length_append. cbn. lia.
    + exists rest. reflexivity.
Qed.

(** X19: which ports [hasTrueRNGPrefix] accepts.  A nil entry is never
    accepted.  A port is accepted exactly when its name starts with
    "TrueRNG", or it is a USB port whose product or serial number starts
    with "TrueRNG", or its VID is "16D0" and its PID one of "0AA0", "0AA2",
    "0AA4" (compared as written, upper case); the emptiness and length
    guards of the source add nothing to "starts with". *)
Theorem hasTrueRNGPrefix_accepts (p : PortDetails) :
  let starts s := exists rest, s = ("TrueRNG" ++ rest)%string in
  hasTrueRNGPrefix None = false /\
  (hasTrueRNGPrefix (Some p) = true <->
   (IsUSB p = true /\ starts (Product p)) \/
   (IsUSB p = true /\ starts (SerialNumber p)) \/
   starts (Name p) \/
   (VID p = "16D0"%string /\
    (PID p = "0AA0"%string \/ PID p = "0AA2"%string \/ PID p = "0AA4"%string))).
Proof.
  intros starts. split; [reflexivity|]. unfold hasTrueRNGPrefix.
  pose proof (has_prefix_spec (Product p)) as H1.
  pose proof (has_prefix_spec (SerialNumber p)) as H2.
  pose proof (has_prefix_spec (Name p)) as H3.
  fold (starts (Product p)) in H1. fold (starts (SerialNumber p)) in H2.
  fold (starts (Name p)) in H3.
  assert (H4 : (VID p =? "16D0")%string
               && ((PID p =? "0AA0")%string || (PID p =? "0AA2")%string
                   || (PID p =? "0AA4")%string) = true
               <-> VID p = "16D0"%string /\
                   (PID p = "0AA0"%string \/ PID p = "0AA2"%string
                    \/ PID p = "0AA4"%string)).
  { rewrite andb_true_iff, !orb_true_iff, !String.eqb_eq. tauto. }
  set (vp := (VID p =? "16D0")%string && _) in *.
  destruct (IsUSB p), (has_prefix (Product p)), (has_prefix (SerialNumber p)),
    (has_prefix (Name p)), vp; cbn [andb];
    intuition discriminate.
Qed.

Lemma detect_loop_spec : forall ps,
  detect_loop ps = true <->
  exists p, In (Some p) ps /\ hasTrueRNGPrefix (Some p) = true.
Proof.
  induction ps as [|[q|] ps IH]; cbn [detect_loop].
  - split; [discriminate|intros (p & [] & _)].
  - destruct (hasTrueRNGPrefix (Some q)) eqn:Eq.
    + split; [intros _; exists q; split; [now left|exact Eq]|reflexivity].
    + rewrite IH. split.
      * intros (p & Hin & Hp). exists p. split; [now right|exact Hp].
      * intros (p & [K|Hin] & Hp); [injection K as ->; congruence|].
        exists p. split; assumption.
  - rewrite IH. split.
    + intros (p & Hin & Hp). exists p. split; [now right|exact Hp].
    + intros (p & [K|Hin] & Hp); [discriminate K|].
      exists p. split; assumption.
Qed.

Lemma find_loop_spec : forall ps,
  match find_loop ps with
  | Some name =>
      name <> ""%string /\
      exists pre p post, ps = pre ++ Some p :: post /\ Name p = name /\
        hasTrueRNGPrefix (Some p) = true /\
        forall q, In (Some q) pre ->
          hasTrueRNGPrefix (Some q) = false \/ Name q = ""%string
  | None =>
      forall q, In (Some q) ps ->
        hasTrueRNGPrefix (Some q) = false \/ Name q = ""%string
  end.
Proof.
  induction ps as [|[q|] ps IH]; cbn [find_loop].
  - intros q [].
  - destruct (hasTrueRNGPrefix (Some q)) eqn:Eq;
      [destruct (Name q =? "")%string eqn:En; cbn [negb]|].
    + apply String.eqb_eq in En.
      destruct (find_loop ps) as [name|].
      * destruct IH as (Hne & pre & p & post & -> & Hn & Hp & Hpre).
        split; [exact Hne|]. exists (Some q :: pre), p, post.
        repeat split; try assumption.
        intros q' [K|K]; [injection K as <-; now right|now apply Hpre].
      * intros q' [K|K]; [injection K as <-; now right|now apply IH].
    + apply String.eqb_neq in En. split; [exact En|].
      exists [], q, ps. repeat split; try assumption. intros q' [].
    + destruct (find_loop ps) as [name|].
      * destruct IH as (Hne & pre & p & post & -> & Hn & Hp & Hpre).
        split; [exact Hne|]. exists (Some q :: pre), p, post.
        repeat split; try assumption.
        intros q' [K|K]; [injection K as <-; now left|now apply Hpre].
      * intros q' [K|K]; [injection K as <-; now left|now apply IH].
  - destruct (find_loop ps) as [name|].
    + destruct IH as (Hne & pre & p & post & -> & Hn & Hp & Hpre).
      split; [exact Hne|]. exists (None :: pre), p, post.
      repeat split; try assumption.
      intros q' [K|K]; [discriminate K|now apply Hpre].
    + intros q' [K|K]; [discriminate K|now apply IH].
Qed.

(** X20: [Detect] and [FindPort] on the same port listing.  An enumeration
    error makes both fail with "enumerating ports: " in front of it.
    Otherwise [Detect] never fails and is true exactly when some non-nil
    port is accepted by [hasTrueRNGPrefix]; [FindPort] returns the name of
    the first accepted port whose name is not empty, and fails with
    "TrueRNG device not found" when there is none.  So whenever [FindPort]
    finds a port [Detect] is true, but [Detect] can be true while [FindPort]
    fails: when every accepted port has an empty name. *)
Theorem Detect_and_FindPort_agree (l : Listing) :
  match l with
  | inl err =>
      Detect l = (false, Some ("enumerating ports: " ++ err)%string) /\
      FindPort l = (""%string, Some ("enumerating ports: " ++ err)%string)
  | inr ps =>
      snd (Detect l) = None /\
      (fst (Detect l) = true <->
       exists p, In (Some p) ps /\ hasTrueRNGPrefix (Some p) = true) /\
      match FindPort l with
      | (name, None) =>
          name <> ""%string /\ fst (Detect l) = true /\
          exists pre p post, ps = pre ++ Some p :: post /\ Name p = name /\
            hasTrueRNGPrefix (Some p) = true /\
            forall q, In (Some q) pre ->
              hasTrueRNGPrefix (Some q) = false \/ Name q = ""%string
      | (name, Some e) =>
          name = ""%string /\ e = "TrueRNG device not found"%string /\
          forall q, In (Some q) ps ->
            hasTrueRNGPrefix (Some q) = false \/ Name q = ""%string
      end
  end.
Proof.
  destruct l as [err|ps]; [split; reflexivity|].
  cbn [Detect FindPort fst snd]. split; [reflexivity|].
  split; [apply detect_loop_spec|].
  pose proof (find_loop_spec ps) as H.
  destruct (find_loop ps) as [name|].
  - destruct H as (Hne & pre & p & post & -> & Hn & Hp & Hpre).
    split; [exact Hne|]. split.
    + apply detect_loop_spec. exists p. split; [|exact Hp].
      apply in_or_app. right. now left.
    + exists pre, p, post. repeat split; assumption.
  - repeat split. exact H.
Qed.

End Ports.

Lemma NewGenerator_seeds_a_live_generator_witness :
  7 <> 0 /\
  prng.NewGenerator Mock.entropy (fun _ => Cases.counting) 7 3%nat
  = (Some (Some Cases.counting), None, 3%nat).
Proof.
  assert (H7 : 7 <> 0) by discriminate.
  pose proof (NewGenerator_seeds_a_live_generator Mock.entropy
                (fun _ => Cases.counting) 7 3%nat) as H.
  destruct (prng.NewGenerator Mock.entropy (fun _ => Cases.counting) 7 3%nat)
    as [[g err] w'].
  destruct H as (H1 & _). destruct (H1 H7) as (-> & -> & ->).
  split; [exact H7|reflexivity].
Defined.

(** * Counting the ones of a batch *)

Section CountOnes.

Import Go collect.

#[local] Arguments Z.testbit : simpl never.
#[local] Arguments Z.land : simpl never.

Lemma OnesCount8_range (b : Z) : 0 <= OnesCount8 b <= 8.
Proof.
  unfold OnesCount8. cbn [seq fold_right].
  repeat match goal with |- context [if ?c then _ else _] => destruct c end;
    lia.
Qed.

Lemma count_true_app (l1 l2 : list bool) :
  count_true (l1 ++ l2) = count_true l1 + count_true l2.
Proof. unfold count_true. rewrite filter_app, length_app. lia. Qed.

Lemma count_true_range (l : list bool) : 0 <= count_true l <= len l.
Proof.
  unfold count_true, len. pose proof (filter_length_le (fun b : bool => b) l).
  lia.
Qed.

Lemma count_true_bits_msb (b : Z) : count_true (bits_msb b) = OnesCount8 b.
Proof.
  unfold count_true, bits_msb, OnesCount8. cbn [seq map fold_right].
  cbn [Z.of_nat Pos.of_succ_nat Pos.succ Z.sub Z.add Z.opp Z.pos_sub
         Pos.pred_double Z.succ_double Z.pred_double Z.double].
  repeat match goal with
         | |- context [Z.testbit b ?i] =>
             let t := fresh "t" in
             set (t := Z.testbit b i) in *; clearbody t
         end.
  repeat match goal with t : bool |- _ => destruct t end; reflexivity.
Qed.

Lemma count_true_bitstring (l : list Z) :
  count_true (bitstring l) = sum_ones l.
Proof.
  induction l as [|b l IH]; [reflexivity|].
  unfold bitstring in *. cbn [flat_map sum_ones fold_right].
  rewrite count_true_app, count_true_bits_msb, IH. reflexivity.
Qed.

Lemma length_bitstring (l : list Z) :
  length (bitstring l) = (8 * length l)%nat.
Proof.
  induction l as [|b l IH]; [reflexivity|].
  unfold bitstring in *. cbn [flat_map]. rewrite length_app, IH.
  cbn [length bits_msb map seq]. lia.
Qed.

Lemma sum_ones_range (l : list Z) : 0 <= sum_ones l <= 8 * len l.
Proof.
  induction l as [|b l IH]; [cbn; lia|].
  cbn [sum_ones fold_right]. fold (sum_ones l).
  pose proof (OnesCount8_range b). unfold len in *. cbn [length].
  lia.
Qed.

Lemma sum_ones_app (l1 l2 : list Z) :
  sum_ones (l1 ++ l2) = sum_ones l1 + sum_ones l2.
Proof.
  induction l1 as [|b l1 IH]; [reflexivity|].
  cbn [app sum_ones fold_right]. fold (sum_ones (l1 ++ l2)) (sum_ones l1).
  rewrite IH. lia.
Qed.

(** The counting loop adds the ones of [k] successive bytes. *)
Lemma count_loop_spec (buf : list Z) : forall k i total,
  (i + k <= length buf)%nat -> 0 <= total -> total + 8 * Z.of_nat k < 2 ^ 63 ->
  count_loop buf k (Z.of_nat i) total
  = total + sum_ones (firstn k (skipn i buf)).
Proof.
  induction k as [|k IH]; intros i total Hl H0 Hb; cbn [count_loop].
  - cbn. lia.
  - rewrite Nat2Z.id.
    pose proof (OnesCount8_range (nth i buf 0)) as Hr.
    replace (Z.of_nat i + 1) with (Z.of_nat (S i)) by lia.
    unfold int_wrap. rewrite Z.mod_small by lia.
    replace (total + OnesCount8 (nth i buf 0) + 2 ^ 63 - 2 ^ 63)
      with (total + OnesCount8 (nth i buf 0)) by lia.
    rewrite IH by lia.
    assert (Hs : skipn i buf = nth i buf 0 :: skipn (S i) buf).
    { clear - Hl. revert i Hl. induction buf as [|x l IHl]; intros i Hl.
      - cbn in Hl. lia.
      - destruct i as [|i]; [reflexivity|]. cbn [skipn nth].
        apply IHl. cbn [length] in Hl. lia. }
    rewrite Hs. cbn [firstn sum_ones fold_right].
    fold (sum_ones (firstn k (skipn (S i) buf))). lia.
Qed.

(** The last byte under the mask of [u] used bits. *)
Lemma masked_last_count (x u : Z) :
  1 <= u <= 8 ->
  OnesCount8 (Z.land x (to_byte (Z.shiftl 0xFF (8 - u))))
  = count_true (firstn (Z.to_nat u) (bits_msb x)).
Proof.
  intros Hu.
  assert (H8 : u = 1 \/ u = 2 \/ u = 3 \/ u = 4 \/ u = 5 \/ u = 6 \/ u = 7
               \/ u = 8) by lia.
  unfold OnesCount8, count_true, bits_msb.
  destruct H8 as [->|[->|[->|[->|[->|[->|[->| ->]]]]]]];
    cbn [seq map fold_right];
    rewrite !Z.land_spec;
    match goal with
    | |- context [to_byte ?m] =>
        let v := eval vm_compute in (to_byte m) in
        change (to_byte m) with v
    end;
    cbn [Z.of_nat Pos.of_succ_nat Pos.succ Z.sub Z.add Z.opp Z.pos_sub
           Pos.pred_double Z.succ_double Z.pred_double Z.double
           Z.to_nat Pos.to_nat Pos.iter_op Nat.add firstn filter length];
    repeat match goal with
           | |- context [Z.testbit x ?i] =>
               let t := fresh "t" in
               set (t := Z.testbit x i) in *; clearbody t
           end;
    repeat match goal with
           | |- context [Z.testbit ?m ?i] =>
               let v := eval vm_compute in (Z.testbit m i) in
               change (Z.testbit m i) with v
           end;
    repeat match goal with t : bool |- _ => destruct t end; reflexivity.
Qed.


(** [countOnes] on a buffer that holds all the bits asked for: the full
    bytes, then the last byte under its mask. *)
Lemma countOnes_eq (buf : list Z) (bitCount : Z) :
  0 < bitCount <= 2 ^ 63 - 8 -> bitCount <= 8 * len buf ->
  let n := (bitCount + 7) / 8 in
  let u := bitCount - 8 * (n - 1) in
  1 <= n <= len buf /\ 1 <= u <= 8 /\
  countOnes buf bitCount
  = Some (sum_ones (firstn (Z.to_nat (n - 1)) buf)
          + OnesCount8 (Z.land (nth (Z.to_nat (n - 1)) buf 0)
                          (to_byte (Z.shiftl 0xFF (8 - u))))).
Proof.
  intros Hb Hl n u.
  pose proof (byteCount_ceil bitCount Hb) as Hc. cbv zeta in Hc.
  assert (Hq : Z.quot (int_wrap (bitCount + 7)) 8 = n).
  { apply Z.div_unique
      with (r := bitCount + 7 - 8 * Z.quot (int_wrap (bitCount + 7)) 8); lia. }
  rewrite Hq in Hc.
  assert (Hn : 1 <= n <= len buf) by lia.
  assert (Hu : 1 <= u <= 8) by (unfold u; lia).
  split; [exact Hn|]. split; [exact Hu|].
  unfold countOnes. rewrite Hq.
  replace (bitCount <=? 0) with false by (symmetry; apply Z.leb_gt; lia).
  replace (len buf =? 0) with false by (symmetry; apply Z.eqb_neq; lia).
  cbn [orb].
  replace (n >? len buf) with false by (symmetry; rewrite Z.gtb_ltb; apply Z.ltb_ge; lia).
  replace (n >? 0) with true by (symmetry; rewrite Z.gtb_ltb; apply Z.ltb_lt; lia).
  assert (Hw1 : int_wrap ((n - 1) * 8) = 8 * (n - 1)).
  { unfold int_wrap. rewrite Z.mod_small by lia. lia. }
  rewrite Hw1.
  assert (Hw2 : int_wrap (bitCount - 8 * (n - 1)) = u).
  { unfold int_wrap, u. rewrite Z.mod_small by lia. lia. }
  rewrite Hw2.
  replace (u <=? 0) with false by (symmetry; apply Z.leb_gt; lia).
  replace (8 - u <? 0) with false by (symmetry; apply Z.ltb_ge; lia).
  pose proof (count_loop_spec buf (Z.to_nat (n - 1)) 0 0) as HL.
  cbn [Z.of_nat skipn] in HL. rewrite HL; [|unfold len in *; lia|lia|lia].
  cbn [Z.add].
  pose proof (sum_ones_range (firstn (Z.to_nat (n - 1)) buf)) as Hs.
  assert (Hlen : len (firstn (Z.to_nat (n - 1)) buf) = n - 1).
  { unfold len in *. rewrite length_firstn. lia. }
  rewrite Hlen in Hs.
  pose proof (OnesCount8_range
                (Z.land (nth (Z.to_nat (n - 1)) buf 0)
                   (to_byte (Z.shiftl 255 (8 - u))))) as Ho.
  unfold int_wrap. rewrite Z.mod_small by lia. f_equal. lia.
Qed.

(** X21: [countOnes] counts the leading bits.  For a positive bit count
    and a buffer that holds at least that many bits, the result is the
    number of set bits among the first [bitCount] bits of the buffer, bytes
    taken in order and bits most significant first; bits and bytes beyond
    are ignored, and the result lies between 0 and [bitCount]. *)
Theorem countOnes_counts_leading_bits (buf : list Z) (bitCount : Z) :
  0 < bitCount <= 2 ^ 63 - 8 -> bitCount <= 8 * len buf ->
  countOnes buf bitCount = Some (ones_in_first (Z.to_nat bitCount) buf) /\
  0 <= ones_in_first (Z.to_nat bitCount) buf <= bitCount.
Proof.
  intros Hb Hl.
  destruct (countOnes_eq buf bitCount Hb Hl) as (Hn & Hu & Heq).
  set (n := (bitCount + 7) / 8) in *.
  set (u := bitCount - 8 * (n - 1)) in *.
  assert (Hsplit : buf = firstn (Z.to_nat (n - 1)) buf
                         ++ nth (Z.to_nat (n - 1)) buf 0
                         :: skipn (S (Z.to_nat (n - 1))) buf).
  { rewrite <- (firstn_skipn (Z.to_nat (n - 1)) buf) at 1. f_equal.
    assert (K : forall (l : list Z) i, (i < length l)%nat ->
              skipn i l = nth i l 0 :: skipn (S i) l).
    { induction l as [|x l IHl]; intros i Hi; [cbn in Hi; lia|].
      destruct i as [|i]; [reflexivity|]. cbn [skipn nth].
      apply IHl. cbn [length] in Hi. lia. }
    apply K. unfold len in *. lia. }
  assert (Hones : ones_in_first (Z.to_nat bitCount) buf
                  = sum_ones (firstn (Z.to_nat (n - 1)) buf)
                    + OnesCount8 (Z.land (nth (Z.to_nat (n - 1)) buf 0)
                                    (to_byte (Z.shiftl 0xFF (8 - u))))).
  { unfold ones_in_first. rewrite Hsplit at 1.
    set (pre := firstn (Z.to_nat (n - 1)) buf).
    set (x := nth (Z.to_nat (n - 1)) buf 0).
    set (post := skipn _ buf).
    unfold bitstring. rewrite flat_map_app. cbn [flat_map].
    fold (bitstring pre) (bitstring post).
    assert (Hlp : length (bitstring pre) = Z.to_nat (8 * (n - 1))).
    { rewrite length_bitstring. unfold pre. rewrite length_firstn.
      unfold len in *. lia. }
    replace (Z.to_nat bitCount)
      with (length (bitstring pre) + Z.to_nat u)%nat by (unfold u; lia).
    rewrite firstn_app_2, count_true_app, count_true_bitstring.
    f_equal. rewrite firstn_app.
    replace (Z.to_nat u - length (bits_msb x))%nat with 0%nat
      by (cbn [bits_msb map seq length]; lia).
    cbn [firstn]. rewrite app_nil_r.
    symmetry. apply masked_last_count. exact Hu. }
  rewrite Hones. split; [exact Heq|].
  pose proof (sum_ones_range (firstn (Z.to_nat (n - 1)) buf)) as Hs.
  assert (Hlen : len (firstn (Z.to_nat (n - 1)) buf) = n - 1).
  { unfold len in *. rewrite length_firstn. lia. }
  rewrite Hlen in Hs.
  rewrite masked_last_count by exact Hu.
  pose proof (count_true_range
                (firstn (Z.to_nat u)
                   (bits_msb (nth (Z.to_nat (n - 1)) buf 0)))) as Hc.
  unfold len in Hc. rewrite length_firstn in Hc. unfold u in *. lia.
Qed.

(** X22: when [countOnes] panics.  A non-positive bit count or an empty
    buffer gives 0.  Otherwise, for a bit count within range, the call
    panics with a negative shift count exactly when the buffer is shorter
    than the bit count requires, that is when it holds fewer than
    [bitCount] bits: the clamp of [bytesUsed] to the buffer length leaves
    more than 8 bits for the last byte. *)
Theorem countOnes_panics_on_short_buffer (buf : list Z) (bitCount : Z) :
  bitCount <= 2 ^ 63 - 8 ->
  (bitCount <= 0 \/ buf = [] -> countOnes buf bitCount = Some 0) /\
  (countOnes buf bitCount = None <->
   0 < bitCount /\ 0 < len buf /\ 8 * len buf < bitCount).
Proof.
  intros Hb. split.
  - intros [H| ->]; unfold countOnes.
    + now replace (bitCount <=? 0) with true by (symmetry; apply Z.leb_le; lia).
    + cbn [len length Z.of_nat Z.eqb]. now rewrite orb_true_r.
  - destruct (Z.le_gt_cases bitCount 0) as [H0|H0].
    { unfold countOnes.
      replace (bitCount <=? 0) with true by (symmetry; apply Z.leb_le; lia).
      cbn [orb]. split; [discriminate|lia]. }
    pose proof (len_nonneg buf) as Hl0.
    destruct (Z.eq_dec (len buf) 0) as [He|He].
    { unfold countOnes. rewrite He. cbn [Z.eqb]. rewrite orb_true_r.
      split; [discriminate|lia]. }
    destruct (Z.le_gt_cases bitCount (8 * len buf)) as [Hle|Hgt].
    { destruct (countOnes_eq buf bitCount ltac:(lia) Hle) as (_ & _ & ->).
      split; [discriminate|lia]. }
    split; [intros _; lia|intros _].
    pose proof (byteCount_ceil bitCount ltac:(lia)) as Hc. cbv zeta in Hc.
    unfold countOnes.
    replace (bitCount <=? 0) with false by (symmetry; apply Z.leb_gt; lia).
    replace (len buf =? 0) with false by (symmetry; apply Z.eqb_neq; lia).
    cbn [orb].
    replace (_ >? len buf) with true
      by (symmetry; rewrite Z.gtb_ltb; apply Z.ltb_lt; lia).
    replace (len buf >? 0) with true
      by (symmetry; rewrite Z.gtb_ltb; apply Z.ltb_lt; lia).
    assert (Hw1 : int_wrap ((len buf - 1) * 8) = 8 * (len buf - 1)).
    { unfold int_wrap. rewrite Z.mod_small by lia. lia. }
    rewrite Hw1.
    assert (Hw2 : int_wrap (bitCount - 8 * (len buf - 1))
                  = bitCount - 8 * (len buf - 1)).
    { unfold int_wrap. rewrite Z.mod_small by lia. lia. }
    rewrite Hw2.
    replace (_ <=? 0) with false by (symmetry; apply Z.leb_gt; lia).
    now replace (_ <? 0) with true by (symmetry; apply Z.ltb_lt; lia).
Qed.

End CountOnes.

Lemma countOnes_counts_leading_bits_witness :
  0 < 12 <= 2 ^ 63 - 8 /\ 12 <= 8 * Go.len [0xF0; 0x3F; 0xFF] /\
  collect.countOnes [0xF0; 0x3F; 0xFF] 12 = Some 6 /\
  collect.ones_in_first (Z.to_nat 12) [0xF0; 0x3F; 0xFF] = 6.
Proof.
  assert (Hb : 0 < 12 <= 2 ^ 63 - 8) by lia.
  assert (Hl : 12 <= 8 * Go.len [0xF0; 0x3F; 0xFF]) by (vm_compute; discriminate).
  destruct (countOnes_counts_leading_bits [0xF0; 0x3F; 0xFF] 12 Hb Hl)
    as [H _].
  split; [exact Hb|]. split; [exact Hl|]. split; [|reflexivity].
  rewrite H. reflexivity.
Defined.

Lemma countOnes_panics_on_short_buffer_witness :
  17 <= 2 ^ 63 - 8 /\ collect.countOnes [0xFF] 17 = None /\
  collect.countOnes [0xFF] 0 = Some 0.
Proof.
  assert (Hb : 17 <= 2 ^ 63 - 8) by lia.
  assert (H0 : 0 <= 2 ^ 63 - 8) by lia.
  split; [exact Hb|]. split.
  - apply (proj2 (countOnes_panics_on_short_buffer [0xFF] 17 Hb)).
    vm_compute. repeat split.
  - apply (proj1 (countOnes_panics_on_short_buffer [0xFF] 0 H0)). left. lia.
Defined.

(** * Reader and counter together *)

Section ReadThenCount.

Import Go collect.

#[local] Arguments Z.testbit : simpl never.
#[local] Arguments Z.land : simpl never.

Lemma OnesCount8_ext (x y : Z) :
  (forall i, 0 <= i < 8 -> Z.testbit y i = Z.testbit x i) ->
  OnesCount8 y = OnesCount8 x.
Proof.
  intros H. unfold OnesCount8. cbn [seq fold_right].
  cbn [Z.of_nat Pos.of_succ_nat Pos.succ].
  rewrite !H by lia. reflexivity.
Qed.

Lemma high_mask_bits (e i : Z) :
  0 <= e < 8 -> 0 <= i < 8 ->
  Z.testbit (to_byte (Z.shiftl 0xFF e)) i = (e <=? i).
Proof.
  intros He Hi.
  assert (E : e = 0 \/ e = 1 \/ e = 2 \/ e = 3 \/ e = 4 \/ e = 5 \/ e = 6
              \/ e = 7) by lia.
  assert (I : i = 0 \/ i = 1 \/ i = 2 \/ i = 3 \/ i = 4 \/ i = 5 \/ i = 6
              \/ i = 7) by lia.
  destruct E as [->|[->|[->|[->|[->|[->|[->| ->]]]]]]];
    destruct I as [->|[->|[->|[->|[->|[->|[->| ->]]]]]]];
    vm_compute; reflexivity.
Qed.

Lemma low_mask_bits (e i : Z) :
  0 <= e < 8 -> 0 <= i < 8 ->
  Z.testbit (Z.shiftr 0xFF e) i = (i <? 8 - e).
Proof.
  intros He Hi.
  assert (E : e = 0 \/ e = 1 \/ e = 2 \/ e = 3 \/ e = 4 \/ e = 5 \/ e = 6
              \/ e = 7) by lia.
  assert (I : i = 0 \/ i = 1 \/ i = 2 \/ i = 3 \/ i = 4 \/ i = 5 \/ i = 6
              \/ i = 7) by lia.
  destruct E as [->|[->|[->|[->|[->|[->|[->| ->]]]]]]];
    destruct I as [->|[->|[->|[->|[->|[->|[->| ->]]]]]]];
    vm_compute; reflexivity.
Qed.

Lemma firstn_removelast (l : list Z) :
  firstn (length l - 1) l = removelast l.
Proof.
  destruct (list_eq_dec Z.eq_dec l []) as [->|Hne]; [reflexivity|].
  rewrite (app_removelast_last 0 Hne) at 1 2.
  rewrite length_app. cbn [length].
  replace (length (removelast l) + 1 - 1)%nat
    with (length (removelast l) + 0)%nat by lia.
  rewrite firstn_app_2. cbn [firstn]. now rewrite app_nil_r.
Qed.

Lemma nth_last (l : list Z) : nth (length l - 1) l 0 = last_byte l.
Proof. unfold last_byte. symmetry. apply last_as_nth. Qed.

(** X23: counting a padded batch loses nothing.  When a batch honours the
    padding contract for [bitCount] bits, as the batches of
    [pseudorng.ReadBits] and [truerng.ReadBits] do, [countOnes] returns
    the number of set bits of the whole batch: the mask it puts on the last
    byte only removes bits that are zero already. *)
Theorem countOnes_of_a_padded_batch (b : list Z) (bitCount : Z) :
  0 < bitCount <= 2 ^ 63 - 8 -> View.padded bitCount b ->
  countOnes b bitCount = Some (sum_ones b) /\
  (forall (E : pseudorng.Entropy) w b' w',
     pseudorng.ReadBits E bitCount w = Done (b', None) w' ->
     countOnes b' bitCount = Some (sum_ones b')).
Proof.
  assert (Main : forall b0, 0 < bitCount <= 2 ^ 63 - 8 ->
            View.padded bitCount b0 ->
            countOnes b0 bitCount = Some (sum_ones b0)).
  { clear b. intros b Hb [Hlen Hpad].
    destruct (countOnes_eq b bitCount Hb ltac:(lia)) as (Hn & Hu & ->).
    set (n := (bitCount + 7) / 8) in *.
    assert (Hnl : n = len b).
    { unfold n. symmetry. apply Z.div_unique with (r := bitCount + 7 - 8 * len b).
      - lia.
      - lia. }
    assert (Hne : b <> []) by (intros ->; cbn in Hn; lia).
    replace (Z.to_nat (n - 1)) with (length b - 1)%nat
      by (rewrite Hnl; unfold len; lia).
    rewrite firstn_removelast, nth_last.
    rewrite (app_removelast_last 0 Hne) at 3.
    rewrite sum_ones_app. cbn [sum_ones fold_right]. f_equal. f_equal.
    rewrite Z.add_0_r. fold (last_byte b).
    apply OnesCount8_ext. intros i Hi. rewrite Z.land_spec.
    rewrite high_mask_bits by lia.
    destruct (Z.leb_spec (8 - (bitCount - 8 * (n - 1))) i) as [Hle|Hgt];
      [apply andb_true_r|].
    rewrite andb_false_r. symmetry.
    assert (Hm : bitCount mod 8 = bitCount - 8 * (n - 1)).
    { symmetry. apply Z.mod_unique with (q := n - 1); lia. }
    assert (Hm0 : bitCount mod 8 <> 0) by lia.
    specialize (Hpad Hm0). rewrite Hm in Hpad.
    rewrite <- (Z.mod_pow2_bits_low (last_byte b)
                  (8 - (bitCount - 8 * (n - 1))) i) by lia.
    rewrite Hpad. apply Z.bits_0. }
  intros Hb Hp. split; [now apply Main|].
  intros E w b' w' HR. apply Main; [exact Hb|].
  pose proof (pseudorng_ReadBits_contract E bitCount w Hb) as HC.
  rewrite HR in HC. exact HC.
Qed.

(** The two masks of the BitBabbler path do not meet when at most four bits
    of the last byte are used. *)
Lemma masks_disjoint (x r : Z) :
  1 <= r <= 4 ->
  OnesCount8 (Z.land (Z.land x (Z.shiftr 0xFF (8 - r)))
                (to_byte (Z.shiftl 0xFF (8 - r)))) = 0.
Proof.
  intros Hr. transitivity (OnesCount8 0); [|reflexivity].
  apply OnesCount8_ext.
  intros i Hi. rewrite !Z.land_spec, Z.bits_0.
  rewrite high_mask_bits, low_mask_bits by lia.
  replace (8 - (8 - r)) with r by lia.
  destruct (Z.ltb_spec i r), (Z.leb_spec (8 - r) i); cbn;
    rewrite ?andb_false_r, ?andb_true_r; try reflexivity; lia.
Qed.

Variable d : bbusb.Device.

(** X24: with the BitBabbler reader of [main] the last byte is lost to the
    count.  The reader keeps the low [bitCount mod 8] bits of the last byte
    and [countOnes] counts its high [bitCount mod 8] bits; when that number
    is between 1 and 4 the two do not meet, so for packets of more than
    two bytes every batch read has ceil(bits/8) bytes, yet the count is
    the number of set bits of all bytes but the last, whatever the device
    sent in the last one. *)
Theorem bitb_count_ignores_the_last_byte (fuel : nat)
  (sess : bbusb.DeviceSession) (bitCount : Z) (w w' : bbusb.World)
  (b : list Z) :
  0 < bitCount <= 2 ^ 63 - 8 -> 1 <= bitCount mod 8 <= 4 ->
  2 < bbusb.s_maxPacket sess ->
  bitbRead d fuel sess bitCount w = Done (b, None) w' ->
  len b = (bitCount + 7) / 8 /\
  countOnes b bitCount = Some (sum_ones (removelast b)).
Proof.
  intros Hb Hr Hmp HR.
  pose proof (byteCount_ceil bitCount Hb) as Hc. cbv zeta in Hc.
  assert (Hq : Z.quot (int_wrap (bitCount + 7)) 8 = (bitCount + 7) / 8).
  { apply Z.div_unique
      with (r := bitCount + 7 - 8 * Z.quot (int_wrap (bitCount + 7)) 8); lia. }
  unfold bitbRead in HR. rewrite Hq in *.
  set (n := (bitCount + 7) / 8) in *.
  replace (n <? 0) with false in HR by (symmetry; apply Z.ltb_ge; lia).
  pose proof (ReadRandom_keeps_length d sess fuel (make n) w Hmp) as HK.
  rewrite len_make in HK by lia.
  destruct (bbusb.ReadRandom d fuel sess (make n) w)
    as [[[got [e|]] raw] w1|w1|w1]; try discriminate.
  destruct HK as [Hlen Hgot]. specialize (Hgot eq_refl). subst got.
  rewrite Hlen, Z.ltb_irrefl in HR. cbv iota in HR.
  assert (Hrem : Z.rem bitCount 8 = bitCount mod 8)
    by (apply Z.rem_mod_nonneg; lia).
  assert (Hex : Z.rem (8 - Z.rem bitCount 8) 8 = 8 - bitCount mod 8).
  { rewrite Hrem. rewrite Z.rem_mod_nonneg by lia. apply Z.mod_small. lia. }
  rewrite Hex, Hlen in HR.
  replace (8 - bitCount mod 8 =? 0) with false in HR
    by (symmetry; apply Z.eqb_neq; lia).
  replace (n >? 0) with true in HR
    by (symmetry; rewrite Z.gtb_ltb; apply Z.ltb_lt; lia).
  unfold negb, andb in HR. cbv iota in HR.
  assert (Eb : b = mask_last raw (Z.shiftr 255 (8 - bitCount mod 8)))
    by congruence.
  clear HR. subst b.
  assert (Hne : raw <> []) by (intros ->; cbn in Hlen; lia).
  assert (Hlb : len (mask_last raw (Z.shiftr 255 (8 - bitCount mod 8))) = n).
  { unfold len. rewrite length_mask_last. exact Hlen. }
  split; [exact Hlb|].
  destruct (countOnes_eq (mask_last raw (Z.shiftr 255 (8 - bitCount mod 8)))
              bitCount Hb ltac:(lia)) as (Hn & Hu & ->).
  fold n.
  assert (Hm : bitCount - 8 * (n - 1) = bitCount mod 8).
  { pose proof (Z.div_mod bitCount 8 ltac:(lia)). lia. }
  rewrite Hm.
  replace (Z.to_nat (n - 1))
    with (length (mask_last raw (Z.shiftr 255 (8 - bitCount mod 8))) - 1)%nat
    by (unfold len in Hlb; lia).
  rewrite firstn_removelast, nth_last, last_mask_last by exact Hne.
  rewrite masks_disjoint by lia. now rewrite Z.add_0_r.
Qed.

End ReadThenCount.

Lemma countOnes_of_a_padded_batch_witness :
  0 < 12 <= 2 ^ 63 - 8 /\ View.padded 12 [0xFF; 0xF0] /\
  collect.countOnes [0xFF; 0xF0] 12 = Some 12.
Proof.
  assert (Hb : 0 < 12 <= 2 ^ 63 - 8) by lia.
  assert (Hp : View.padded 12 [0xFF; 0xF0]).
  { split; [vm_compute; split; [reflexivity|discriminate]|].
    intros _. reflexivity. }
  split; [exact Hb|]. split; [exact Hp|].
  exact (proj1 (countOnes_of_a_padded_batch [0xFF; 0xF0] 12 Hb Hp)).
Defined.

Lemma bitb_count_ignores_the_last_byte_witness :
  exists w',
    0 < 4 <= 2 ^ 63 - 8 /\ 1 <= 4 mod 8 <= 4 /\
    2 < bbusb.s_maxPacket (Mock.session 8) /\
    collect.bitbRead Mock.ones_device 1 (Mock.session 8) 4
      (snd (bbusb.OpenBitBabbler Mock.ones_device 0 0 bbusb.world0))
    = Go.Done ([0x0F], None) w' /\
    collect.countOnes [0x0F] 4 = Some 0.
Proof.
  assert (Hb : 0 < 4 <= 2 ^ 63 - 8) by lia.
  assert (Hr : 1 <= 4 mod 8 <= 4) by (vm_compute; split; discriminate).
  assert (Hmp : 2 < bbusb.s_maxPacket (Mock.session 8)) by reflexivity.
  assert (E : exists w',
            collect.bitbRead Mock.ones_device 1 (Mock.session 8) 4
              (snd (bbusb.OpenBitBabbler Mock.ones_device 0 0 bbusb.world0))
            = Go.Done ([0x0F], None) w')
    by (eexists; vm_compute; reflexivity).
  destruct E as [w' E]. exists w'.
  split; [exact Hb|]. split; [exact Hr|]. split; [exact Hmp|].
  split; [exact E|].
  exact (proj2 (bitb_count_ignores_the_last_byte Mock.ones_device 1
                  (Mock.session 8) 4 _ w' [0x0F] Hb Hr Hmp E)).
Defined.

(** * File names: written by the collector, read back by the exporter *)

Section FileNames.

Import String Ascii.
Import naming filetoexcel.

Variable quote : string -> string.
Variable join : string -> string -> string.
Variable base : string -> string.

Lemma digit_char_spec (d : Z) :
  0 <= d < 10 ->
  is_digit (digit_char d) = true /\
  Z.of_nat (nat_of_ascii (digit_char d)) - 48 = d.
Proof.
  intros Hd.
  assert (D : d = 0 \/ d = 1 \/ d = 2 \/ d = 3 \/ d = 4 \/ d = 5 \/ d = 6
              \/ d = 7 \/ d = 8 \/ d = 9) by lia.
  destruct D as [->|[->|[->|[->|[->|[->|[->|[->|[->| ->]]]]]]]]];
    split; reflexivity.
Qed.

Lemma is_digit_not_underscore (c : ascii) :
  is_digit c = true -> (c =? "_")%char = false.
Proof.
  intros H. apply Ascii.eqb_neq. intros ->. discriminate H.
Qed.

Lemma all_digits_no_underscore : forall s,
  all_digits s = true -> no_underscore s = true.
Proof.
  induction s as [|c s IH]; [reflexivity|]. cbn [all_digits no_underscore].
  intros H. apply andb_prop in H as [H1 H2].
  rewrite (is_digit_not_underscore c H1), IH by exact H2. reflexivity.
Qed.

Lemma all_digits_app (a b : string) :
  all_digits (a ++ b) = all_digits a && all_digits b.
Proof.
  induction a as [|c a IH]; [reflexivity|]. cbn [append all_digits].
  now rewrite IH, andb_assoc.
Qed.

Lemma take_digits_app : forall ds r,
  all_digits ds = true -> take_digits (ds ++ r) = (ds ++ take_digits r)%string.
Proof.
  induction ds as [|c ds IH]; intros r H; [reflexivity|].
  cbn [all_digits] in H. apply andb_prop in H as [H1 H2].
  cbn [append take_digits]. rewrite H1, IH by exact H2. reflexivity.
Qed.

Lemma drop_digits_app : forall ds r,
  all_digits ds = true -> drop_digits (ds ++ r) = drop_digits r.
Proof.
  induction ds as [|c ds IH]; intros r H; [reflexivity|].
  cbn [all_digits] in H. apply andb_prop in H as [H1 H2].
  cbn [append drop_digits]. rewrite H1. now apply IH.
Qed.

Lemma match_i_skip : forall p r,
  no_underscore p = true -> match_i (p ++ r) = match_i r.
Proof.
  induction p as [|c p IH]; intros r H; [reflexivity|].
  cbn [no_underscore] in H. apply andb_prop in H as [H1 H2].
  apply negb_true_iff in H1. cbn [append match_i]. rewrite H1. now apply IH.
Qed.

Lemma match_s_skip : forall p r,
  no_underscore p = true -> match_s (p ++ r) = match_s r.
Proof.
  induction p as [|c p IH]; intros r H; [reflexivity|].
  cbn [no_underscore] in H. apply andb_prop in H as [H1 H2].
  apply negb_true_iff in H1. cbn [append match_s]. rewrite H1. now apply IH.
Qed.

Lemma digits_value_app : forall a b v,
  digits_value (a ++ b) v = digits_value b (digits_value a v).
Proof.
  induction a as [|c a IH]; intros b v; [reflexivity|].
  cbn [append digits_value]. apply IH.
Qed.

(** The digits written for a non-negative number read back as that
    number. *)
Lemma utoa_loop_spec : forall fuel n acc,
  0 <= n < 10 ^ Z.of_nat fuel -> (1 <= fuel)%nat ->
  exists ds,
    utoa_loop fuel n acc = (ds ++ acc)%string /\
    ds <> EmptyString /\ all_digits ds = true /\
    forall v, digits_value ds v = v * 10 ^ Z.of_nat (length ds) + n.
Proof.
  induction fuel as [|fuel IH]; intros n acc Hn Hf; [lia|].
  cbn [utoa_loop].
  pose proof (Z.div_mod n 10 ltac:(lia)) as Hdm.
  pose proof (Z.mod_pos_bound n 10 ltac:(lia)) as Hm.
  destruct (digit_char_spec (n mod 10) Hm) as [Hd1 Hd2].
  destruct (n / 10 =? 0) eqn:E.
  - apply Z.eqb_eq in E.
    exists (String (digit_char (n mod 10)) EmptyString).
    split; [reflexivity|]. split; [discriminate|].
    split; [cbn [all_digits]; now rewrite Hd1|].
    intros v. cbn [digits_value length]. rewrite Hd2.
    change (10 ^ Z.of_nat 1) with 10. lia.
  - apply Z.eqb_neq in E.
    assert (Hq : 0 <= n / 10 < 10 ^ Z.of_nat fuel).
    { split; [apply Z.div_pos; lia|].
      apply Z.div_lt_upper_bound; [lia|].
      rewrite Nat2Z.inj_succ, Z.pow_succ_r in Hn by lia. lia. }
    assert (Hf' : (1 <= fuel)%nat).
    { destruct fuel; [|lia]. cbn in Hq. lia. }
    destruct (IH (n / 10) (String (digit_char (n mod 10)) acc) Hq Hf')
      as (ds & Heq & Hne & Hall & Hval).
    exists (ds ++ String (digit_char (n mod 10)) EmptyString)%string.
    split.
    { rewrite Heq. clear. induction ds as [|c ds IHd]; [reflexivity|].
      cbn [append]. now rewrite IHd. }
    split; [destruct ds; [contradiction|discriminate]|].
    split; [rewrite all_digits_app, Hall; cbn [all_digits]; now rewrite Hd1|].
    intros v. rewrite digits_value_app, Hval. cbn [digits_value].
    rewrite Hd2.
    assert (Hlen : length (ds ++ String (digit_char (n mod 10)) EmptyString)
                   = S (length ds)).
    { clear. induction ds as [|c ds IHd]; [reflexivity|].
      cbn [append length]. now rewrite IHd. }
    rewrite Hlen, Nat2Z.inj_succ, Z.pow_succ_r by lia. lia.
Qed.

Lemma itoa_spec (n : Z) :
  0 < n < 2 ^ 63 ->
  itoa n <> EmptyString /\ all_digits (itoa n) = true /\
  Atoi quote (itoa n) = (n, None).
Proof.
  intros Hn. unfold itoa.
  replace (n <? 0) with false by (symmetry; apply Z.ltb_ge; lia).
  destruct (utoa_loop_spec 20 n EmptyString) as (ds & Heq & Hne & Hall & Hval).
  { split; [lia|]. assert (2 ^ 63 < 10 ^ Z.of_nat 20) by reflexivity. lia. }
  { lia. }
  assert (Hds : utoa_loop 20 n EmptyString = ds).
  { rewrite Heq. clear. induction ds as [|c ds IHd]; [reflexivity|].
    cbn [append]. now rewrite IHd. }
  rewrite Hds. split; [exact Hne|]. split; [exact Hall|].
  unfold Atoi. rewrite Hval. cbn [Z.mul Z.add].
  now replace (n <? 2 ^ 63) with true by (symmetry; apply Z.ltb_lt; lia).
Qed.

Lemma append_assoc (a b c : string) :
  ((a ++ b) ++ c)%string = (a ++ (b ++ c))%string.
Proof. induction a as [|x a IH]; [reflexivity|]. cbn. now rewrite IH. Qed.

(** X25: the names the collector builds are read back by the exporter.
    For a valid device, bits and interval positive (and within [int]) and a
    time stamp without underscore, as [Format] with the layout
    20060102T150405 gives, [BuildBinCSVNames] returns the base name followed
    by ".bin" and ".csv", and on either name [findBitCount] returns [bits]
    and [findInterval] returns [intervalSeconds], without error. *)
Theorem names_round_trip (stamp : string) (device : Device)
  (bits intervalSeconds : Z) :
  Validate quote device = None ->
  0 < bits < 2 ^ 63 -> 0 < intervalSeconds < 2 ^ 63 ->
  no_underscore stamp = true ->
  let name := (stamp ++ "_" ++ device ++ "_s" ++ itoa bits ++ "_i"
               ++ itoa intervalSeconds)%string in
  BuildBaseName quote stamp device bits intervalSeconds = (name, None) /\
  BuildBinCSVNames quote stamp device bits intervalSeconds
  = ((name ++ ".bin")%string, (name ++ ".csv")%string, None) /\
  (forall ext, ext = ".bin"%string \/ ext = ".csv"%string ->
     findBitCount quote base (name ++ ext) = (bits, None) /\
     findInterval quote base (name ++ ext) = (intervalSeconds, None)).
Proof.
  intros Hv Hb Hi Hs name.
  assert (Hbase : BuildBaseName quote stamp device bits intervalSeconds
                  = (name, None)).
  { unfold BuildBaseName. rewrite Hv.
    replace (bits <=? 0) with false by (symmetry; apply Z.leb_gt; lia).
    now replace (intervalSeconds <=? 0) with false
      by (symmetry; apply Z.leb_gt; lia). }
  split; [exact Hbase|]. split.
  { unfold BuildBinCSVNames. rewrite Hbase. reflexivity. }
  intros ext Hext.
  destruct (itoa_spec bits Hb) as (HBne & HBall & HBval).
  destruct (itoa_spec intervalSeconds Hi) as (HIne & HIall & HIval).
  set (B := itoa bits) in *. set (I := itoa intervalSeconds) in *.
  assert (Hdev : device = DeviceTrueRNG \/ device = DeviceBitBabbler
                 \/ device = DevicePseudo).
  { unfold Validate in Hv.
    destruct (device =? DeviceTrueRNG)%string eqn:E1;
      [apply String.eqb_eq in E1; now left|].
    destruct (device =? DeviceBitBabbler)%string eqn:E2;
      [apply String.eqb_eq in E2; right; now left|].
    destruct (device =? DevicePseudo)%string eqn:E3;
      [apply String.eqb_eq in E3; right; now right|].
    discriminate Hv. }
  assert (Htake : forall r, (r = ".bin" \/ r = ".csv")%string ->
            take_digits (I ++ r) = I).
  { intros r Hr. rewrite take_digits_app by exact HIall.
    destruct Hr as [-> | ->]; cbn; clear;
      induction I as [|c I IHI]; [reflexivity| |reflexivity|];
      cbn [append]; now rewrite IHI. }
  assert (HtakeB : forall r, take_digits (B ++ "_i" ++ r) = B).
  { intros r. rewrite take_digits_app by exact HBall. cbn. clear.
    induction B as [|c B IHB]; [reflexivity|]. cbn [append]. now rewrite IHB. }
  assert (HdropB : forall r, drop_digits (B ++ "_i" ++ r)
                             = ("_i" ++ r)%string).
  { intros r. rewrite drop_digits_app by exact HBall. reflexivity. }
  assert (Hms : forall r, match_s ("_s" ++ B ++ "_i" ++ r) = Some B).
  { intros r. cbn [append match_s Ascii.eqb Bool.eqb].
    cbn [append] in HtakeB, HdropB.
    rewrite HtakeB, HdropB.
    destruct B as [|c B']; [contradiction|reflexivity]. }
  assert (Hmi : forall r, (r = ".bin" \/ r = ".csv")%string ->
            match_i ("_s" ++ B ++ "_i" ++ I ++ r) = Some I).
  { intros r Hr. cbn [append match_i Ascii.eqb Bool.eqb].
    rewrite (match_i_skip B) by (now apply all_digits_no_underscore).
    cbn [append match_i Ascii.eqb Bool.eqb]. rewrite (Htake r Hr).
    destruct I as [|c I']; [contradiction|reflexivity]. }
  assert (Hpre_s : forall r, match_s ("_" ++ device ++ r) = match_s r).
  { intros r. destruct Hdev as [-> | [-> | ->]]; reflexivity. }
  assert (Hpre_i : forall r, match_i ("_" ++ device ++ r) = match_i r).
  { intros r. destruct Hdev as [-> | [-> | ->]]; reflexivity. }
  unfold findBitCount, findInterval, name.
  rewrite !append_assoc.
  rewrite (match_s_skip stamp), (match_i_skip stamp) by exact Hs.
  rewrite Hpre_s, Hpre_i, Hms, (Hmi ext Hext), HBval, HIval.
  split; reflexivity.
Qed.

(** X26: how the paths are built.  [BuildBinCSVPaths] checks the device
    first, then the bits, then the interval, and on the first failure
    returns two empty paths and that error; the device is valid exactly
    when it is "trng", "bitb" or "pseudo".  With valid arguments the two
    paths are the base name with ".bin" and ".csv", joined to the
    directory, and the bare names when the directory is empty.  [WithExt]
    takes the extension with or without its leading dot, and returns the
    base unchanged for an empty extension. *)
Theorem BuildBinCSVPaths_checks_in_order (dir stamp : string)
  (device : Device) (bits intervalSeconds : Z) :
  let r := BuildBinCSVPaths quote join dir stamp device bits intervalSeconds in
  let name := (stamp ++ "_" ++ device ++ "_s" ++ itoa bits ++ "_i"
               ++ itoa intervalSeconds)%string in
  (Validate quote device = None <->
   device = "trng"%string \/ device = "bitb"%string
   \/ device = "pseudo"%string) /\
  (forall err, Validate quote device = Some err ->
     r = (""%string, ""%string, Some err)) /\
  (Validate quote device = None -> bits <= 0 ->
   r = (""%string, ""%string, Some "bits must be > 0"%string)) /\
  (Validate quote device = None -> 0 < bits -> intervalSeconds <= 0 ->
   r = (""%string, ""%string, Some "intervalSeconds must be > 0"%string)) /\
  (Validate quote device = None -> 0 < bits -> 0 < intervalSeconds ->
   r = (JoinDir join dir (name ++ ".bin"), JoinDir join dir (name ++ ".csv"),
        None) /\
   (dir = ""%string ->
    r = ((name ++ ".bin")%string, (name ++ ".csv")%string, None))) /\
  (forall b e, WithExt b ""%string = b /\
     WithExt b (String "." e) = (b ++ "." ++ e)%string /\
     (e <> ""%string -> (forall e', e <> String "." e') ->
      WithExt b e = WithExt b (String "." e))).
Proof.
  cbv zeta. unfold BuildBinCSVPaths, BuildBinCSVNames, BuildBaseName.
  split; [|split; [|split; [|split; [|split]]]].
  - unfold Validate.
    destruct (device =? DeviceTrueRNG)%string eqn:E1;
      [apply String.eqb_eq in E1; split; [now left|reflexivity]|].
    destruct (device =? DeviceBitBabbler)%string eqn:E2;
      [apply String.eqb_eq in E2; split; [right; now left|reflexivity]|].
    destruct (device =? DevicePseudo)%string eqn:E3;
      [apply String.eqb_eq in E3; split; [right; now right|reflexivity]|].
    cbn [orb]. split; [discriminate|].
    apply String.eqb_neq in E1, E2, E3. intros [K|[K|K]]; contradiction.
  - intros err ->. reflexivity.
  - intros -> Hb.
    now replace (bits <=? 0) with true by (symmetry; apply Z.leb_le; lia).
  - intros -> Hb Hi.
    replace (bits <=? 0) with false by (symmetry; apply Z.leb_gt; lia).
    now replace (intervalSeconds <=? 0) with true
      by (symmetry; apply Z.leb_le; lia).
  - intros -> Hb Hi.
    replace (bits <=? 0) with false by (symmetry; apply Z.leb_gt; lia).
    replace (intervalSeconds <=? 0) with false
      by (symmetry; apply Z.leb_gt; lia).
    split; [reflexivity|]. intros ->. reflexivity.
  - intros b e. split; [reflexivity|]. split; [reflexivity|].
    intros Hne Hnd. unfold WithExt.
    destruct e as [|c e]; [contradiction|].
    cbn [String.eqb].
    destruct (Ascii.eqb_spec c "."%char) as [->|Hc];
      [exfalso; now apply (Hnd e)|].
    replace (String c e =? "")%string with false by reflexivity.
    destruct c as [[] [] [] [] [] [] [] []]; try reflexivity.
    now contradiction Hc.
Qed.

End FileNames.

Lemma names_round_trip_witness :
  naming.Validate (fun s => s) "bitb"%string = None /\
  0 < 2048 < 2 ^ 63 /\ 0 < 1 < 2 ^ 63 /\
  filetoexcel.no_underscore "20260102T030405"%string = true /\
  naming.BuildBinCSVNames (fun s => s) "20260102T030405"%string
    "bitb"%string 2048 1
  = ("20260102T030405_bitb_s2048_i1.bin"%string,
     "20260102T030405_bitb_s2048_i1.csv"%string, None) /\
  filetoexcel.findBitCount (fun s => s) (fun s => s)
    "20260102T030405_bitb_s2048_i1.bin"%string = (2048, None) /\
  filetoexcel.findInterval (fun s => s) (fun s => s)
    "20260102T030405_bitb_s2048_i1.bin"%string = (1, None).
Proof.
  assert (Hv : naming.Validate (fun s => s) "bitb"%string = None)
    by reflexivity.
  assert (Hb : 0 < 2048 < 2 ^ 63) by lia.
  assert (Hi : 0 < 1 < 2 ^ 63) by lia.
  assert (Hs : filetoexcel.no_underscore "20260102T030405"%string = true)
    by reflexivity.
  destruct (names_round_trip (fun s => s) (fun s => s)
              "20260102T030405"%string "bitb"%string 2048 1 Hv Hb Hi Hs)
    as (_ & Hn & Hf).
  destruct (Hf ".bin"%string (or_introl eq_refl)) as [H1 H2].
  split; [exact Hv|]. split; [exact Hb|]. split; [exact Hi|].
  split; [exact Hs|]. split; [exact Hn|]. split; [exact H1|exact H2].
Defined.

(** * Reading a .bin file back *)

Section BinFile.

Import Go filetoexcel.

Variable F : File.

Lemma read_blocks_spec (bpb : Z) :
  0 < bpb -> 8 * bpb < 2 ^ 63 ->
  let ch j := firstn (Z.to_nat bpb) (fst (read_at F j)) in
  forall fuel block rows w,
    1 <= block -> block + Z.of_nat fuel < 2 ^ 63 ->
    match read_blocks F fuel bpb block rows w with
    | Done (out, None) w' =>
        exists k,
          out = rows ++ map (fun i => mkRow (naming.itoa (block + Z.of_nat i))
                                        (collect.sum_ones (ch (n_reads w + i)%nat)))
                          (seq 0 k) /\
          (forall i, (S i < k)%nat -> len (ch (n_reads w + i)%nat) = bpb) /\
          (forall i, (i < k)%nat -> ch (n_reads w + i)%nat <> []) /\
          n_closed w' = n_closed w /\
          ((n_reads w' = (n_reads w + k)%nat /\ (1 <= k)%nat /\
            len (ch (n_reads w + (k - 1))%nat) < bpb) \/
           (n_reads w' = S (n_reads w + k) /\ ch (n_reads w + k)%nat = []))
    | Done (out, Some e) w' =>
        out = [] /\ e <> EOF /\ n_closed w' = n_closed w /\
        exists i, n_reads w' = S (n_reads w + i) /\
          snd (read_at F (n_reads w + i)) = Some e /\
          ch (n_reads w + i)%nat <> []
    | Panic _ => False
    | Spin w' => n_closed w' = n_closed w
    end.
Proof.
  intros Hbpb H63 ch.
  induction fuel as [|fuel IH]; intros block rows w Hblk Hfuel;
    cbn [read_blocks]; [reflexivity|].
  fold (ch (n_reads w)).
  set (w1 := mkWorld _ _).
  destruct (len (ch (n_reads w)) =? 0) eqn:E0.
  { apply Z.eqb_eq in E0. exists 0%nat. cbn [seq map]. rewrite app_nil_r.
    split; [reflexivity|]. split; [intros; lia|]. split; [intros; lia|].
    split; [reflexivity|]. right. rewrite Nat.add_0_r.
    split; [reflexivity|]. destruct (ch (n_reads w)); [reflexivity|].
    unfold len in E0. cbn in E0. lia. }
  apply Z.eqb_neq in E0.
  assert (Hne : ch (n_reads w) <> [])
    by (intros K; rewrite K in E0; now apply E0).
  assert (Hlen : len (ch (n_reads w)) <= bpb).
  { unfold ch, len. rewrite length_firstn. lia. }
  assert (Hcount : collect.count_loop (ch (n_reads w))
                     (Z.to_nat (len (ch (n_reads w)))) 0 0
                   = collect.sum_ones (ch (n_reads w))).
  { pose proof (count_loop_spec (ch (n_reads w))
                  (Z.to_nat (len (ch (n_reads w)))) 0 0) as HL.
    cbn [Z.of_nat skipn] in HL. rewrite HL;
      [|unfold len; lia|lia|pose proof (len_nonneg (ch (n_reads w))); lia].
    cbn [Z.add]. f_equal. apply firstn_all2. unfold len. lia. }
  rewrite Hcount.
  assert (Hw : int_wrap (block + 1) = block + 1).
  { unfold int_wrap. rewrite Z.mod_small by lia. lia. }
  assert (Step :
    match
      (if len (ch (n_reads w)) <? bpb
       then Done (rows ++ [mkRow (naming.itoa block)
                             (collect.sum_ones (ch (n_reads w)))], None) w1
       else read_blocks F fuel bpb (int_wrap (block + 1))
              (rows ++ [mkRow (naming.itoa block)
                          (collect.sum_ones (ch (n_reads w)))]) w1)
    with
    | Done (out, None) w' =>
        exists k,
          out = rows ++ map (fun i => mkRow (naming.itoa (block + Z.of_nat i))
                                        (collect.sum_ones (ch (n_reads w + i)%nat)))
                          (seq 0 k) /\
          (forall i, (S i < k)%nat -> len (ch (n_reads w + i)%nat) = bpb) /\
          (forall i, (i < k)%nat -> ch (n_reads w + i)%nat <> []) /\
          n_closed w' = n_closed w /\
          ((n_reads w' = (n_reads w + k)%nat /\ (1 <= k)%nat /\
            len (ch (n_reads w + (k - 1))%nat) < bpb) \/
           (n_reads w' = S (n_reads w + k) /\ ch (n_reads w + k)%nat = []))
    | Done (out, Some e) w' =>
        out = [] /\ e <> EOF /\ n_closed w' = n_closed w /\
        exists i, n_reads w' = S (n_reads w + i) /\
          snd (read_at F (n_reads w + i)) = Some e /\
          ch (n_reads w + i)%nat <> []
    | Panic _ => False
    | Spin w' => n_closed w' = n_closed w
    end).
  { destruct (len (ch (n_reads w)) <? bpb) eqn:El.
    - apply Z.ltb_lt in El. exists 1%nat. cbn [seq map].
      rewrite Z.add_0_r, Nat.add_0_r.
      split; [reflexivity|]. split; [intros; lia|].
      split; [intros [|i] Hi; [now rewrite Nat.add_0_r|lia]|].
      split; [reflexivity|]. left. unfold w1. cbn [n_reads].
      split; [lia|]. split; [lia|]. now rewrite Nat.add_0_r.
    - apply Z.ltb_ge in El. rewrite Hw.
      specialize (IH (block + 1)
                    (rows ++ [mkRow (naming.itoa block)
                                (collect.sum_ones (ch (n_reads w)))]) w1
                    ltac:(lia) ltac:(lia)).
      destruct (read_blocks F fuel bpb (block + 1) _ w1)
        as [[out [e|]] w'|w'|w'].
      + destruct IH as (-> & Hne' & Hcl & i & Hr & He & Hch).
        split; [reflexivity|]. split; [exact Hne'|]. split; [exact Hcl|].
        exists (S i). unfold w1 in *. cbn [n_reads] in *.
        replace (n_reads w + S i)%nat with (S (n_reads w) + i)%nat by lia.
        repeat split; try assumption; lia.
      + destruct IH as (k & -> & Hfull & Hnon & Hcl & Hend).
        exists (S k). unfold w1 in *. cbn [n_reads n_closed] in *.
        split.
        { rewrite <- app_assoc. f_equal. cbn [seq map app].
          rewrite Z.add_0_r, Nat.add_0_r. f_equal.
          rewrite <- seq_shift, map_map. apply map_ext. intros i.
          f_equal; [f_equal; lia|]. f_equal. f_equal. lia. }
        split.
        { intros [|i] Hi; [rewrite Nat.add_0_r; lia|].
          replace (n_reads w + S i)%nat with (S (n_reads w) + i)%nat by lia.
          apply Hfull. lia. }
        split.
        { intros [|i] Hi; [now rewrite Nat.add_0_r|].
          replace (n_reads w + S i)%nat with (S (n_reads w) + i)%nat by lia.
          apply Hnon. lia. }
        split; [exact Hcl|].
        destruct Hend as [(Hr & Hk & Hshort)|(Hr & Hz)]; [left|right].
        * split; [lia|]. split; [lia|].
          replace (n_reads w + (S k - 1))%nat
            with (S (n_reads w) + (k - 1))%nat by lia.
          exact Hshort.
        * split; [lia|].
          replace (n_reads w + S k)%nat with (S (n_reads w) + k)%nat by lia.
          exact Hz.
      + exact IH.
      + exact IH. }
  destruct (snd (read_at F (n_reads w))) as [e|] eqn:Ee; [|exact Step].
  destruct (String.eqb e EOF) eqn:Eeof; cbn [negb]; [exact Step|].
  apply String.eqb_neq in Eeof.
  split; [reflexivity|]. split; [exact Eeof|]. split; [reflexivity|].
  exists 0%nat. rewrite Nat.add_0_r. unfold w1. cbn [n_reads].
  repeat split; assumption.
Qed.

(** X27: what [readBinFile] returns.  A block size that is not a multiple
    of 8 is refused, and so is one below 8; neither touches the file.  On
    an opened file the rows are numbered "1", "2", ... in order, and row
    [i] carries the number of set bits of the bytes of the i-th read.
    Reading stops at the first read that returns fewer bytes than a
    block, end of file or not: a short read becomes the last row, an empty
    read ends the rows, and whatever the file holds after it is never read.
    A read error other than EOF that comes with data discards all rows;
    one that comes with no data is not reported.  The file is closed
    exactly once on every return. *)
Theorem readBinFile_rows (fuel : nat) (blockSize : Z) (w : World) :
  (Z.rem blockSize 8 <> 0 ->
   readBinFile F fuel blockSize w
   = Done ([], Some "block size must be a multiple of 8 bits for .bin files"%string) w) /\
  (Z.rem blockSize 8 = 0 -> blockSize < 8 ->
   readBinFile F fuel blockSize w
   = Done ([], Some "invalid block size"%string) w) /\
  (Z.rem blockSize 8 = 0 -> 8 <= blockSize < 2 ^ 63 ->
   Z.of_nat fuel < 2 ^ 62 -> open_err F = None ->
   let bpb := blockSize / 8 in
   let ch j := firstn (Z.to_nat bpb) (fst (read_at F j)) in
   match readBinFile F fuel blockSize w with
   | Done (rows, None) w' =>
       exists k,
         rows = map (fun i => mkRow (naming.itoa (Z.of_nat i + 1))
                                (collect.sum_ones (ch (n_reads w + i)%nat)))
                  (seq 0 k) /\
         (forall i, (S i < k)%nat -> len (ch (n_reads w + i)%nat) = bpb) /\
         (forall i, (i < k)%nat -> ch (n_reads w + i)%nat <> []) /\
         n_closed w' = S (n_closed w) /\
         ((n_reads w' = (n_reads w + k)%nat /\ (1 <= k)%nat /\
           len (ch (n_reads w + (k - 1))%nat) < bpb) \/
          (n_reads w' = S (n_reads w + k) /\ ch (n_reads w + k)%nat = []))
   | Done (rows, Some e) w' =>
       rows = [] /\ e <> EOF /\ n_closed w' = S (n_closed w) /\
       exists i, n_reads w' = S (n_reads w + i) /\
         snd (read_at F (n_reads w + i)) = Some e /\
         ch (n_reads w + i)%nat <> []
   | Panic _ => False
   | Spin w' => n_closed w' = n_closed w
   end).
Proof.
  split; [|split].
  - intros H. unfold readBinFile. now replace (Z.rem blockSize 8 =? 0) with false
      by (symmetry; apply Z.eqb_neq; exact H).
  - intros H Hlt. unfold readBinFile. rewrite H. cbn [Z.eqb negb].
    assert (Hq : Z.quot blockSize 8 <= 0).
    { destruct (Z.le_gt_cases 0 blockSize) as [Hp|Hn].
      - rewrite Z.quot_div_nonneg by lia.
        assert (blockSize / 8 < 1) by (apply Z.div_lt_upper_bound; lia). lia.
      - pose proof (Z.quot_opp_l blockSize 8 ltac:(lia)) as K.
        assert (0 <= Z.quot (- blockSize) 8) by (apply Z.quot_pos; lia).
        lia. }
    now replace (Z.quot blockSize 8 <=? 0) with true
      by (symmetry; apply Z.leb_le; exact Hq).
  - intros H Hb Hfuel Hopen bpb ch. unfold readBinFile.
    rewrite H, Hopen. cbn [Z.eqb negb].
    rewrite Z.quot_div_nonneg by lia. fold bpb.
    assert (Hbpb : 1 <= bpb) by (apply Z.div_le_lower_bound; lia).
    assert (H8 : 8 * bpb <= blockSize) by (apply Z.mul_div_le; lia).
    replace (bpb <=? 0) with false by (symmetry; apply Z.leb_gt; lia).
    pose proof (read_blocks_spec bpb ltac:(lia) ltac:(lia) fuel 1 [] w
                  ltac:(lia) ltac:(lia)) as HS.
    cbv zeta in HS. fold ch in HS.
    destruct (read_blocks F fuel bpb 1 [] w) as [[out [e|]] w'|w'|w'];
      cbn [n_closed n_reads].
    + destruct HS as (-> & Hne & Hcl & i & Hr & He & Hch).
      split; [reflexivity|]. split; [exact Hne|]. split; [now rewrite Hcl|].
      exists i. repeat split; assumption.
    + destruct HS as (k & -> & Hfull & Hnon & Hcl & Hend).
      exists k. cbn [app].
      split.
      { apply map_ext. intros i. f_equal. f_equal. lia. }
      split; [exact Hfull|]. split; [exact Hnon|].
      split; [now rewrite Hcl|exact Hend].
    + exact HS.
    + exact HS.
Qed.

End BinFile.

Lemma readBinFile_rows_witness :
  Z.rem 16 8 = 0 /\ 8 <= 16 < 2 ^ 63 /\ Z.of_nat 5 < 2 ^ 62 /\
  filetoexcel.open_err Cases.two_blocks = None /\
  filetoexcel.readBinFile Cases.two_blocks 5 16 (filetoexcel.mkWorld 0 0)
  = Go.Done ([filetoexcel.mkRow "1"%string 12; filetoexcel.mkRow "2"%string 1],
             None) (filetoexcel.mkWorld 2 1) /\
  exists k,
    [filetoexcel.mkRow "1"%string 12; filetoexcel.mkRow "2"%string 1]
    = map (fun i =>
             filetoexcel.mkRow (naming.itoa (Z.of_nat i + 1))
               (collect.sum_ones
                  (firstn (Z.to_nat (16 / 8))
                     (fst (filetoexcel.read_at Cases.two_blocks (0 + i))))))
        (seq 0 k).
Proof.
  assert (H8 : Z.rem 16 8 = 0) by reflexivity.
  assert (Hb : 8 <= 16 < 2 ^ 63) by lia.
  assert (Hf : Z.of_nat 5 < 2 ^ 62) by (vm_compute; reflexivity).
  assert (Ho : filetoexcel.open_err Cases.two_blocks = None) by reflexivity.
  pose proof (proj2 (proj2 (readBinFile_rows Cases.two_blocks 5 16
                              (filetoexcel.mkWorld 0 0))) H8 Hb Hf Ho) as H.
  assert (E : filetoexcel.readBinFile Cases.two_blocks 5 16
                (filetoexcel.mkWorld 0 0)
              = Go.Done ([filetoexcel.mkRow "1"%string 12;
                          filetoexcel.mkRow "2"%string 1], None)
                  (filetoexcel.mkWorld 2 1)) by (vm_compute; reflexivity).
  cbv zeta in H. rewrite E in H. destruct H as (k & Hrows & _).
  split; [exact H8|]. split; [exact Hb|]. split; [exact Hf|].
  split; [exact Ho|]. split; [exact E|]. exists k. exact Hrows.
Defined.

(** * The MULTI_SZ registry value *)

Section MultiSz.

Import Go multisz.

Variable UTF16ToString : list Z -> String.string.

(** Scanning characters that are not NUL moves on without output. *)
Lemma parse_loop_scan (buf : list Z) : forall s rest i start out,
  ~ In 0 s ->
  parse_loop UTF16ToString buf (s ++ rest) i start out
  = parse_loop UTF16ToString buf rest (i + len s) start out.
Proof.
  induction s as [|c s IH]; intros rest i start out Hz.
  - cbn. now rewrite Z.add_0_r.
  - cbn [app parse_loop].
    replace (c =? 0) with false
      by (symmetry; apply Z.eqb_neq; intros ->; apply Hz; now left).
    rewrite IH by (intros K; apply Hz; now right).
    f_equal. unfold len. cbn [length]. lia.
Qed.

Lemma parse_loop_segments (tail : list Z) :
  forall segs done out,
    (forall s, In s segs -> s <> [] /\ ~ In 0 s) ->
    let body := flat_map (fun s => s ++ [0]) segs in
    parse_loop UTF16ToString (done ++ body ++ tail) (body ++ tail)
      (len done) (len done) out
    = parse_loop UTF16ToString (done ++ body ++ tail) tail
        (len done + len body) (len done + len body)
        (out ++ map UTF16ToString segs).
Proof.
  induction segs as [|s segs IH]; intros done out Hs; cbv zeta.
  - cbn [flat_map app map]. rewrite app_nil_r.
    unfold len at 3 5. cbn [length Z.of_nat]. now rewrite Z.add_0_r.
  - destruct (Hs s (or_introl eq_refl)) as [Hne Hz].
    cbn [flat_map map]. set (body := flat_map _ segs).
    rewrite <- !app_assoc. cbn [app].
    rewrite parse_loop_scan by exact Hz. cbn [parse_loop Z.eqb].
    pose proof (len_nonneg s) as Hl0.
    assert (Hls : 0 < len s).
    { destruct s; [contradiction|]. unfold len. cbn [length]. lia. }
    replace (len done + len s =? len done) with false
      by (symmetry; apply Z.eqb_neq; lia).
    assert (Hslice : slice (done ++ s ++ 0 :: body ++ tail) (len done)
                       (len done + len s) = s).
    { unfold slice, len.
      replace (Z.to_nat (Z.of_nat (length done) + Z.of_nat (length s)
                         - Z.of_nat (length done))) with (length s) by lia.
      rewrite Nat2Z.id.
      rewrite skipn_app, Nat.sub_diag, skipn_all. cbn [skipn app].
      rewrite firstn_app, Nat.sub_diag, firstn_all. cbn [firstn].
      now rewrite app_nil_r. }
    rewrite Hslice.
    specialize (IH (done ++ s ++ [0]) (out ++ [UTF16ToString s])
                  ltac:(intros s' Hin; apply Hs; now right)).
    cbv zeta in IH. fold body in IH.
    assert (Hld : len (done ++ s ++ [0]) = len done + len s + 1).
    { unfold len. rewrite !length_app. cbn [length]. lia. }
    rewrite Hld in IH. rewrite <- !app_assoc in IH. cbn [app] in IH.
    rewrite IH.
    f_equal; try (unfold len; rewrite !length_app; cbn [length]; lia);
      try (now rewrite <- app_assoc).
Qed.

(** X28: the MULTI_SZ parser reads back what was encoded.  For strings
    that are not empty and hold no NUL, the parse of their encoding (each
    followed by a NUL, and a closing NUL) returns them in order, whatever
    follows the closing NUL in the buffer; without the closing NUL, a last
    piece that is not terminated is dropped.  An empty buffer and a buffer
    that starts with a NUL give no strings. *)
Theorem multi_sz_round_trip (segs : list (list Z)) (junk : list Z) :
  (forall s, In s segs -> s <> [] /\ ~ In 0 s) ->
  parse UTF16ToString (encode segs ++ junk) = map UTF16ToString segs /\
  (~ In 0 junk ->
   parse UTF16ToString (flat_map (fun s => s ++ [0]) segs ++ junk)
   = map UTF16ToString segs) /\
  parse UTF16ToString (0 :: junk) = [].
Proof.
  intros Hs. split; [|split].
  - unfold parse, encode. rewrite <- app_assoc. cbn [app].
    pose proof (parse_loop_segments ([0] ++ junk) segs [] [] Hs) as H.
    cbv zeta in H. cbn [app len length Z.of_nat Z.add] in H.
    rewrite H. cbn [parse_loop Z.eqb]. now rewrite Z.eqb_refl.
  - intros Hj. unfold parse.
    pose proof (parse_loop_segments junk segs [] [] Hs) as H.
    cbv zeta in H. cbn [app len length Z.of_nat Z.add] in H.
    rewrite H.
    rewrite <- (app_nil_r junk) at 2.
    rewrite parse_loop_scan by exact Hj. reflexivity.
  - reflexivity.
Qed.

End MultiSz.

Lemma multi_sz_round_trip_witness :
  (forall s, In s [[85; 83; 66]; [86]] -> s <> [] /\ ~ In 0 s) /\
  multisz.parse (fun s => String.string_of_list_ascii
                            (map (fun c => Ascii.ascii_of_nat (Z.to_nat c)) s))
    [85; 83; 66; 0; 86; 0; 0; 7; 7]
  = ["USB"%string; "V"%string].
Proof.
  assert (Hs : forall s, In s [[85; 83; 66]; [86]] -> s <> [] /\ ~ In 0 s).
  { intros s [<-|[<-|[]]]; (split; [discriminate|]);
      cbn; intros K; repeat destruct K as [K|K]; try discriminate K;
      exact K. }
  split; [exact Hs|].
  exact (proj1 (multi_sz_round_trip
                  (fun s => String.string_of_list_ascii
                              (map (fun c => Ascii.ascii_of_nat (Z.to_nat c)) s))
                  [[85; 83; 66]; [86]] [7; 7] Hs)).
Defined.
